(** * expmonkey: branch / worktree consistency engine

    A shallow embedding of [src/expmonkey/__init__.py].

    - [Text] and [Path]: the string and [os.path] operations the program
      calls ([str.strip], [os.path.join], [os.path.dirname]).
    - [Marker]: the project-marker search [_get_basedir].
    - [Subprocess]: [BaseRepository.check_output] and the adapter
      operations written on top of it, over an arbitrary backend.
    - [Engine]: the namespace inspector [_list_checked_out_branches], the
      consistency checker [_check_branch] and the commands [cp], [mv],
      [rm], [co] and [cm], as state passing over a record that holds the
      directories, the worktree entries, the local and the remote refs.
    - [Scenarios]: small projects on which the commands are run.
    - [MarkerFacts], [EngineFacts], [SubprocessFacts]: what is proved.
    - [Commands]: the commands [cd] and [push]; [ParentGit]: the search
      [_get_parent_git_path]; [Pytext] and [Listing]: [str.split],
      [str.splitlines] and the adapter operations that parse git's output.
    - [CommandFacts], [ParentGitFacts], [PytextFacts], [ListingFacts]: what
      is proved about these and, further, about the commands of [Engine]. *)

From Stdlib Require Import String Ascii List Bool Arith ZArith Lia.
From Stdlib Require Import DecimalString.
From Equations Require Import Equations.
Import ListNotations.
Open Scope string_scope.
Open Scope list_scope.

(** What a call of the program ends in: a value, [_die] (a diagnostic on the
    error stream and exit status 1), or an uncaught Python exception. *)
Inductive outcome (A : Type) : Type :=
| Ok (a : A)
| Die (msg : string)
| Raise (exn : string).
Arguments Ok {A} a.
Arguments Die {A} msg.
Arguments Raise {A} exn.

(** ** Strings *)
Module Text.

(** The double-quote character used by the program's messages. *)
Definition dq : string := String (ascii_of_nat 34) EmptyString.

(** ['"{}"'.format(s)] *)
Definition quoted (s : string) : string := dq ++ s ++ dq.

Definition is_empty (s : string) : bool :=
  match s with EmptyString => true | String _ _ => false end.

(** [c in chars] for a character. *)
Fixpoint char_in (c : ascii) (chars : string) : bool :=
  match chars with
  | EmptyString => false
  | String d rest => Ascii.eqb c d || char_in c rest
  end.

(** [s.lstrip(chars)] *)
Fixpoint lstrip (chars s : string) : string :=
  match s with
  | EmptyString => EmptyString
  | String c rest => if char_in c chars then lstrip chars rest else s
  end.

(** [s.rstrip(chars)] *)
Fixpoint rstrip (chars s : string) : string :=
  match s with
  | EmptyString => EmptyString
  | String c rest =>
      let r := rstrip chars rest in
      if is_empty r && char_in c chars then EmptyString else String c r
  end.

(** [s.strip(chars)] *)
Definition strip (chars s : string) : string := rstrip chars (lstrip chars s).

(** ASCII white space, the characters [str.strip()] removes: the blank,
    [\t], [\n], [\v], [\f], [\r] and the four separators [\x1c] to
    [\x1f]. *)
Definition whitespace : string :=
  String (ascii_of_nat 32) (String (ascii_of_nat 9) (String (ascii_of_nat 10)
  (String (ascii_of_nat 11) (String (ascii_of_nat 12)
  (String (ascii_of_nat 13) (String (ascii_of_nat 28) (String (ascii_of_nat 29)
  (String (ascii_of_nat 30) (String (ascii_of_nat 31) EmptyString))))))))).

(** [s.startswith(p)] *)
Definition startswith (p s : string) : bool := String.prefix p s.

(** [x in xs] for a list of strings. *)
Definition mem (x : string) (xs : list string) : bool :=
  existsb (String.eqb x) xs.

(** [c.isalpha() or c.isdigit()] on an ASCII character. *)
Definition is_alnum (c : ascii) : bool :=
  let n := nat_of_ascii c in
  (Nat.leb 65 n && Nat.leb n 90) || (Nat.leb 97 n && Nat.leb n 122)
  || (Nat.leb 48 n && Nat.leb n 57).

Lemma mem_In x xs : mem x xs = true <-> In x xs.
Proof.
  unfold mem. rewrite existsb_exists. split.
  - intros [y [Hy E]]. apply String.eqb_eq in E. now subst.
  - intros H. exists x. split; [assumption | apply String.eqb_refl].
Qed.

Lemma mem_false_In x xs : mem x xs = false <-> ~ In x xs.
Proof.
  rewrite <- mem_In. destruct (mem x xs); split; congruence.
Qed.

Lemma prefix_length a : forall b, String.prefix a b = true -> String.length a <= String.length b.
Proof.
  induction a as [|c a IH]; intros [|d b]; simpl; try lia; try discriminate.
  destruct (ascii_dec c d); [|discriminate].
  intros H. apply IH in H. lia.
Qed.

Lemma prefix_same_length a :
  forall b, String.prefix a b = true -> String.length a = String.length b -> a = b.
Proof.
  induction a as [|c a IH]; intros [|d b]; simpl; try discriminate; auto.
  destruct (ascii_dec c d); [|discriminate].
  intros H L. subst. f_equal. apply IH; [assumption | lia].
Qed.

Lemma prefix_refl a : String.prefix a a = true.
Proof.
  induction a as [|c a IH]; simpl; [reflexivity|].
  destruct (ascii_dec c c); [assumption | congruence].
Qed.

Lemma prefix_trans a :
  forall b c, String.prefix a b = true -> String.prefix b c = true ->
              String.prefix a c = true.
Proof.
  induction a as [|x a IH]; intros [|y b] [|z c]; simpl; try discriminate; auto.
  destruct (ascii_dec x y); [|discriminate].
  destruct (ascii_dec y z); [|discriminate].
  subst. destruct (ascii_dec z z); [|congruence]. apply IH.
Qed.

Lemma rstrip_prefix chars s : String.prefix (rstrip chars s) s = true.
Proof.
  induction s as [|c s IH]; simpl; [reflexivity|].
  destruct (is_empty (rstrip chars s) && char_in c chars); simpl; [reflexivity|].
  destruct (ascii_dec c c); [assumption | congruence].
Qed.

End Text.

(** ** Paths: [os.path] on POSIX *)
Module Path.
Import Text.

Definition sep : ascii := ascii_of_nat 47.
Definition seps : string := String sep EmptyString.

Fixpoint endswith_sep (s : string) : bool :=
  match s with
  | EmptyString => false
  | String c EmptyString => Ascii.eqb c sep
  | String _ rest => endswith_sep rest
  end.

(** [os.path.join(a, b)]: an absolute [b] replaces [a]; a separator is
    inserted unless [a] is empty or already ends with one. *)
Definition join (a b : string) : string :=
  if startswith seps b then b
  else if is_empty a || endswith_sep a then a ++ b
  else a ++ seps ++ b.

(** [p.rfind('/') + 1] *)
Fixpoint rfind_sep_succ (p : string) : nat :=
  match p with
  | EmptyString => 0
  | String c rest =>
      match rfind_sep_succ rest with
      | 0 => if Ascii.eqb c sep then 1 else 0
      | S i => S (S i)
      end
  end.

(** [head == '/' * len(head)] *)
Fixpoint all_sep (s : string) : bool :=
  match s with
  | EmptyString => true
  | String c rest => Ascii.eqb c sep && all_sep rest
  end.

(** [os.path.dirname(p)] *)
Definition dirname (p : string) : string :=
  let i := rfind_sep_succ p in
  let head := String.substring 0 i p in
  if negb (is_empty head) && negb (all_sep head) then rstrip seps head
  else head.

(** [path] or one of its descendants: what [shutil.rmtree(root)] deletes. *)
Definition under (root path : string) : bool :=
  String.eqb path root || startswith (root ++ seps) path.

(** [path] is a descendant of [root]. *)
Definition below (root path : string) : bool :=
  startswith (root ++ seps) path.

Lemma substring_prefix n : forall s, String.prefix (String.substring 0 n s) s = true.
Proof.
  induction n as [|n IH]; intros [|c s]; simpl; try reflexivity.
  destruct (ascii_dec c c); [apply IH | congruence].
Qed.

Lemma dirname_prefix p : String.prefix (dirname p) p = true.
Proof.
  unfold dirname.
  destruct (negb _ && negb _).
  - eapply prefix_trans; [apply rstrip_prefix | apply substring_prefix].
  - apply substring_prefix.
Qed.

(** One step up is strictly shorter, except at a fixed point of [dirname]. *)
Lemma dirname_shorter p :
  dirname p <> p -> String.length (dirname p) < String.length p.
Proof.
  intros N. pose proof (dirname_prefix p) as P.
  pose proof (prefix_length _ _ P) as L.
  destruct (Nat.eq_dec (String.length (dirname p)) (String.length p)) as [E|E]; [|lia].
  exfalso. apply N. now apply prefix_same_length.
Qed.

Example dirname_nested : dirname "/home/u/exp/a" = "/home/u/exp".
Proof. reflexivity. Qed.
Example dirname_trailing : dirname "/home/u/" = "/home/u".
Proof. reflexivity. Qed.
Example dirname_top : dirname "/home" = "/".
Proof. reflexivity. Qed.
Example dirname_root : dirname "/" = "/".
Proof. reflexivity. Qed.
Example dirname_relative : dirname "exp" = EmptyString.
Proof. reflexivity. Qed.
Example join_plain : join "/home/u" ".em" = "/home/u/.em".
Proof. reflexivity. Qed.
Example join_root : join "/" ".em" = "/.em".
Proof. reflexivity. Qed.
Example join_absolute : join "/home/u" "/tmp/x" = "/tmp/x".
Proof. reflexivity. Qed.

(** The pieces of [p] between separators: [p.split('/')]. *)
Fixpoint components (p : string) : list string :=
  match p with
  | EmptyString => [EmptyString]
  | String c rest =>
      if Ascii.eqb c sep then EmptyString :: components rest
      else match components rest with
           | piece :: more => String c piece :: more
           | [] => [String c EmptyString]
           end
  end.

(** A relative path in normal form: no piece is empty, [.] or [..]. Then
    [os.path.normpath] leaves the path as it is, and [os.path.join(base, p)]
    is the entry [p] of [base] and nothing else. *)
Definition normal (p : string) : bool :=
  forallb (fun piece =>
             negb (is_empty piece || String.eqb piece "." || String.eqb piece ".."))
          (components p).

Example normal_nested : normal "exp/a" = true.
Proof. reflexivity. Qed.
Example normal_trailing : normal "a/" = false.
Proof. reflexivity. Qed.
Example normal_parent : normal "a/.." = false.
Proof. reflexivity. Qed.
Example normal_double : normal "a//b" = false.
Proof. reflexivity. Qed.
Example normal_absolute : normal "/a" = false.
Proof. reflexivity. Qed.

Lemma prefix_app_r a :
  forall b c, String.prefix a b = true -> String.prefix a (b ++ c) = true.
Proof.
  induction a as [|x a IH]; intros [|y b] c; simpl; try discriminate; auto.
  - now destruct c.
  - destruct (ascii_dec x y); [apply IH | discriminate].
Qed.

Lemma length_app a : forall b, String.length (a ++ b) = String.length a + String.length b.
Proof. induction a as [|x a IH]; intros b; simpl; [reflexivity | now rewrite IH]. Qed.

Lemma below_under a b : below a b = true -> under a b = true.
Proof. unfold below, under. intros ->. apply orb_true_r. Qed.

Lemma below_irrefl p : below p p = false.
Proof.
  unfold below, startswith. destruct (String.prefix (p ++ seps) p) eqn:E; [|reflexivity].
  apply prefix_length in E. rewrite length_app in E. simpl in E. lia.
Qed.

(** What is below a path is below the paths above it. *)
Lemma under_below a b c : under a b = true -> below b c = true -> below a c = true.
Proof.
  unfold under, below, startswith. intros U B.
  apply orb_true_iff in U as [E|P].
  - apply String.eqb_eq in E. now subst.
  - eapply prefix_trans; [|exact B]. now apply prefix_app_r.
Qed.

Lemma under_trans a b c : under a b = true -> under b c = true -> under a c = true.
Proof.
  intros U V. unfold under in V. apply orb_true_iff in V as [E|P].
  - apply String.eqb_eq in E. now subst.
  - apply below_under. now apply (under_below a b c).
Qed.

(** A path splits at its last separator. *)
Lemma split_at_last_sep p :
  exists base,
    p = (String.substring 0 (rfind_sep_succ p) p ++ base)%string /\ char_in sep base = false.
Proof.
  assert (Z : forall s, String.substring 0 0 s = EmptyString) by now intros [|d s].
  induction p as [|c rest [base [E N]]]; [now exists EmptyString|].
  cbn [rfind_sep_succ]. destruct (rfind_sep_succ rest) as [|i].
  - rewrite Z in E. cbn [append] in E. subst base.
    destruct (Ascii.eqb c sep) eqn:C.
    + exists rest. split; [|exact N]. cbn [String.substring]. now rewrite Z.
    + exists (String c rest). split; [now rewrite Z|].
      cbn [char_in]. now rewrite Ascii.eqb_sym, C.
  - exists base. split; [|exact N]. cbn [String.substring append]. now rewrite <- E.
Qed.

(** A prefix that ends in a separator ends before the last one. *)
Lemma prefix_before_base x :
  forall y base,
    char_in sep base = false ->
    String.prefix (x ++ seps) (y ++ base) = true -> String.prefix (x ++ seps) y = true.
Proof.
  unfold seps. induction x as [|a x IH]; intros [|b y] base N; cbn [append].
  - destruct base as [|d base]; [discriminate|].
    cbn [char_in] in N. apply orb_false_iff in N as [N _].
    cbn [String.prefix]. destruct (ascii_dec sep d) as [<-|]; [|discriminate].
    rewrite Ascii.eqb_refl in N. discriminate N.
  - cbn [String.prefix]. destruct (ascii_dec sep b); [|discriminate]. now destruct y.
  - destruct base as [|d base]; [discriminate|].
    cbn [char_in] in N. apply orb_false_iff in N as [_ N].
    cbn [String.prefix]. destruct (ascii_dec a d); [|discriminate].
    intros P. specialize (IH EmptyString base N P). destruct x; discriminate IH.
  - cbn [String.prefix]. destruct (ascii_dec a b); [|discriminate]. apply (IH y base N).
Qed.

Lemma below_rstrip q :
  forall h, String.prefix (q ++ seps) h = true -> endswith_sep q = false ->
            rstrip seps h = q \/ String.prefix (q ++ seps) (rstrip seps h) = true.
Proof.
  unfold seps.
  induction q as [|a q IH]; intros [|b h]; cbn [append String.prefix]; try discriminate.
  - destruct (ascii_dec sep b) as [<-|]; [|discriminate]. intros _ _.
    cbn [rstrip char_in]. rewrite Ascii.eqb_refl. cbn [orb]. rewrite andb_true_r.
    destruct (rstrip (String sep EmptyString) h) as [|c r]; cbn [is_empty];
      [now left | right].
    cbn [String.prefix]. destruct (ascii_dec sep sep); [reflexivity | congruence].
  - destruct (ascii_dec a b) as [<-|]; [|discriminate]. intros P E.
    assert (E' : endswith_sep q = false) by (destruct q; [reflexivity | exact E]).
    destruct (IH h P E') as [R|R]; cbn [rstrip].
    + rewrite R. destruct q as [|c q]; cbn [is_empty andb].
      * cbn [endswith_sep] in E. cbn [char_in]. rewrite E. cbn [orb]. now left.
      * now left.
    + destruct (rstrip (String sep EmptyString) h) as [|c r] eqn:X; cbn [is_empty andb].
      * exfalso. destruct q; discriminate R.
      * right. cbn [String.prefix]. destruct (ascii_dec a a); [exact R | congruence].
Qed.

(** The directories above a path are those above its parent, and the
    parent. *)
Lemma below_dirname q p :
  below q p = true -> endswith_sep q = false -> under q (dirname p) = true.
Proof.
  unfold below, startswith. intros B E.
  destruct (split_at_last_sep p) as [base [S N]]. rewrite S in B.
  apply prefix_before_base in B; [|exact N].
  unfold dirname. cbv zeta.
  destruct (negb (is_empty _) && negb (all_sep _)).
  - unfold under. destruct (below_rstrip _ _ B E) as [R|R].
    + rewrite R, String.eqb_refl. reflexivity.
    + unfold startswith. rewrite R. apply orb_true_r.
  - now apply below_under.
Qed.

Lemma components_nonempty p : components p <> [].
Proof.
  destruct p as [|c rest]; simpl; [discriminate|].
  destruct (Ascii.eqb c sep); [discriminate|]. now destruct (components rest).
Qed.

Lemma components_several c rest : components (String c rest) <> [EmptyString].
Proof.
  cbn [components]. destruct (Ascii.eqb c sep).
  - pose proof (components_nonempty rest). destruct (components rest); congruence.
  - destruct (components rest); discriminate.
Qed.

Lemma components_last p :
  endswith_sep p = true -> forall d, last (components p) d = EmptyString.
Proof.
  induction p as [|c rest IH]; [discriminate|]. intros E dflt.
  destruct rest as [|d r].
  - cbn [endswith_sep] in E. cbn [components]. now rewrite E.
  - assert (E' : endswith_sep (String d r) = true) by exact E.
    specialize (IH E'). pose proof (components_several d r) as S.
    pose proof (components_nonempty (String d r)) as NE.
    change (components (String c (String d r)))
      with (if Ascii.eqb c sep then EmptyString :: components (String d r)
            else match components (String d r) with
                 | piece :: more => String c piece :: more
                 | [] => [String c EmptyString]
                 end).
    destruct (components (String d r)) as [|f m]; [congruence|].
    destruct (Ascii.eqb c sep).
    + exact (IH dflt).
    + destruct m as [|x m].
      * specialize (IH dflt). cbn [last] in IH. congruence.
      * exact (IH dflt).
Qed.

(** What a path in normal form looks like at its ends. *)
Lemma normal_ends p :
  normal p = true ->
  is_empty p = false /\ startswith seps p = false /\ endswith_sep p = false.
Proof.
  intros N. split; [|split].
  - now destruct p.
  - destruct p as [|c rest]; [reflexivity|]. unfold startswith, seps.
    cbn [String.prefix]. destruct (ascii_dec sep c) as [<-|]; [|reflexivity].
    unfold normal in N. cbn [components] in N. rewrite Ascii.eqb_refl in N.
    discriminate N.
  - destruct (endswith_sep p) eqn:E; [|reflexivity].
    pose proof (components_last p E EmptyString) as L. unfold normal in N.
    destruct (exists_last (components_nonempty p)) as (l & a & X).
    rewrite X in *. rewrite last_last in L. subst a.
    rewrite forallb_app in N. simpl in N. now rewrite andb_false_r in N.
Qed.

Lemma endswith_sep_app a : forall b, is_empty b = false -> endswith_sep (a ++ b) = endswith_sep b.
Proof.
  induction a as [|x a IH]; intros b N; [reflexivity|].
  cbn [append endswith_sep]. rewrite (IH b N).
  destruct (a ++ b)%string eqn:X; [|reflexivity].
  destruct a; destruct b; discriminate.
Qed.

(** What [os.path.join] puts before a relative path. *)
Definition joined (a : string) : string :=
  if is_empty a || endswith_sep a then a else a ++ seps.

Lemma join_relative a b : startswith seps b = false -> join a b = (joined a ++ b)%string.
Proof.
  unfold join, joined. intros ->. destruct (is_empty a || endswith_sep a); [reflexivity|].
  induction a; simpl; [reflexivity | now f_equal].
Qed.

Lemma join_normal a b : normal b = true -> endswith_sep (join a b) = false.
Proof.
  intros N. destruct (normal_ends b N) as [E [S F]].
  rewrite (join_relative a b S), endswith_sep_app by exact E. exact F.
Qed.

End Path.

(** ** The project marker search *)
Module Marker.
Import Text Path.

Definition project_not_found : string :=
  "Project not found, you may want to start with " ++ quoted "em init".

Section Search.

(** The file system as the search sees it: [os.path.exists] and
    [os.path.abspath] (which depends on the working directory). *)
Variable path_exists : string -> bool.
Variable abspath : string -> string.

(** The [while True] loop of [_get_basedir]. *)
Equations? ascend (path : string) : outcome string
  by wf (String.length path) lt :=
  ascend path with path_exists (join path ".em") => {
    | true := Ok path
    | false with string_dec path (dirname path) => {
        | left _ := Die project_not_found
        | right _ := ascend (dirname path) } }.
Proof. apply dirname_shorter. congruence. Qed.

(** [_get_basedir(path)] *)
Definition _get_basedir (path : string) : outcome string :=
  ascend (abspath path).

(** The [k]-th directory above [p]. *)
Definition ancestor (k : nat) (p : string) : string := Nat.iter k dirname p.

Definition has_marker (p : string) : bool := path_exists (join p ".em").

Definition is_root (p : string) : Prop := p = dirname p.

End Search.
End Marker.

(** ** The subprocess layer of the adapter *)
Module Subprocess.
Import Text.

(** How a spawned process ends: it exits with a return code and what it
    wrote to its standard output, or the user interrupts it. *)
Inductive completion : Type :=
| Exited (returncode : Z) (stdout : list Byte.byte)
| Interrupted.

(** One [subprocess.Popen] call: the command line and how it ended. *)
Record invocation : Type := { inv_args : list string; inv_end : completion }.

(** The two repository classes. *)
Inductive variant : Type := Shell | Pygit2.

(** [stdout.decode()], for output in the ASCII range. *)
Definition decode (b : list Byte.byte) : string := String.string_of_list_byte b.

(** ['{}'.format(returncode)] *)
Definition show_returncode (rc : Z) : string :=
  NilZero.string_of_int (Z.to_int rc).

(** The message of the [RuntimeError] of [check_output]. *)
Definition nonzero_message (rc : Z) (args : list string) : string :=
  "Subprocess exits with non-zero return code " ++ show_returncode rc
  ++ ": " ++ String.concat " " args.

(** An adapter operation: a sequence of [check_output] calls, of native
    reference lookups (the [Pygit2Repository] override of [rev_parse]) and
    of pure Python in between. *)
Inductive prog (A : Type) : Type :=
| Ret (a : A)
| CheckOutput (args : list string) (k : string -> prog A)
| LookupReference (ref : string) (k : string -> prog A).
Arguments Ret {A} a.
Arguments CheckOutput {A} args k.
Arguments LookupReference {A} ref k.

Fixpoint bind {A B : Type} (m : prog A) (f : A -> prog B) : prog B :=
  match m with
  | Ret a => f a
  | CheckOutput args k => CheckOutput args (fun out => bind (k out) f)
  | LookupReference ref k => LookupReference ref (fun out => bind (k out) f)
  end.

Declare Scope prog_scope.
Delimit Scope prog_scope with prog.
Notation "x <- m ;; k" := (bind m (fun x => k))
  (at level 61, m at next level, right associativity) : prog_scope.
Notation "m ;; k" := (bind m (fun _ => k))
  (at level 61, right associativity) : prog_scope.

(** [self.check_output] applied to a command line, as an operation of its own. *)
Definition check_output (args : list string) : prog string :=
  CheckOutput args Ret.

Section Adapter.
Open Scope prog_scope.

Variable self_remote : string.
Variable kind : variant.

Definition add_worktree (path branch : string) : prog unit :=
  check_output ["git"; "worktree"; "add"; path; branch] ;; Ret tt.

Definition checkout_orphan (branch : string) : prog unit :=
  check_output ["git"; "checkout"; "--orphan"; branch] ;;
  check_output ["git"; "rm"; "-rf"; "."] ;; Ret tt.

Definition remove_worktree (path : string) : prog unit :=
  check_output ["git"; "worktree"; "remove"; path] ;; Ret tt.

Definition prune_worktree : prog unit :=
  check_output ["git"; "worktree"; "prune"] ;; Ret tt.

(** The comparison of [get_current_branch]: the abbreviated name of a
    detached [HEAD] is the word [HEAD]. *)
Definition branch_of_abbrev_ref (branch : string) : option string :=
  if String.eqb branch "HEAD" then None else Some branch.

Definition get_current_branch : prog (option string) :=
  branch <- check_output ["git"; "rev-parse"; "--abbrev-ref"; "HEAD"] ;;
  Ret (branch_of_abbrev_ref branch).

Definition create_branch (branch start_point : string) : prog unit :=
  check_output ["git"; "branch"; "--quiet"; branch; start_point] ;; Ret tt.

Definition delete_branch (branch : string) : prog unit :=
  check_output ["git"; "branch"; "--quiet"; "-D"; branch] ;; Ret tt.

Definition fetch (refspecs : list string) : prog unit :=
  check_output (["git"; "fetch"; "--quiet"; self_remote] ++ refspecs) ;; Ret tt.

Definition add_all : prog unit :=
  check_output ["git"; "add"; "--all"] ;; Ret tt.

(** [rev_parse]: a subprocess in [ShellRepository], a native lookup in
    [Pygit2Repository]. *)
Definition rev_parse (ref : string) : prog string :=
  match kind with
  | Shell => check_output ["git"; "rev-parse"; "--quiet"; ref]
  | Pygit2 => LookupReference ref Ret
  end.

(** The argument of [commit]: one message or a list of them. *)
Inductive messages : Type := One (msg : string) | Many (msgs : list string).

Definition msg_args (msg : messages) : list string :=
  let msgs := match msg with One m => [m] | Many l => l end in
  flat_map (fun m => ["-m"; m]) msgs.

Definition commit (msg : messages) : prog string :=
  check_output (["git"; "commit"; "--quiet"; "--allow-empty"] ++ msg_args msg) ;;
  rev_parse "HEAD".

Definition push (refspec : string) : prog unit :=
  check_output ["git"; "push"; "--quiet"; self_remote; refspec] ;; Ret tt.

End Adapter.

Section Exec.

(** The backend: whatever state the processes act on, what spawning a
    command in a directory does to it, and the native reference lookup. *)
Variable backend : Type.
Variable spawn : string -> list string -> backend -> completion * backend.
Variable lookup_reference : string -> string -> backend -> option string.

(** The directory the repository object was opened on ([self.path]). *)
Variable self_path : string.

(** Running an operation: the outcome, the backend afterwards and the
    processes that were spawned, oldest first. *)
Fixpoint exec {A : Type} (m : prog A) (b : backend)
  : outcome A * backend * list invocation :=
  match m with
  | Ret a => (Ok a, b, [])
  | CheckOutput args k =>
      let '(c, b1) := spawn self_path args b in
      let this := {| inv_args := args; inv_end := c |} in
      match c with
      | Interrupted => (Die "KeyboardInterrupt", b1, [this])
      | Exited rc stdout =>
          if Z.eqb rc 0 then
            let '(r, b2, later) := exec (k (strip whitespace (decode stdout))) b1 in
            (r, b2, this :: later)
          else (Raise (nonzero_message rc args), b1, [this])
      end
  | LookupReference ref k =>
      match lookup_reference self_path ref b with
      | Some target => exec (k target) b
      | None => (Raise "KeyError", b, [])
      end
  end.



End Exec.
End Subprocess.

(** ** The consistency engine

    The repository and the file system are the state the commands act on.
    The adapter operations are given here by their effect on that state, as
    git documents it: a branch that is checked out in a worktree cannot be
    deleted, a worktree cannot be added on an existing path or for a branch
    that is already checked out, [git worktree prune] forgets the records
    whose directory is gone, and a command that git refuses is the
    [RuntimeError] of [check_output].

    Every git command is spawned with the backing clone, or a worktree that
    keeps its administrative files there, as working directory. A command
    starts with the clone in place ([_get_repo()] opened it); the commands
    that change the repository, and the reads that [rm] and
    [delete_worktree] make after a directory was removed, fail once it is
    gone. *)
Module Engine.
Import Text Path.

(** Commit ids. *)
Definition oid : Type := nat.

(** One entry of [list_worktrees()]: the dict with keys [path], [head] and
    [branch] (the name after [refs/heads/]). *)
Record worktree : Type := {
  wt_path : string;
  wt_head : oid;
  wt_branch : string
}.

(** A directory on disk. [is_git]: it holds a [.git] entry. When it does,
    [abbrev_ref] is what [git rev-parse --abbrev-ref HEAD] prints there and
    [changes] are the paths [status()] reports. *)
Record directory : Type := {
  is_git : bool;
  abbrev_ref : string;
  changes : list string
}.

(** A commit as [git commit --allow-empty] records it: its id, the branch
    [HEAD] was on, the commit that branch pointed to before (none for an
    unborn branch or a detached [HEAD]), the messages, and whether the
    work tree had nothing to commit. *)
Record commit_info : Type := {
  c_id : oid;
  c_on : string;
  c_parent : option oid;
  c_messages : list string;
  c_empty : bool
}.

Record world : Type := {
  (** what [_get_basedir()] returns: absolute and normalised, so that
      [os.path.abspath] leaves it as it is *)
  basedir : string;
  (** the path [_get_repo()] opens: the backing clone, whose own work tree
      is the main worktree *)
  repo_dir : string;
  (** [os.path.relpath(os.getcwd(), basedir)] *)
  cwd_rel : string;
  (** the lines [input()] will read *)
  stdin : list string;
  dirs : list (string * directory);
  (** the roots of the trees [shutil.rmtree] removed: what was above such a
      tree is still on disk, also when nothing is left in it *)
  uprooted : list string;
  (** [git worktree list], the entries that are on a branch *)
  worktrees : list worktree;
  (** [git show-ref --heads]: every local ref, control branches too *)
  heads : list (string * oid);
  (** [git ls-remote], the entries under [refs/heads/] *)
  remote_heads : list (string * oid);
  history : list commit_info;
  stdout : list string;
  (** what [_cd] asked the shell wrapper to change to *)
  new_pwd : option string
}.

Definition set_dirs (d : list (string * directory)) (w : world) : world :=
  {| basedir := basedir w; repo_dir := repo_dir w; cwd_rel := cwd_rel w; stdin := stdin w; dirs := d;
     uprooted := uprooted w; worktrees := worktrees w; heads := heads w; remote_heads := remote_heads w;
     history := history w; stdout := stdout w; new_pwd := new_pwd w |}.

Definition set_uprooted (u : list string) (w : world) : world :=
  {| basedir := basedir w; repo_dir := repo_dir w; cwd_rel := cwd_rel w; stdin := stdin w; dirs := dirs w;
     uprooted := u; worktrees := worktrees w; heads := heads w; remote_heads := remote_heads w;
     history := history w; stdout := stdout w; new_pwd := new_pwd w |}.

Definition set_worktrees (t : list worktree) (w : world) : world :=
  {| basedir := basedir w; repo_dir := repo_dir w; cwd_rel := cwd_rel w; stdin := stdin w; dirs := dirs w;
     uprooted := uprooted w; worktrees := t; heads := heads w; remote_heads := remote_heads w;
     history := history w; stdout := stdout w; new_pwd := new_pwd w |}.

Definition set_heads (h : list (string * oid)) (w : world) : world :=
  {| basedir := basedir w; repo_dir := repo_dir w; cwd_rel := cwd_rel w; stdin := stdin w; dirs := dirs w;
     uprooted := uprooted w; worktrees := worktrees w; heads := h; remote_heads := remote_heads w;
     history := history w; stdout := stdout w; new_pwd := new_pwd w |}.

Definition set_history (h : list commit_info) (w : world) : world :=
  {| basedir := basedir w; repo_dir := repo_dir w; cwd_rel := cwd_rel w; stdin := stdin w; dirs := dirs w;
     uprooted := uprooted w; worktrees := worktrees w; heads := heads w; remote_heads := remote_heads w;
     history := h; stdout := stdout w; new_pwd := new_pwd w |}.

Definition set_io (i o : list string) (w : world) : world :=
  {| basedir := basedir w; repo_dir := repo_dir w; cwd_rel := cwd_rel w; stdin := i; dirs := dirs w;
     uprooted := uprooted w; worktrees := worktrees w; heads := heads w; remote_heads := remote_heads w;
     history := history w; stdout := o; new_pwd := new_pwd w |}.

Definition set_new_pwd (p : option string) (w : world) : world :=
  {| basedir := basedir w; repo_dir := repo_dir w; cwd_rel := cwd_rel w; stdin := stdin w; dirs := dirs w;
     uprooted := uprooted w; worktrees := worktrees w; heads := heads w; remote_heads := remote_heads w;
     history := history w; stdout := stdout w; new_pwd := p |}.

(** The next invocation runs from another directory. *)
Definition chdir (rel : string) (w : world) : world :=
  {| basedir := basedir w; repo_dir := repo_dir w; cwd_rel := rel; stdin := stdin w; dirs := dirs w;
     uprooted := uprooted w; worktrees := worktrees w; heads := heads w; remote_heads := remote_heads w;
     history := history w; stdout := stdout w; new_pwd := new_pwd w |}.

(** *** Commands as state passing *)
Definition M (A : Type) : Type := world -> outcome A * world.

Definition ret {A : Type} (a : A) : M A := fun w => (Ok a, w).

Definition bind {A B : Type} (m : M A) (f : A -> M B) : M B :=
  fun w =>
    match m w with
    | (Ok a, w1) => f a w1
    | (Die msg, w1) => (Die msg, w1)
    | (Raise exn, w1) => (Raise exn, w1)
    end.

(** [_die(msg)] *)
Definition _die {A : Type} (msg : string) : M A := fun w => (Die msg, w).

Definition raise {A : Type} (exn : string) : M A := fun w => (Raise exn, w).

Definition get : M world := fun w => (Ok w, w).

Definition modify (f : world -> world) : M unit := fun w => (Ok tt, f w).

Declare Scope cmd_scope.
Delimit Scope cmd_scope with cmd.
Notation "x <- m ;; k" := (bind m (fun x => k))
  (at level 61, m at next level, right associativity) : cmd_scope.
Notation "m ;; k" := (bind m (fun _ => k))
  (at level 61, right associativity) : cmd_scope.
Open Scope cmd_scope.

(** [print(line)] *)
Definition print (line : string) : M unit :=
  modify (fun w => set_io (stdin w) (stdout w ++ [line]) w).

(** The [RuntimeError] of [check_output] for a command git refused. *)
Definition refused {A : Type} (args : list string) : M A :=
  raise ("RuntimeError: " ++ String.concat " " args).

(** *** The file system

    Paths are compared as they are written: the state is that of a disk
    seen through absolute paths in normal form, which
    [os.path.join(basedir, name)] is for a [name] in normal form. *)

(** Something the state keeps track of is at [p] or below it. *)
Definition occupied (w : world) (p : string) : bool :=
  existsb (fun e => under p (fst e)) (dirs w).

(** [os.path.isdir(p)]: [p] is a directory the state keeps track of, lies
    above one, or lies above a tree that was removed. [git worktree add]
    makes the directories above a work tree, and [shutil.rmtree] leaves
    them where they are. *)
Definition isdir (w : world) (p : string) : bool :=
  occupied w p || existsb (below p) (uprooted w).

Definition lookup_dir (p : string) (w : world) : option directory :=
  option_map snd (find (fun e => String.eqb (fst e) p) (dirs w)).

(** [os.path.exists(q)]: a directory, or the [.git] entry of one. *)
Definition path_exists (w : world) (q : string) : bool :=
  isdir w q
  || existsb (fun e => is_git (snd e) && String.eqb q (join (fst e) ".git")) (dirs w).

(** The state after the tree at [p] was removed: [p] and what was below it
    are gone, what was above it stays. *)
Definition uproot (p : string) (w : world) : world :=
  set_uprooted (filter (fun q => negb (under p q)) (uprooted w) ++ [p])
    (set_dirs (filter (fun e => negb (under p (fst e))) (dirs w)) w).

(** [shutil.rmtree(p)]: [os.lstat(p)] raises where there is nothing. *)
Definition rmtree (p : string) : M unit :=
  w <- get ;;
  if isdir w p then modify (uproot p) else raise "FileNotFoundError".

(** [_is_git_repo(path)] *)
Definition _is_git_repo (w : world) (path : string) : bool :=
  path_exists w (join path ".git").

(** [_cd(new_pwd)] *)
Definition _cd (p : string) : M unit := modify (set_new_pwd (Some p)).

(** [subprocess.Popen(args, cwd=self.path)] cannot start in a directory
    that is gone. *)
Definition backing_clone : M unit :=
  w <- get ;;
  if isdir w (repo_dir w) then ret tt else raise "FileNotFoundError".

(** *** The adapter, by its effect on the repository *)

Definition list_worktrees (w : world) : list worktree := worktrees w.

Definition list_worktree_branches (w : world) : list string :=
  map wt_branch (list_worktrees w).

(** Every name under [refs/heads/]. *)
Definition all_heads (w : world) : list string := map fst (heads w).

Definition list_local_branches (w : world) : list string :=
  filter (fun branch => negb (startswith "__" branch)) (all_heads w).

Definition list_control_branches (w : world) : list string :=
  filter (fun branch => startswith "__" branch) (all_heads w).

Definition list_remote_branches (w : world) : list string :=
  map fst (remote_heads w).

Definition list_all_branches (w : world) : list string :=
  let local_branches := list_local_branches w in
  let remote_branches := list_remote_branches w in
  remote_branches ++ filter (fun branch => negb (mem branch remote_branches)) local_branches.

Definition lookup_ref (name : string) (refs : list (string * oid)) : option oid :=
  option_map snd (find (fun r => String.eqb (fst r) name) refs).

(** [git worktree prune] *)
Definition prune_worktree : M unit :=
  backing_clone ;;
  modify (fun w => set_worktrees (filter (fun t => isdir w (wt_path t)) (worktrees w)) w).

(** The loop of [delete_worktree] over the entries listed before it. *)
Fixpoint delete_worktree_dirs (branch : string) (listed : list worktree) : M unit :=
  match listed with
  | [] => ret tt
  | t :: rest =>
      (if String.eqb (wt_branch t) branch then
         w <- get ;;
         if isdir w (wt_path t) then rmtree (wt_path t) else ret tt
       else ret tt) ;;
      delete_worktree_dirs branch rest
  end.

Definition delete_worktree (branch : string) : M unit :=
  backing_clone ;;
  w <- get ;;
  delete_worktree_dirs branch (list_worktrees w) ;;
  prune_worktree.

(** What a start point names: a commit id or a local branch. *)
Inductive start_point : Type :=
| AtCommit (commit_id : oid)
| AtBranch (name : string).

Definition show_start_point (s : start_point) : string :=
  match s with
  | AtCommit c => NilZero.string_of_uint (Nat.to_uint c)
  | AtBranch n => n
  end.

Definition resolve (s : start_point) (w : world) : option oid :=
  match s with
  | AtCommit c => Some c
  | AtBranch n => lookup_ref n (heads w)
  end.

(** [git branch --quiet branch start_point]: refused for a name that is
    taken, for the name [HEAD], and for a start point that names nothing. *)
Definition create_branch (branch : string) (start : start_point) : M unit :=
  backing_clone ;;
  w <- get ;;
  match resolve start w with
  | Some c =>
      if mem branch (all_heads w) || String.eqb branch "HEAD"
      then refused ["git"; "branch"; "--quiet"; branch; show_start_point start]
      else modify (set_heads (heads w ++ [(branch, c)]))
  | None => refused ["git"; "branch"; "--quiet"; branch; show_start_point start]
  end.

(** [git branch --quiet -D branch] *)
Definition delete_branch (branch : string) : M unit :=
  backing_clone ;;
  w <- get ;;
  if mem branch (all_heads w) && negb (mem branch (list_worktree_branches w))
  then modify (set_heads (filter (fun r => negb (String.eqb (fst r) branch)) (heads w)))
  else refused ["git"; "branch"; "--quiet"; "-D"; branch].

(** The state after [branch], at commit [c], is checked out into the new
    directory [path]. *)
Definition register_worktree (path branch : string) (c : oid) (w : world) : world :=
  set_worktrees
    (worktrees w ++ [{| wt_path := path; wt_head := c; wt_branch := branch |}])
    (set_dirs
       (dirs w ++ [(path, {| is_git := true; abbrev_ref := branch; changes := [] |})])
       w).

(** [git worktree add path branch]: refused where [path] holds something
    (an empty directory will do), where [branch] is checked out already,
    and for a branch that does not exist. *)
Definition add_worktree (path branch : string) : M unit :=
  backing_clone ;;
  w <- get ;;
  match lookup_ref branch (heads w) with
  | Some c =>
      if occupied w path || mem branch (list_worktree_branches w)
      then refused ["git"; "worktree"; "add"; path; branch]
      else modify (register_worktree path branch c)
  | None => refused ["git"; "worktree"; "add"; path; branch]
  end.

(** [fetch(['refs/heads/src:refs/heads/dst'])] *)
Definition fetch (src dst : string) : M unit :=
  backing_clone ;;
  w <- get ;;
  let refspec := ("refs/heads/" ++ src ++ ":refs/heads/" ++ dst)%string in
  match lookup_ref src (remote_heads w) with
  | Some c =>
      if mem dst (all_heads w)
      then refused ["git"; "fetch"; "--quiet"; refspec]
      else modify (set_heads (heads w ++ [(dst, c)]))
  | None => refused ["git"; "fetch"; "--quiet"; refspec]
  end.

(** [_get_repo(branch)]: the repository object for a directory; opening
    fails where there is no repository. *)
Definition open_repo (path : string) : M directory :=
  w <- get ;;
  match lookup_dir path w with
  | Some d => if is_git d then ret d else raise "GitError"
  | None => raise "GitError"
  end.

(** [rev_parse('refs/heads/' + branch)] *)
Definition rev_parse_head (branch : string) : M oid :=
  w <- get ;;
  match lookup_ref branch (heads w) with
  | Some c => ret c
  | None => raise "RefNotFound"
  end.

(** [status()] of the repository at [path] *)
Definition status (path : string) : M (list string) :=
  d <- open_repo path ;; ret (changes d).

(** [add_all()]: stages what [status()] reports; the report stays. *)
Definition add_all (path : string) : M unit :=
  _ <- open_repo path ;; ret tt.

(** [get_current_branch()] of the repository at [path] *)
Definition get_current_branch (path : string) : M (option string) :=
  d <- open_repo path ;; ret (Subprocess.branch_of_abbrev_ref (abbrev_ref d)).

(** An id no ref, worktree or commit uses yet. *)
Definition fresh_oid (w : world) : oid :=
  S (list_max (map snd (heads w) ++ map snd (remote_heads w)
               ++ map c_id (history w) ++ map wt_head (worktrees w))).

Definition set_ref (name : string) (c : oid) (refs : list (string * oid))
  : list (string * oid) :=
  if mem name (map fst refs)
  then map (fun r => if String.eqb (fst r) name then (name, c) else r) refs
  else refs ++ [(name, c)].

(** The state after a commit [c] made in the directory [d] at [path]. *)
Definition record_commit (path : string) (msgs : list string) (d : directory)
  (c : oid) (w : world) : world :=
  let on := abbrev_ref d in
  set_history
    (history w ++ [{| c_id := c; c_on := on;
                      c_parent := if String.eqb on "HEAD" then None
                                  else lookup_ref on (heads w);
                      c_messages := msgs;
                      c_empty := match changes d with [] => true | _ => false end |}])
    (set_heads
       (if String.eqb on "HEAD" then heads w else set_ref on c (heads w))
       (set_worktrees
          (map (fun t => if String.eqb (wt_path t) path
                         then {| wt_path := wt_path t; wt_head := c; wt_branch := wt_branch t |}
                         else t) (worktrees w))
          (set_dirs
             (map (fun e => if String.eqb (fst e) path
                            then (fst e, {| is_git := is_git (snd e);
                                            abbrev_ref := abbrev_ref (snd e);
                                            changes := [] |})
                            else e) (dirs w))
             w))).

(** [commit(msg)] in the repository at [path]: [git commit --allow-empty]
    always makes a commit; the branch [HEAD] is on moves to it, the work
    tree is clean afterwards, and [rev_parse('HEAD')] is the new id. *)
Definition commit (path : string) (msgs : list string) : M oid :=
  d <- open_repo path ;;
  backing_clone ;;
  w <- get ;;
  let c := fresh_oid w in
  modify (record_commit path msgs d c) ;;
  ret c.

(** *** The namespace inspector *)

(** The test of the naming convention on one worktree entry. *)
Definition at_convention_path (basedir : string) (t : worktree) : bool :=
  String.eqb (join basedir (wt_branch t)) (wt_path t).

(** [_list_checked_out_branches()]: the loop that appends to [branches]. *)
Definition _list_checked_out_branches (w : world) : list string :=
  let worktrees := list_worktrees w in
  let basedir := basedir w in
  fold_left
    (fun branches t =>
       if at_convention_path basedir t then branches ++ [wt_branch t] else branches)
    worktrees [].

(** *** The consistency checker *)

Definition msg_not_in_worktree (branch : string) : string :=
  "Branch " ++ quoted branch ++ " not found in worktree".

Definition msg_already_in_worktree (branch : string) : string :=
  "Branch " ++ quoted branch ++ " already exists in worktree".

Definition msg_path_inconsistent (t : worktree) : string :=
  "Inconsistency between worktree branch and path, branch: "
  ++ quoted (wt_branch t) ++ ", path: " ++ quoted (wt_path t).

Definition msg_branch_not_found (branch : string) : string :=
  "Branch " ++ quoted branch ++ " not found in local branches".

Definition msg_branch_exists (branch : string) : string :=
  "Branch " ++ quoted branch ++ " already exists in local branches".

Definition msg_worktree_local_mismatch (branch : string) : string :=
  "Inconsistency between worktree and local branch, branch "
  ++ quoted branch ++ " not found in local branches".

Definition msg_worktree_directory_missing (branch : string) : string :=
  "Inconsistency between worktree and local directory, branch "
  ++ quoted branch ++ " not found in local directory".

(** ['{}'.format(current_branch)] *)
Definition show_branch (b : option string) : string :=
  match b with Some n => n | None => "None" end.

Definition msg_worktree_branch_mismatch (branch : string) (current : option string)
  : string :=
  "Inconsistency between worktree and branch in directory, branch "
  ++ quoted branch ++ " not the same with branch in directory "
  ++ quoted (show_branch current).

Definition msg_directory_exists (path : string) : string :=
  "Directory " ++ quoted path ++ " already exists".

(** [x is True], [x is False] on a tri-state argument ([None]: no
    expectation). *)
Definition is_True (x : option bool) : bool :=
  match x with Some true => true | _ => false end.
Definition is_False (x : option bool) : bool :=
  match x with Some false => true | _ => false end.

Definition option_string_eqb (a : option string) (b : string) : bool :=
  match a with Some n => String.eqb n b | None => false end.

(** The first loop of [_check_branch]: some entry for [branch] sits at the
    convention path. *)
Definition found_in_worktree (w : world) (branch : string) : bool :=
  existsb (fun t => String.eqb (wt_branch t) branch && at_convention_path (basedir w) t)
          (list_worktrees w).

(** The second loop of [_check_branch]: the first entry for [branch] that
    sits elsewhere. *)
Definition deviating_entry (w : world) (branch : string) : option worktree :=
  find (fun t => String.eqb (wt_branch t) branch
                 && negb (at_convention_path (basedir w) t))
       (list_worktrees w).

(** [_check_branch(branch, in_worktree, in_branch)] *)
Definition _check_branch (branch : string) (in_worktree in_branch : option bool)
  : M unit :=
  w <- get ;;
  let basedir := basedir w in
  let found_in_worktree := found_in_worktree w branch in
  (if is_True in_worktree && negb found_in_worktree
   then _die (msg_not_in_worktree branch) else ret tt) ;;
  (if is_False in_worktree && found_in_worktree
   then _die (msg_already_in_worktree branch) else ret tt) ;;
  match deviating_entry w branch with
  | Some t => _die (msg_path_inconsistent t)
  | None => ret tt
  end ;;
  let local_branches := list_local_branches w in
  (if is_True in_branch && negb (mem branch local_branches)
   then _die (msg_branch_not_found branch) else ret tt) ;;
  (if is_False in_branch && mem branch local_branches
   then _die (msg_branch_exists branch) else ret tt) ;;
  if found_in_worktree then
    (if negb (mem branch local_branches)
     then _die (msg_worktree_local_mismatch branch) else ret tt) ;;
    (if negb (_is_git_repo w (join basedir branch))
     then _die (msg_worktree_directory_missing branch) else ret tt) ;;
    current_branch <- get_current_branch (join basedir branch) ;;
    if negb (option_string_eqb current_branch branch)
    then _die (msg_worktree_branch_mismatch branch current_branch)
    else ret tt
  else if is_False in_worktree then
    if _is_git_repo w (join basedir branch)
    then _die (msg_directory_exists (join basedir branch))
    else ret tt
  else ret tt.

(** *** The commands *)

(** [_get_branch()]: no branch at the project root, else the current
    branch of the repository the caller stands in. *)
Definition _get_branch : M (option string) :=
  w <- get ;;
  let branch := cwd_rel w in
  if is_empty (strip "./" branch) then ret None
  else get_current_branch (join (basedir w) (cwd_rel w)).

(** [assert name[0].isalpha() or name[0].isdigit()] *)
Definition assert_name (name : string) : M unit :=
  match name with
  | EmptyString => raise "IndexError"
  | String c _ => if is_alnum c then ret tt else raise "AssertionError"
  end.

(** [if message:] *)
Definition truthy (message : option string) : bool :=
  match message with Some m => negb (is_empty m) | None => false end.

(** [_commit(branch, message)] *)
Definition _commit (branch : string) (message : option string) : M oid :=
  w <- get ;;
  let repo := join (basedir w) branch in
  _ <- open_repo repo ;;
  head_commit_id <- rev_parse_head branch ;;
  add_all repo ;;
  deltas <- status repo ;;
  if Nat.ltb 0 (List.length deltas) then
    let messages :=
      match message with
      | Some m => if truthy message then [m] else ["Update " ++ quoted branch]%string
      | None => ["Update " ++ quoted branch]%string
      end in
    commit repo messages
  else ret head_commit_id.

Definition _commit_after_checkout (src dst : string) : M unit :=
  w <- get ;;
  _ <- commit (join (basedir w) dst)
         ["Checkout " ++ quoted src ++ " to " ++ quoted dst]%string ;;
  ret tt.

Definition _commit_after_rename (src dst : string) : M unit :=
  w <- get ;;
  _ <- commit (join (basedir w) dst)
         ["Rename " ++ quoted src ++ " to " ++ quoted dst]%string ;;
  ret tt.

Definition msg_not_in_a_branch : string :=
  "Not in a branch, please specific branch name".

(** [_cp(src, dst)] *)
Definition _cp (src dst : string) : M unit :=
  w <- get ;;
  let basedir := basedir w in
  let checked_out_branches := _list_checked_out_branches w in
  (if mem src checked_out_branches then
     _check_branch src (Some true) (Some true) ;;
     _check_branch dst (Some false) (Some false) ;;
     commit_id <- _commit src None ;;
     create_branch dst (AtCommit commit_id)
   else if mem src (list_local_branches w) then
     _check_branch src (Some false) (Some true) ;;
     if negb (String.eqb src dst) then
       _check_branch dst (Some false) (Some false) ;;
       create_branch dst (AtBranch src)
     else ret tt
   else if mem src (list_remote_branches w) then
     _check_branch src (Some false) (Some false) ;;
     _check_branch dst (Some false) (Some false) ;;
     fetch src dst
   else _die ("Branch " ++ quoted src ++ " not found")) ;;
  add_worktree (join basedir dst) dst ;;
  if String.eqb src dst then
    print ("Successfully checked out " ++ quoted src)
  else
    _commit_after_checkout src dst ;;
    print ("Successfully checked out " ++ quoted src ++ " to " ++ quoted dst).

(** The [src == '.'] shorthand of [cp], [mv] and [rm]. *)
Definition resolve_dot (name : string) (branch : option string) : M string :=
  if String.eqb name "." then
    match branch with
    | None => _die msg_not_in_a_branch
    | Some b => ret b
    end
  else ret name.

(** [cp(args)] *)
Definition cp (src dst : string) : M unit :=
  src <- (if String.eqb src "." then
            branch <- _get_branch ;; resolve_dot src branch
          else ret src) ;;
  assert_name src ;;
  assert_name dst ;;
  w <- get ;;
  _cp src dst ;;
  _cd (join (basedir w) dst).

(** [co(args)] *)
Definition co (branch : string) : M unit :=
  w <- get ;;
  _cp branch branch ;;
  _cd (join (basedir w) branch).

(** [mv(args)] *)
Definition mv (src dst : string) : M unit :=
  branch <- _get_branch ;;
  src <- resolve_dot src branch ;;
  assert_name src ;;
  assert_name dst ;;
  w <- get ;;
  let basedir := basedir w in
  _check_branch src (Some true) (Some true) ;;
  _check_branch dst (Some false) (Some false) ;;
  commit_id <- _commit src None ;;
  create_branch dst (AtCommit commit_id) ;;
  add_worktree (join basedir dst) dst ;;
  delete_worktree src ;;
  delete_branch src ;;
  _commit_after_rename src dst ;;
  print ("Successfully renamed " ++ quoted src ++ " to " ++ quoted dst) ;;
  if option_string_eqb branch src then _cd (join basedir dst) else ret tt.

(** [s.lower()] on ASCII. *)
Definition lower_char (c : ascii) : ascii :=
  let n := nat_of_ascii c in
  if Nat.leb 65 n && Nat.leb n 90 then ascii_of_nat (n + 32) else c.

Fixpoint lower (s : string) : string :=
  match s with
  | EmptyString => EmptyString
  | String c rest => String (lower_char c) (lower rest)
  end.

(** The loop of [_confirm] over the lines still to be read: the prompt is
    written before each read, and reading past the end is [EOFError]. *)
Fixpoint confirm_loop (prompt : string) (default : bool)
  (input output : list string) : outcome bool * list string * list string :=
  match input with
  | [] => (Raise "EOFError", [], output ++ [prompt])
  | line :: rest =>
      let s := lower line in
      let output := output ++ [prompt] in
      if negb (is_empty s) && negb (mem s ["y"; "n"]) then
        confirm_loop prompt default rest (output ++ ["Invalid option"])
      else if is_empty s then (Ok default, rest, output)
      else if String.eqb s "y" then (Ok true, rest, output)
      else (Ok false, rest, output)
  end.

(** [_confirm(message, default)] *)
Definition _confirm (message : string) (default : bool) : M bool :=
  fun w =>
    let prompt := (message ++ (if default then "  [Y/n]" else "  [y/N]"))%string in
    let '(r, input, output) := confirm_loop prompt default (stdin w) (stdout w) in
    (r, set_io input output w).

(** Lines 880 to 898 of [rm]: the three removals and the report. *)
Definition remove_namespaces (branch : string) : M unit :=
  w <- get ;;
  let basedir := basedir w in
  let removed_any := false in
  removed_any <-
    (if isdir w (join basedir branch) then
       rmtree (join basedir branch) ;;
       print ("Removed expdir " ++ quoted branch) ;;
       ret true
     else ret removed_any) ;;
  backing_clone ;;
  w <- get ;;
  removed_any <-
    (if mem branch (list_worktree_branches w) then
       delete_worktree branch ;;
       print ("Removed worktree " ++ quoted branch) ;;
       ret true
     else ret removed_any) ;;
  backing_clone ;;
  w <- get ;;
  removed_any <-
    (if mem branch (list_local_branches w) then
       delete_branch branch ;;
       print ("Removed branch " ++ quoted branch) ;;
       ret true
     else ret removed_any) ;;
  if negb removed_any
  then print ("Branch " ++ quoted branch ++ " not removed")
  else ret tt.

(** [rm(args)] *)
Definition rm (branch : string) (yes : bool) : M unit :=
  w <- get ;;
  let basedir := basedir w in
  cur_branch <- _get_branch ;;
  branch <- resolve_dot branch cur_branch ;;
  confirm_remove <-
    (if negb yes
     then _confirm ("Are you sure you want to remove branch " ++ quoted branch ++ "?") false
     else ret true) ;;
  if negb confirm_remove then print "Aborted!"
  else
    assert_name branch ;;
    remove_namespaces branch ;;
    if option_string_eqb cur_branch branch then _cd basedir else ret tt.

(** [cm(args)] *)
Definition cm (message : option string) : M unit :=
  branch <- _get_branch ;;
  match branch with
  | None => _die "Not in a branch"
  | Some branch =>
      _ <- _commit branch message ;;
      print ("Successfully commited " ++ quoted branch ++ "!")
  end.

(** *** The four namespaces of a branch name *)

Record presence : Type := {
  in_directory : bool;
  in_worktree : bool;
  in_local : bool;
  in_remote : bool
}.

Definition presence_of (w : world) (name : string) : presence :=
  {| in_directory := isdir w (join (basedir w) name);
     in_worktree := mem name (list_worktree_branches w);
     in_local := mem name (list_local_branches w);
     in_remote := mem name (list_remote_branches w) |}.

Definition absent : presence :=
  {| in_directory := false; in_worktree := false; in_local := false; in_remote := false |}.

End Engine.

(** ** Concrete projects used as examples *)
Module Scenarios.
Import Engine.

Definition clean_dir (on : string) : directory :=
  {| is_git := true; abbrev_ref := on; changes := [] |}.

(** A project at [/p] made by [em clone]: the backing clone at
    [/p/.em/repo] has the control branch [__empty] checked out. *)
Definition project (ds : list (string * directory)) (ts : list worktree)
  (hs rs : list (string * oid)) : world :=
  {| basedir := "/p"; repo_dir := "/p/.em/repo"; cwd_rel := "."; stdin := [];
     dirs := ("/p/.em/repo", clean_dir "__empty") :: ds; uprooted := [];
     worktrees := {| wt_path := "/p/.em/repo"; wt_head := 0; wt_branch := "__empty" |}
                  :: ts;
     heads := ("__empty", 0) :: hs; remote_heads := rs;
     history := []; stdout := []; new_pwd := None |}.

(** Branch [a] checked out with a clean work tree, [r] known to the remote. *)
Definition clean_project : world :=
  project [("/p/a", clean_dir "a")]
          [{| wt_path := "/p/a"; wt_head := 1; wt_branch := "a" |}]
          [("a", 1)] [("r", 5)].

(** The same with an uncommitted change to [x.txt] in [a]. *)
Definition dirty_project : world :=
  project [("/p/a", {| is_git := true; abbrev_ref := "a"; changes := ["x.txt"] |})]
          [{| wt_path := "/p/a"; wt_head := 1; wt_branch := "a" |}]
          [("a", 1)] [("r", 5)].

(** Branch [b] checked out by hand outside the project. *)
Definition elsewhere_project : world :=
  project [("/elsewhere/b", clean_dir "b")]
          [{| wt_path := "/elsewhere/b"; wt_head := 1; wt_branch := "b" |}]
          [("b", 1)] [].

(** The worktree of [d] has been switched to branch [e] by hand. *)
Definition crossed_project : world :=
  project [("/p/d", clean_dir "e")]
          [{| wt_path := "/p/d"; wt_head := 1; wt_branch := "d" |}]
          [("d", 1); ("e", 2)] [].

(** A plain directory [/p/b] that is not a repository. *)
Definition stray_dir_project : world :=
  project [("/p/b", {| is_git := false; abbrev_ref := EmptyString; changes := [] |})]
          [] [("a", 1)] [].

(** A leftover clone at [/p/b] that no worktree entry refers to. *)
Definition stray_repo_project : world :=
  project [("/p/b", clean_dir "master")] [] [("a", 1)] [].

(** The caller stands in the worktree of [d], whose [HEAD] is detached. *)
Definition detached_project : world :=
  chdir "d"
    (project [("/p/d", clean_dir "HEAD")] [] [("a", 1)] []).


End Scenarios.

Module MarkerFacts.
Import Text Path Marker.

Section Search.
Variable path_exists : string -> bool.

Lemma ancestor_succ k p : ancestor (S k) p = ancestor k (dirname p).
Proof. unfold ancestor. apply Nat.iter_succ_r. Qed.

Lemma ancestor_root k p : is_root p -> ancestor k p = p.
Proof.
  unfold is_root. intros R. induction k as [|k IH]; [reflexivity|].
  rewrite ancestor_succ, <- R. exact IH.
Qed.

(** C9: from every starting path the search ends, after at most as many
    steps up as the absolute path has characters. It returns the nearest
    directory at or above the start that holds a [.em] entry; when there is
    none it dies with the project-not-found diagnostic, at the first
    directory that is its own parent. *)
Theorem get_basedir_terminates_at_marker_or_root
  (abspath : string -> string) (path : string) :
  let start := abspath path in
  (exists k,
      k <= String.length start
      /\ _get_basedir path_exists abspath path = Ok (ancestor k start)
      /\ has_marker path_exists (ancestor k start) = true
      /\ forall j, j < k -> has_marker path_exists (ancestor j start) = false)
  \/ (_get_basedir path_exists abspath path = Die project_not_found
      /\ (forall k, has_marker path_exists (ancestor k start) = false)
      /\ exists k, k <= String.length start
                   /\ is_root (ancestor k start)
                   /\ forall j, j < k -> ~ is_root (ancestor j start)).
Proof.
  unfold _get_basedir. cbv zeta. generalize (abspath path).
  clear abspath path. intros p.
  funelim (ascend path_exists p).
  - (* the marker is here *)
    left. exists 0. repeat split; [lia | assumption | intros j Hj; lia].
  - (* no marker, and the directory is its own parent *)
    right. split; [reflexivity|]. split.
    + intros k. rewrite ancestor_root by assumption. exact Heq0.
    + exists 0. repeat split; [lia | assumption | intros j Hj; lia].
  - (* one step up: the parent is strictly shorter *)
    assert (L : String.length (dirname path) < String.length path)
      by (apply dirname_shorter; congruence).
    destruct H as [[k [B [R [M N]]]] | [R [M [k [B [K1 K2]]]]]].
    + left. exists (S k). rewrite ancestor_succ. repeat split; try assumption; [lia|].
      intros [|j] Hj; [exact Heq0|]. rewrite ancestor_succ. apply N. lia.
    + right. split; [exact R|]. split.
      * intros [|j]; [exact Heq0|]. rewrite ancestor_succ. apply M.
      * exists (S k). rewrite ancestor_succ. repeat split; [lia | assumption |].
        intros [|j] Hj; [exact n|]. rewrite ancestor_succ. apply K2. lia.
Qed.

End Search.

(** A project at [/home/u/exp], searched for from two levels below. *)
Example found_two_levels_up :
  _get_basedir (String.eqb "/home/u/exp/.em") (fun p => p) "/home/u/exp/a/src"
  = Ok "/home/u/exp".
Proof. reflexivity. Qed.

(** No marker anywhere: the search stops at the root. *)
Example not_found_at_root :
  _get_basedir (fun _ => false) (fun p => p) "/home/u/exp/a"
  = Die project_not_found.
Proof. reflexivity. Qed.

End MarkerFacts.

(** ** Facts about the consistency engine *)
Module EngineFacts.
Import Text Path Engine.

(** Unfolds one layer of a command down to the state passing. *)
Ltac step :=
  unfold bind, get, ret, _die, raise, modify; cbn [fst snd].

(** *** The inspector *)

Lemma checked_out_loop basedir (ts : list worktree) :
  forall acc,
    fold_left
      (fun branches t =>
         if at_convention_path basedir t then branches ++ [wt_branch t] else branches)
      ts acc
    = acc ++ map wt_branch (filter (at_convention_path basedir) ts).
Proof.
  induction ts as [|t ts IH]; intros acc; simpl.
  - now rewrite app_nil_r.
  - rewrite IH. destruct (at_convention_path basedir t); simpl; [|reflexivity].
    now rewrite <- app_assoc.
Qed.

Lemma checked_out_filter (w : world) :
  _list_checked_out_branches w
  = map wt_branch (filter (at_convention_path (basedir w)) (worktrees w)).
Proof. unfold _list_checked_out_branches. now rewrite checked_out_loop. Qed.

Lemma at_convention_path_eq basedir t :
  at_convention_path basedir t = true <-> wt_path t = join basedir (wt_branch t).
Proof.
  unfold at_convention_path. rewrite String.eqb_eq. split; congruence.
Qed.

Lemma found_in_worktree_spec w branch :
  found_in_worktree w branch = true
  <-> exists t, In t (worktrees w) /\ wt_branch t = branch
                /\ wt_path t = join (basedir w) branch.
Proof.
  unfold found_in_worktree, list_worktrees. rewrite existsb_exists. split.
  - intros [t [I H]]. apply andb_prop in H as [B P].
    apply String.eqb_eq in B. apply at_convention_path_eq in P.
    exists t. subst. auto.
  - intros [t [I [B P]]]. exists t. split; [assumption|].
    apply andb_true_intro. split; [now apply String.eqb_eq|].
    apply at_convention_path_eq. now rewrite B.
Qed.

Lemma deviating_entry_some w branch t :
  deviating_entry w branch = Some t ->
  In t (worktrees w) /\ wt_branch t = branch
  /\ wt_path t <> join (basedir w) branch.
Proof.
  unfold deviating_entry, list_worktrees. intros F.
  apply find_some in F as [I H]. apply andb_prop in H as [B P].
  apply String.eqb_eq in B. split; [assumption|]. split; [assumption|].
  rewrite negb_true_iff in P. intros E.
  assert (at_convention_path (basedir w) t = true)
    by (apply at_convention_path_eq; now rewrite B).
  congruence.
Qed.

Lemma deviating_entry_none w branch :
  deviating_entry w branch = None
  <-> forall t, In t (worktrees w) -> wt_branch t = branch ->
                wt_path t = join (basedir w) branch.
Proof.
  unfold deviating_entry, list_worktrees. split.
  - intros F t I B. pose proof (find_none _ _ F t I) as H. simpl in H.
    apply andb_false_iff in H as [H|H].
    + apply String.eqb_neq in H. contradiction.
    + rewrite negb_false_iff in H. apply at_convention_path_eq in H. now rewrite <- B.
  - intros H. destruct (find _ _) as [t|] eqn:F; [|reflexivity].
    apply (deviating_entry_some w branch t) in F as [I [B N]].
    exfalso. apply N. now apply H.
Qed.

Lemma no_entry_not_found w branch :
  mem branch (list_worktree_branches w) = false ->
  found_in_worktree w branch = false /\ deviating_entry w branch = None.
Proof.
  intros N. apply mem_false_In in N. unfold list_worktree_branches, list_worktrees in N.
  split.
  - destruct (found_in_worktree w branch) eqn:F; [|reflexivity].
    apply found_in_worktree_spec in F as [t [I [B _]]].
    exfalso. apply N. rewrite <- B. now apply in_map.
  - apply deviating_entry_none. intros t I B. exfalso. apply N.
    rewrite <- B. now apply in_map.
Qed.

(** The checker as one cascade of tests on the state it reads. *)
Lemma check_branch_cascade branch iw ib w :
  _check_branch branch iw ib w =
  (let found := found_in_worktree w branch in
   let local := mem branch (list_local_branches w) in
   let conv := join (basedir w) branch in
   if is_True iw && negb found then Die (msg_not_in_worktree branch)
   else if is_False iw && found then Die (msg_already_in_worktree branch)
   else match deviating_entry w branch with
   | Some t => Die (msg_path_inconsistent t)
   | None =>
     if is_True ib && negb local then Die (msg_branch_not_found branch)
     else if is_False ib && local then Die (msg_branch_exists branch)
     else if found then
       if negb local then Die (msg_worktree_local_mismatch branch)
       else if negb (_is_git_repo w conv) then Die (msg_worktree_directory_missing branch)
       else match fst (get_current_branch conv w) with
            | Ok current =>
                if negb (option_string_eqb current branch)
                then Die (msg_worktree_branch_mismatch branch current)
                else Ok tt
            | Die msg => Die msg
            | Raise exn => Raise exn
            end
     else if is_False iw && _is_git_repo w conv then Die (msg_directory_exists conv)
     else Ok tt
   end, w).
Proof.
  unfold _check_branch, get_current_branch, open_repo. step.
  destruct (is_True iw && negb (found_in_worktree w branch)); [reflexivity|].
  destruct (is_False iw && found_in_worktree w branch); [reflexivity|].
  destruct (deviating_entry w branch); [reflexivity|].
  destruct (is_True ib && negb (mem branch (list_local_branches w))); [reflexivity|].
  destruct (is_False ib && mem branch (list_local_branches w)); [reflexivity|].
  destruct (found_in_worktree w branch).
  - destruct (negb (mem branch (list_local_branches w))); [reflexivity|].
    destruct (negb (_is_git_repo w (join (basedir w) branch))); [reflexivity|].
    destruct (lookup_dir (join (basedir w) branch) w) as [d|]; [|reflexivity].
    destruct (is_git d); [|reflexivity]. cbn [fst snd].
    destruct (negb (option_string_eqb _ branch)); reflexivity.
  - destruct (is_False iw); [|reflexivity]. cbn [andb].
    destruct (_is_git_repo w (join (basedir w) branch)); reflexivity.
Qed.

(** The checker reads the state and leaves it as it is. *)
Lemma check_branch_readonly branch iw ib w :
  snd (_check_branch branch iw ib w) = w.
Proof. now rewrite check_branch_cascade. Qed.

(** *** Claims on the inspector and the checker *)

(** C7: [_list_checked_out_branches()] returns the branch names of exactly
    those worktree entries whose path is [join basedir branch], in the
    order of the listing; a name all of whose entries sit elsewhere is not
    in the result. *)
Theorem checked_out_branches_exact (w : world) :
  _list_checked_out_branches w
  = map wt_branch
      (filter (fun t => String.eqb (join (basedir w) (wt_branch t)) (wt_path t))
              (list_worktrees w))
  /\ (forall b, In b (_list_checked_out_branches w)
                <-> exists t, In t (list_worktrees w) /\ wt_branch t = b
                              /\ wt_path t = join (basedir w) b)
  /\ (forall b, (forall t, In t (list_worktrees w) -> wt_branch t = b ->
                           wt_path t <> join (basedir w) b) ->
                ~ In b (_list_checked_out_branches w)).
Proof.
  assert (M : forall b, In b (_list_checked_out_branches w)
                <-> exists t, In t (list_worktrees w) /\ wt_branch t = b
                              /\ wt_path t = join (basedir w) b).
  { intros b. rewrite checked_out_filter, in_map_iff. unfold list_worktrees. split.
    - intros [t [B I]]. apply filter_In in I as [I P].
      apply at_convention_path_eq in P. exists t. subst. auto.
    - intros [t [I [B P]]]. exists t. split; [assumption|].
      apply filter_In. split; [assumption|].
      apply at_convention_path_eq. now rewrite B. }
  split; [apply checked_out_filter|]. split; [exact M|].
  intros b N I. apply M in I as [t [I [B P]]]. now apply (N t).
Qed.

(** The checked-out branches are not just the branches of all worktrees. *)
Example checked_out_is_not_all_worktrees :
  _list_checked_out_branches Scenarios.elsewhere_project = []
  /\ list_worktree_branches Scenarios.elsewhere_project = ["__empty"; "b"].
Proof. split; reflexivity. Qed.




(** C3 as stated fails: with the entry of [d] at the convention path, the
    directory a repository and its current branch [e], a check that expects
    [d] not to be a local branch dies on that expectation, not with the
    mismatch of worktree and directory. *)
Lemma crossed_worktree_other_diagnostic :
  (exists t, In t (worktrees Scenarios.crossed_project) /\ wt_branch t = "d"
             /\ wt_path t = join (basedir Scenarios.crossed_project) "d")
  /\ _is_git_repo Scenarios.crossed_project
       (join (basedir Scenarios.crossed_project) "d") = true
  /\ fst (get_current_branch (join (basedir Scenarios.crossed_project) "d")
            Scenarios.crossed_project) = Ok (Some "e")
  /\ fst (_check_branch "d" (Some true) (Some false) Scenarios.crossed_project)
     = Die (msg_branch_exists "d")
  /\ fst (_check_branch "d" (Some true) (Some false) Scenarios.crossed_project)
     <> Die (msg_worktree_branch_mismatch "d" (Some "e")).
Proof.
  split; [eexists; split; [right; left; reflexivity | split; reflexivity]|].
  repeat split; try reflexivity. cbn. discriminate.
Qed.

(** C3, amended: with an entry for [d] at the convention path, the
    directory there a repository and its current branch not [d], the check
    with [in_worktree=True] never passes. It dies with the mismatch of
    worktree and directory when no other entry of [d] sits elsewhere, [d]
    is a local branch and the caller does not expect it not to be. *)
Theorem check_branch_crossed_worktree (w : world) (d : string) (ib : option bool)
  (t : worktree) (current : option string) :
  In t (worktrees w) -> wt_branch t = d -> wt_path t = join (basedir w) d ->
  _is_git_repo w (join (basedir w) d) = true ->
  fst (get_current_branch (join (basedir w) d) w) = Ok current ->
  current <> Some d ->
  (exists msg, _check_branch d (Some true) ib w = (Die msg, w))
  /\ (deviating_entry w d = None ->
      mem d (list_local_branches w) = true ->
      is_False ib = false ->
      _check_branch d (Some true) ib w
      = (Die (msg_worktree_branch_mismatch d current), w)).
Proof.
  intros I B P G C N.
  assert (F : found_in_worktree w d = true)
    by (apply found_in_worktree_spec; eauto).
  assert (X : negb (option_string_eqb current d) = true).
  { destruct current as [c|]; [|reflexivity]. simpl.
    destruct (String.eqb_spec c d); [subst; congruence | reflexivity]. }
  rewrite check_branch_cascade. cbv zeta. rewrite F, G, C, X.
  cbn [is_True is_False andb negb].
  split.
  - destruct (deviating_entry w d); [eauto|].
    destruct (is_True ib && negb (mem d (list_local_branches w))); [eauto|].
    destruct (is_False ib && mem d (list_local_branches w)); [eauto|].
    destruct (negb (mem d (list_local_branches w))); cbn [negb];
      eexists; reflexivity.
  - intros D L Fa. rewrite D, L, Fa. cbn [negb andb].
    now rewrite andb_false_r.
Qed.

Lemma check_branch_crossed_worktree_witness :
  _check_branch "d" (Some true) (Some true) Scenarios.crossed_project
  = (Die (msg_worktree_branch_mismatch "d" (Some "e")), Scenarios.crossed_project).
Proof.
  apply (check_branch_crossed_worktree Scenarios.crossed_project "d" (Some true)
           {| wt_path := "/p/d"; wt_head := 1; wt_branch := "d" |} (Some "e"));
    try reflexivity; try discriminate.
  right. left. reflexivity.
Defined.

(** C4 as stated fails: a directory at the convention path that holds no
    [.git] entry does not stop the check. *)
Lemma stray_directory_passes :
  mem "b" (list_worktree_branches Scenarios.stray_dir_project) = false
  /\ isdir Scenarios.stray_dir_project
       (join (basedir Scenarios.stray_dir_project) "b") = true
  /\ fst (_check_branch "b" (Some false) None Scenarios.stray_dir_project) = Ok tt.
Proof. repeat split; reflexivity. Qed.

(** C4, amended: with no worktree entry for [branch] and with the
    expectation on the local branches met, the check with
    [in_worktree=False] dies with the directory-exists diagnostic when the
    directory at the convention path holds a [.git] entry. *)
Theorem check_branch_stray_repository (w : world) (branch : string)
  (ib : option bool) :
  mem branch (list_worktree_branches w) = false ->
  _is_git_repo w (join (basedir w) branch) = true ->
  (is_True ib = true -> mem branch (list_local_branches w) = true) ->
  (is_False ib = true -> mem branch (list_local_branches w) = false) ->
  _check_branch branch (Some false) ib w
  = (Die (msg_directory_exists (join (basedir w) branch)), w).
Proof.
  intros N G T F. apply no_entry_not_found in N as [NF ND].
  rewrite check_branch_cascade. cbv zeta. rewrite NF, ND, G. cbn [is_True is_False andb negb].
  destruct ib as [[|]|]; cbn [is_True is_False andb negb] in *.
  - now rewrite (T eq_refl).
  - now rewrite (F eq_refl).
  - reflexivity.
Qed.

Lemma check_branch_stray_repository_witness :
  _check_branch "b" (Some false) (Some false) Scenarios.stray_repo_project
  = (Die (msg_directory_exists "/p/b"), Scenarios.stray_repo_project).
Proof.
  apply (check_branch_stray_repository Scenarios.stray_repo_project "b" (Some false));
    try reflexivity; discriminate.
Defined.

(** *** Stepping through commands *)

Lemma bind_ok {A B : Type} (m : M A) (f : A -> M B) w b w2 :
  bind m f w = (Ok b, w2) ->
  exists a w1, m w = (Ok a, w1) /\ f a w1 = (Ok b, w2).
Proof.
  unfold bind. destruct (m w) as [[a|msg|exn] w1]; intros H;
    [eauto | discriminate | discriminate].
Qed.

Lemma bind_step {A B : Type} (m : M A) (f : A -> M B) w a w1 :
  m w = (Ok a, w1) -> bind m f w = f a w1.
Proof. unfold bind. now intros ->. Qed.

Lemma open_repo_ok path w d w1 :
  open_repo path w = (Ok d, w1) ->
  w1 = w /\ lookup_dir path w = Some d /\ is_git d = true.
Proof.
  unfold open_repo. step.
  destruct (lookup_dir path w) as [d'|]; [|discriminate].
  destruct (is_git d') eqn:G; [|discriminate].
  intros H. inversion H. subst. auto.
Qed.

Lemma open_repo_step path w d :
  lookup_dir path w = Some d -> is_git d = true -> open_repo path w = (Ok d, w).
Proof. unfold open_repo. step. now intros -> ->. Qed.

Lemma backing_clone_ok w w1 :
  backing_clone w = (Ok tt, w1) -> w1 = w /\ isdir w (repo_dir w) = true.
Proof.
  unfold backing_clone. step. destruct (isdir w (repo_dir w)); [|discriminate].
  intros H. injection H as <-. auto.
Qed.

Lemma backing_clone_step w :
  isdir w (repo_dir w) = true -> backing_clone w = (Ok tt, w).
Proof. unfold backing_clone. step. now intros ->. Qed.

Lemma backing_clone_gone {A : Type} (k : unit -> M A) w :
  isdir w (repo_dir w) = false ->
  bind backing_clone k w = (Raise "FileNotFoundError", w).
Proof. unfold backing_clone. step. now intros ->. Qed.

(** A guarded command that succeeded ran with the backing clone in place. *)
Lemma guarded_ok {A : Type} (k : unit -> M A) w r w1 :
  bind backing_clone k w = (Ok r, w1) ->
  isdir w (repo_dir w) = true /\ k tt w = (Ok r, w1).
Proof.
  intros H. apply bind_ok in H as [[] [w' [B H]]].
  apply backing_clone_ok in B as [-> B]. auto.
Qed.

Lemma create_branch_ok branch start w w1 :
  create_branch branch start w = (Ok tt, w1) ->
  exists c, resolve start w = Some c /\ mem branch (all_heads w) = false
            /\ String.eqb branch "HEAD" = false
            /\ w1 = set_heads (heads w ++ [(branch, c)]) w.
Proof.
  unfold create_branch, refused. intros H. apply guarded_ok in H as [_ H].
  revert H. step.
  destruct (resolve start w) as [c|]; [|discriminate].
  destruct (mem branch (all_heads w)); [discriminate|].
  destruct (String.eqb branch "HEAD"); [discriminate|].
  intros H. inversion H. exists c. auto.
Qed.

Lemma create_branch_alive branch start w w1 :
  create_branch branch start w = (Ok tt, w1) -> isdir w (repo_dir w) = true.
Proof. unfold create_branch. intros H. now apply guarded_ok in H. Qed.

Lemma add_worktree_ok path branch w w1 :
  add_worktree path branch w = (Ok tt, w1) ->
  exists c, lookup_ref branch (heads w) = Some c /\ occupied w path = false
            /\ mem branch (list_worktree_branches w) = false
            /\ w1 = register_worktree path branch c w.
Proof.
  unfold add_worktree, refused. intros H. apply guarded_ok in H as [_ H].
  revert H. step.
  destruct (lookup_ref branch (heads w)) as [c|]; [|discriminate].
  destruct (occupied w path) eqn:D; [discriminate|].
  destruct (mem branch (list_worktree_branches w)) eqn:W; [discriminate|].
  cbn [orb]. intros H. inversion H. eauto.
Qed.

Lemma add_worktree_alive path branch w w1 :
  add_worktree path branch w = (Ok tt, w1) -> isdir w (repo_dir w) = true.
Proof. unfold add_worktree. intros H. now apply guarded_ok in H. Qed.

Lemma fetch_ok src dst w w1 :
  fetch src dst w = (Ok tt, w1) ->
  exists c, lookup_ref src (remote_heads w) = Some c /\ mem dst (all_heads w) = false
            /\ w1 = set_heads (heads w ++ [(dst, c)]) w.
Proof.
  unfold fetch, refused. intros H. apply guarded_ok in H as [_ H].
  revert H. step.
  destruct (lookup_ref src (remote_heads w)) as [c|]; [|discriminate].
  destruct (mem dst (all_heads w)); [discriminate|].
  intros H. inversion H. eauto.
Qed.

Lemma commit_ok path msgs w c w1 :
  commit path msgs w = (Ok c, w1) ->
  exists d, lookup_dir path w = Some d /\ is_git d = true
            /\ isdir w (repo_dir w) = true
            /\ c = fresh_oid w /\ w1 = record_commit path msgs d c w.
Proof.
  unfold commit. intros H.
  apply bind_ok in H as [d [w' [O H]]]. apply open_repo_ok in O as [-> [L G]].
  apply guarded_ok in H as [B H].
  revert H. step. intros H. inversion H. exists d. auto.
Qed.

Lemma commit_step path msgs w d :
  lookup_dir path w = Some d -> is_git d = true ->
  isdir w (repo_dir w) = true ->
  commit path msgs w
  = (Ok (fresh_oid w), record_commit path msgs d (fresh_oid w) w).
Proof.
  intros L G B. unfold commit. rewrite (bind_step _ _ _ _ _ (open_repo_step _ _ _ L G)).
  rewrite (bind_step _ _ _ _ _ (backing_clone_step _ B)). reflexivity.
Qed.

(** [_commit]: nothing to commit, nothing committed. *)
Lemma _commit_clean branch message w d h :
  lookup_dir (join (basedir w) branch) w = Some d -> is_git d = true ->
  lookup_ref branch (heads w) = Some h -> changes d = [] ->
  _commit branch message w = (Ok h, w).
Proof.
  intros L G R C. unfold _commit, rev_parse_head, add_all, status, open_repo.
  step. rewrite L, G, R. cbn. rewrite L, G. cbn. rewrite L, G. cbn.
  now rewrite C.
Qed.

(** [_commit]: pending changes are committed in the directory of the
    branch. *)
Lemma _commit_dirty branch w d h :
  lookup_dir (join (basedir w) branch) w = Some d -> is_git d = true ->
  lookup_ref branch (heads w) = Some h -> changes d <> [] ->
  _commit branch None w
  = commit (join (basedir w) branch) ["Update " ++ quoted branch]%string w.
Proof.
  intros L G R C. unfold _commit, rev_parse_head, add_all, status.
  step. rewrite (open_repo_step _ _ _ L G), R. cbn [fst snd].
  rewrite (open_repo_step _ _ _ L G). cbn [fst snd].
  rewrite (open_repo_step _ _ _ L G). cbn [fst snd].
  destruct (changes d) as [|x xs] eqn:E; [congruence|]. reflexivity.
Qed.

Lemma option_string_eqb_eq a b : option_string_eqb a b = true <-> a = Some b.
Proof.
  destruct a as [n|]; simpl; [|split; discriminate].
  rewrite String.eqb_eq. split; congruence.
Qed.

(** What a passed check guarantees. *)
Lemma check_branch_ok branch iw ib w w1 :
  _check_branch branch iw ib w = (Ok tt, w1) ->
  w1 = w
  /\ deviating_entry w branch = None
  /\ (is_True iw = true -> found_in_worktree w branch = true)
  /\ (is_False iw = true ->
      found_in_worktree w branch = false
      /\ _is_git_repo w (join (basedir w) branch) = false)
  /\ (is_True ib = true -> mem branch (list_local_branches w) = true)
  /\ (is_False ib = true -> mem branch (list_local_branches w) = false)
  /\ (found_in_worktree w branch = true ->
      mem branch (list_local_branches w) = true
      /\ fst (get_current_branch (join (basedir w) branch) w) = Ok (Some branch)).
Proof.
  rewrite check_branch_cascade. cbv zeta. intros H.
  destruct (is_True iw && negb (found_in_worktree w branch)) eqn:E1; [discriminate|].
  destruct (is_False iw && found_in_worktree w branch) eqn:E2; [discriminate|].
  destruct (deviating_entry w branch) eqn:E3; [discriminate|].
  destruct (is_True ib && negb (mem branch (list_local_branches w))) eqn:E4; [discriminate|].
  destruct (is_False ib && mem branch (list_local_branches w)) eqn:E5; [discriminate|].
  destruct (found_in_worktree w branch) eqn:F.
  - destruct (mem branch (list_local_branches w)) eqn:L; [|discriminate].
    destruct (_is_git_repo w (join (basedir w) branch)) eqn:G; [|discriminate].
    cbn [negb] in H.
    destruct (fst (get_current_branch (join (basedir w) branch) w)) as [cur| |] eqn:C;
      try discriminate.
    destruct (option_string_eqb cur branch) eqn:O; [|discriminate].
    apply option_string_eqb_eq in O. subst cur. cbn [negb] in H.
    injection H as <-.
    destruct iw as [[|]|], ib as [[|]|]; cbn in *; try discriminate; repeat split; auto;
      discriminate.
  - destruct (is_False iw && _is_git_repo w (join (basedir w) branch)) eqn:E6;
      [discriminate|].
    injection H as <-.
    destruct iw as [[|]|], ib as [[|]|]; cbn in *; try discriminate; repeat split; auto;
      try discriminate;
      destruct (mem branch (list_local_branches w)); cbn in *; congruence.
Qed.

Lemma not_found_no_entry w branch :
  found_in_worktree w branch = false -> deviating_entry w branch = None ->
  mem branch (list_worktree_branches w) = false.
Proof.
  intros F D. apply mem_false_In. intros I.
  unfold list_worktree_branches, list_worktrees in I.
  apply in_map_iff in I as [t [B I]].
  assert (found_in_worktree w branch = true); [|congruence].
  apply found_in_worktree_spec. exists t. split; [assumption|]. split; [assumption|].
  now apply (proj1 (deviating_entry_none w branch) D).
Qed.

Lemma get_current_branch_some path w branch :
  fst (get_current_branch path w) = Ok (Some branch) ->
  exists d, lookup_dir path w = Some d /\ is_git d = true
            /\ abbrev_ref d = branch /\ String.eqb branch "HEAD" = false.
Proof.
  unfold get_current_branch, open_repo. step.
  destruct (lookup_dir path w) as [d|]; [|discriminate].
  destruct (is_git d) eqn:G; [|discriminate]. cbn [fst].
  unfold Subprocess.branch_of_abbrev_ref.
  destruct (String.eqb (abbrev_ref d) "HEAD") eqn:E; [discriminate|].
  intros H. inversion H. subst. exists d. auto.
Qed.

(** A branch that passed the check as checked out: its directory, and
    where its ref stands. *)
Lemma checked_out_ok w branch ib w1 :
  _check_branch branch (Some true) ib w = (Ok tt, w1) ->
  w1 = w
  /\ exists d h, lookup_dir (join (basedir w) branch) w = Some d
                 /\ is_git d = true /\ abbrev_ref d = branch
                 /\ String.eqb branch "HEAD" = false
                 /\ lookup_ref branch (heads w) = Some h
                 /\ mem branch (list_local_branches w) = true.
Proof.
  intros H. apply check_branch_ok in H as [E [_ [F [_ [_ [_ X]]]]]].
  split; [exact E|].
  destruct (X (F eq_refl)) as [L C].
  apply get_current_branch_some in C as [d [LD [G [A N]]]].
  assert (exists h, lookup_ref branch (heads w) = Some h) as [h R].
  { apply mem_In in L. unfold list_local_branches in L. apply filter_In in L as [I _].
    unfold all_heads in I. apply in_map_iff in I as [[n c] [En I]]. simpl in En. subst n.
    unfold lookup_ref.
    destruct (find (fun r => String.eqb (fst r) branch) (heads w)) as [r|] eqn:Fd.
    - eexists. reflexivity.
    - exfalso. pose proof (find_none _ _ Fd _ I) as Q. simpl in Q.
      now rewrite String.eqb_refl in Q. }
  exists d, h. auto 10.
Qed.

(** *** Refs and directories under the state transformers *)

Lemma lookup_ref_app_old name hs more h :
  lookup_ref name hs = Some h -> lookup_ref name (hs ++ more) = Some h.
Proof.
  unfold lookup_ref. induction hs as [|r hs IH]; simpl; [discriminate|].
  destruct (String.eqb (fst r) name); [auto | exact IH].
Qed.

Lemma lookup_ref_app_new name hs c :
  mem name (map fst hs) = false -> lookup_ref name (hs ++ [(name, c)]) = Some c.
Proof.
  unfold lookup_ref, mem. induction hs as [|r hs IH]; simpl.
  - now rewrite String.eqb_refl.
  - intros H. apply orb_false_iff in H as [E H].
    rewrite String.eqb_sym, E. now apply IH.
Qed.

Lemma lookup_ref_mem name hs h :
  lookup_ref name hs = Some h -> mem name (map fst hs) = true.
Proof.
  unfold lookup_ref. intros H. apply mem_In.
  destruct (find _ hs) as [r|] eqn:F; [|discriminate].
  apply find_some in F as [I E]. apply String.eqb_eq in E. subst name.
  now apply in_map.
Qed.

Lemma lookup_ref_set_ref name c hs h :
  lookup_ref name hs = Some h -> lookup_ref name (set_ref name c hs) = Some c.
Proof.
  intros H. unfold set_ref. rewrite (lookup_ref_mem _ _ _ H).
  revert H. unfold lookup_ref. induction hs as [|r hs IH]; simpl; [discriminate|].
  destruct (String.eqb (fst r) name) eqn:E; simpl.
  - now rewrite String.eqb_refl.
  - rewrite E. exact IH.
Qed.

Lemma set_ref_names name c hs h :
  lookup_ref name hs = Some h -> map fst (set_ref name c hs) = map fst hs.
Proof.
  intros H. unfold set_ref. rewrite (lookup_ref_mem _ _ _ H).
  clear H. induction hs as [|r hs IH]; simpl; [reflexivity|].
  rewrite IH. destruct (String.eqb (fst r) name) eqn:E; [|reflexivity].
  apply String.eqb_eq in E. simpl. now rewrite E.
Qed.

Lemma under_refl p : under p p = true.
Proof. unfold under. now rewrite String.eqb_refl. Qed.

Lemma occupied_isdir w p : occupied w p = true -> isdir w p = true.
Proof. unfold isdir. now intros ->. Qed.

Lemma isdir_false_occupied w p : isdir w p = false -> occupied w p = false.
Proof. unfold isdir. intros H. now apply orb_false_iff in H. Qed.

Lemma occupied_false_find w p :
  occupied w p = false -> find (fun e => String.eqb (fst e) p) (dirs w) = None.
Proof.
  unfold occupied. induction (dirs w) as [|e ds IH]; simpl; [reflexivity|].
  intros H. apply orb_false_iff in H as [U H].
  destruct (String.eqb (fst e) p) eqn:E.
  - apply String.eqb_eq in E. rewrite E, under_refl in U. discriminate.
  - now apply IH.
Qed.

Lemma find_app_none {A : Type} (f : A -> bool) xs ys :
  find f xs = None -> find f (xs ++ ys) = find f ys.
Proof.
  induction xs as [|x xs IH]; simpl; [reflexivity|].
  destruct (f x); [discriminate | exact IH].
Qed.

(** The directory [git worktree add] has just made is the one found there. *)
Lemma lookup_dir_registered w path branch c :
  occupied w path = false ->
  lookup_dir path (register_worktree path branch c w)
  = Some {| is_git := true; abbrev_ref := branch; changes := [] |}.
Proof.
  intros D. unfold lookup_dir. cbn [dirs register_worktree set_worktrees set_dirs].
  rewrite (find_app_none _ _ _ (occupied_false_find _ _ D)). simpl.
  now rewrite String.eqb_refl.
Qed.

(** Where the source stands after [_commit]: at the returned id. *)
Lemma _commit_result branch w d h cid wc :
  lookup_dir (join (basedir w) branch) w = Some d -> is_git d = true ->
  abbrev_ref d = branch -> String.eqb branch "HEAD" = false ->
  lookup_ref branch (heads w) = Some h ->
  _commit branch None w = (Ok cid, wc) ->
  basedir wc = basedir w
  /\ repo_dir wc = repo_dir w
  /\ lookup_ref branch (heads wc) = Some cid
  /\ map fst (heads wc) = map fst (heads w)
  /\ (changes d = [] -> cid = h /\ wc = w)
  /\ (changes d <> [] ->
      cid = fresh_oid w
      /\ history wc
         = history w ++ [{| c_id := cid; c_on := branch; c_parent := Some h;
                            c_messages := ["Update " ++ quoted branch]%string;
                            c_empty := false |}]).
Proof.
  intros L G A N R. destruct (changes d) as [|x xs] eqn:C.
  - rewrite (_commit_clean _ _ _ _ _ L G R C). intros H. injection H as <- <-.
    repeat split; auto; congruence.
  - assert (C' : changes d <> []) by congruence.
    rewrite (_commit_dirty _ _ _ _ L G R C'). intros H.
    apply commit_ok in H as [d' [L' [_ [_ [-> ->]]]]].
    rewrite L in L'. injection L' as <-.
    cbn [basedir repo_dir heads history record_commit set_history
      set_heads set_worktrees set_dirs]. rewrite A, N, C, R.
    repeat split; try congruence.
    + eapply lookup_ref_set_ref; eassumption.
    + eapply set_ref_names; eassumption.
Qed.

(** The provenance commit that ends a copy or a rename. *)
Definition provenance (id : oid) (on : string) (parent : oid) (msg : string)
  : commit_info :=
  {| c_id := id; c_on := on; c_parent := Some parent; c_messages := [msg];
     c_empty := true |}.

(** A new worktree leaves the directories that were there. *)
Lemma isdir_registered w hs path branch c p :
  isdir w p = true ->
  isdir (register_worktree path branch c (set_heads hs w)) p = true.
Proof.
  unfold isdir, occupied.
  cbn [dirs uprooted register_worktree set_worktrees set_dirs set_heads].
  intros H. rewrite existsb_app. apply orb_true_iff in H as [H|H]; rewrite H;
    [reflexivity | apply orb_true_r].
Qed.

(** The first commit made in a new worktree of [dst] created at [cid]. *)
Lemma commit_in_new_worktree w dst cid msgs :
  mem dst (all_heads w) = false -> String.eqb dst "HEAD" = false ->
  occupied w (join (basedir w) dst) = false ->
  isdir w (repo_dir w) = true ->
  let w3 := register_worktree (join (basedir w) dst) dst cid
              (set_heads (heads w ++ [(dst, cid)]) w) in
  exists w4,
    commit (join (basedir w) dst) msgs w3 = (Ok (fresh_oid w3), w4)
    /\ history w4
       = history w ++ [{| c_id := fresh_oid w3; c_on := dst; c_parent := Some cid;
                          c_messages := msgs; c_empty := true |}].
Proof.
  intros NH N D B w3.
  assert (L : lookup_dir (join (basedir w) dst) w3
              = Some {| is_git := true; abbrev_ref := dst; changes := [] |})
    by (apply (lookup_dir_registered (set_heads (heads w ++ [(dst, cid)]) w)); exact D).
  assert (B3 : isdir w3 (repo_dir w3) = true)
    by (apply (isdir_registered w); exact B).
  eexists. rewrite (commit_step _ _ _ _ L eq_refl B3). split; [reflexivity|].
  cbn [history record_commit set_history set_heads set_worktrees set_dirs
         register_worktree heads abbrev_ref changes w3].
  rewrite N, (lookup_ref_app_new _ _ _ NH). reflexivity.
Qed.

(** A branch found at the convention path and one that is not differ. *)
Lemma found_differs w src dst :
  found_in_worktree w src = true -> found_in_worktree w dst = false ->
  String.eqb src dst = false.
Proof.
  intros S D. destruct (String.eqb_spec src dst); [subst; congruence | reflexivity].
Qed.

(** A copy of a checked-out branch, step by step. *)
Lemma _cp_checked_out w src dst w1 :
  mem src (_list_checked_out_branches w) = true ->
  _cp src dst w = (Ok tt, w1) ->
  exists d h cid wc pid,
    lookup_dir (join (basedir w) src) w = Some d
    /\ lookup_ref src (heads w) = Some h
    /\ _commit src None w = (Ok cid, wc)
    /\ lookup_ref src (heads wc) = Some cid
    /\ (changes d = [] -> cid = h /\ wc = w)
    /\ (changes d <> [] ->
        cid = fresh_oid w
        /\ history wc
           = history w ++ [{| c_id := cid; c_on := src; c_parent := Some h;
                              c_messages := ["Update " ++ quoted src]%string;
                              c_empty := false |}])
    /\ history w1
       = history wc
         ++ [provenance pid dst cid
               ("Checkout " ++ quoted src ++ " to " ++ quoted dst)].
Proof.
  intros CO H. unfold _cp in H.
  apply bind_ok in H as [w' [w'' [G H]]]. injection G as <- <-.
  rewrite CO in H.
  apply bind_ok in H as [[] [w2 [B H]]].
  apply bind_ok in B as [[] [wa [CS B]]].
  pose proof (check_branch_ok _ _ _ _ _ CS) as [_ [_ [FS _]]].
  apply checked_out_ok in CS as [-> [d [h [L [G [A [N [R _]]]]]]]].
  apply bind_ok in B as [[] [wb [CD B]]].
  apply check_branch_ok in CD as [-> [_ [_ [FD _]]]].
  destruct (FD eq_refl) as [FD' _].
  pose proof (found_differs _ _ _ (FS eq_refl) FD') as NE.
  apply bind_ok in B as [cid [wc [C B]]].
  destruct (_commit_result _ _ _ _ _ _ L G A N R C) as [BD [_ [RC [_ [CL DI]]]]].
  pose proof (create_branch_alive _ _ _ _ B) as AL.
  apply create_branch_ok in B as [c [RS [NH [NHD ->]]]].
  cbn [resolve] in RS. injection RS as <-.
  apply bind_ok in H as [[] [w3 [AW H]]].
  apply add_worktree_ok in AW as [c [RF [D [_ ->]]]].
  cbn [heads set_heads] in RF.
  rewrite (lookup_ref_app_new _ _ _ NH) in RF. injection RF as <-.
  rewrite NE in H. unfold _commit_after_checkout, print in H.
  change (occupied wc (join (basedir w) dst) = false) in D.
  rewrite <- BD in D, H.
  destruct (commit_in_new_worktree wc dst cid
              ["Checkout " ++ quoted src ++ " to " ++ quoted dst]%string NH NHD D AL)
    as [w4 [CM HI]].
  revert H. step. cbn [basedir register_worktree set_worktrees set_dirs set_heads].
  rewrite CM. cbn [fst snd]. intros H. injection H as <-.
  exists d, h, cid, wc. eexists.
  split; [exact L|]. split; [exact R|]. split; [exact C|]. split; [exact RC|].
  split; [exact CL|]. split; [exact DI|].
  cbn [history set_io]. rewrite HI. reflexivity.
Qed.

(** *** Removing directories and worktrees *)

Lemma filter_filter {A : Type} (f g : A -> bool) (l : list A) :
  filter f (filter g l) = filter (fun x => g x && f x) l.
Proof.
  induction l as [|x l IH]; simpl; [reflexivity|].
  destruct (g x); simpl; [destruct (f x)|]; now rewrite IH.
Qed.

Lemma filter_true {A : Type} (f : A -> bool) (l : list A) :
  (forall x, In x l -> f x = true) -> filter f l = l.
Proof.
  induction l as [|x l IH]; simpl; [reflexivity|]. intros H.
  rewrite (H x (or_introl eq_refl)). f_equal. apply IH. intros y I. apply H. now right.
Qed.

Lemma existsb_filter_false {A : Type} (f g : A -> bool) (l : list A) :
  existsb f l = false -> existsb f (filter g l) = false.
Proof.
  induction l as [|x l IH]; simpl; [reflexivity|].
  intros H. apply orb_false_iff in H as [X H].
  destruct (g x); simpl; [rewrite X|]; now apply IH.
Qed.

Lemma existsb_filter_true {A : Type} (f g : A -> bool) (l : list A) :
  existsb f (filter g l) = true -> existsb f l = true.
Proof.
  intros H. destruct (existsb f l) eqn:E; [reflexivity|].
  now rewrite (existsb_filter_false _ g _ E) in H.
Qed.

(** What [shutil.rmtree(p)] leaves of the directories. *)
Definition without (p : string) (ds : list (string * directory))
  : list (string * directory) :=
  filter (fun e => negb (under p (fst e))) ds.

Lemma without_absent w p : occupied w p = false -> without p (dirs w) = dirs w.
Proof.
  intros D. unfold without. apply filter_true. intros e I.
  apply negb_true_iff. unfold occupied in D.
  destruct (under p (fst e)) eqn:U; [|reflexivity].
  rewrite <- D. symmetry. apply existsb_exists. eauto.
Qed.

Lemma occupied_without w p : occupied (set_dirs (without p (dirs w)) w) p = false.
Proof.
  unfold occupied, without. cbn [dirs set_dirs].
  induction (dirs w) as [|e ds IH]; simpl; [reflexivity|].
  destruct (under p (fst e)) eqn:U; simpl; [exact IH|].
  now rewrite U, IH.
Qed.

(** [os.path.isdir] reads the disk and nothing else. *)
Lemma isdir_same_disk w w' p :
  dirs w = dirs w' -> uprooted w = uprooted w' -> isdir w p = isdir w' p.
Proof. unfold isdir, occupied. now intros -> ->. Qed.

(** A directory has its parents. *)
Lemma isdir_above w a b : under a b = true -> isdir w b = true -> isdir w a = true.
Proof.
  unfold isdir, occupied. intros U H.
  apply orb_true_iff in H as [H|H]; apply orb_true_iff; [left | right];
    apply existsb_exists in H as [x [I V]]; apply existsb_exists; exists x;
    (split; [exact I|]).
  - now apply (under_trans a b).
  - now apply (under_below a b).
Qed.

(** After [shutil.rmtree(p)] there is no directory at [p]. *)
Lemma uproot_isdir_self p w : isdir (uproot p w) p = false.
Proof.
  unfold isdir, uproot. apply orb_false_iff. split.
  - apply (occupied_without w).
  - cbn [uprooted set_uprooted set_dirs]. rewrite existsb_app. cbn [existsb].
    rewrite below_irrefl, !orb_false_r.
    induction (uprooted w) as [|s u IH]; simpl; [reflexivity|].
    destruct (under p s) eqn:U; simpl; [exact IH|].
    rewrite IH, orb_false_r. destruct (below p s) eqn:B; [|reflexivity].
    apply below_under in B. congruence.
Qed.

(** [shutil.rmtree] of a directory makes no directory. *)
Lemma uproot_isdir_mono p w q :
  isdir w p = true -> isdir (uproot p w) q = true -> isdir w q = true.
Proof.
  intros D H. unfold isdir, occupied, uproot in H.
  cbn [dirs uprooted set_uprooted set_dirs] in H.
  apply orb_true_iff in H as [H|H].
  - apply occupied_isdir. unfold occupied. now apply existsb_filter_true in H.
  - rewrite existsb_app in H. apply orb_true_iff in H as [H|H].
    + unfold isdir. apply existsb_filter_true in H. rewrite H. apply orb_true_r.
    + cbn [existsb] in H. rewrite orb_false_r in H.
      apply (isdir_above w q p); [now apply below_under | exact D].
Qed.

(** The state after [if os.path.isdir(p): shutil.rmtree(p)]. *)
Definition cleared (p : string) (w : world) : world :=
  if isdir w p then uproot p w else w.

Lemma rmtree_step w p : isdir w p = true -> rmtree p w = (Ok tt, uproot p w).
Proof. unfold rmtree. step. now intros ->. Qed.

Lemma rmtree_if_isdir w p :
  (if isdir w p then rmtree p else ret tt) w = (Ok tt, cleared p w).
Proof.
  unfold cleared. destruct (isdir w p) eqn:D; [now apply rmtree_step | reflexivity].
Qed.

Lemma cleared_dirs p w : dirs (cleared p w) = without p (dirs w).
Proof.
  unfold cleared. destruct (isdir w p) eqn:D; [reflexivity|].
  symmetry. apply without_absent. now apply isdir_false_occupied.
Qed.

Lemma cleared_isdir_self p w : isdir (cleared p w) p = false.
Proof.
  unfold cleared. destruct (isdir w p) eqn:D; [apply uproot_isdir_self | exact D].
Qed.

Lemma cleared_isdir_mono p w q : isdir (cleared p w) q = true -> isdir w q = true.
Proof.
  unfold cleared. destruct (isdir w p) eqn:D; [now apply uproot_isdir_mono | auto].
Qed.

(** The disk after the removal depends on the disk before it. *)
Lemma cleared_same_disk p w w' :
  dirs w = dirs w' -> uprooted w = uprooted w' ->
  dirs (cleared p w) = dirs (cleared p w')
  /\ uprooted (cleared p w) = uprooted (cleared p w').
Proof.
  intros D U. unfold cleared. rewrite (isdir_same_disk w w' p D U).
  destruct (isdir w' p); [|auto]. unfold uproot.
  cbn [dirs uprooted set_uprooted set_dirs]. now rewrite D, U.
Qed.

(** Two states that differ on disk at most. *)
Definition same_but_disk (w w' : world) : Prop :=
  basedir w' = basedir w /\ repo_dir w' = repo_dir w /\ cwd_rel w' = cwd_rel w
  /\ stdin w' = stdin w /\ worktrees w' = worktrees w /\ heads w' = heads w
  /\ remote_heads w' = remote_heads w /\ history w' = history w
  /\ stdout w' = stdout w /\ new_pwd w' = new_pwd w.

Lemma same_but_disk_refl w : same_but_disk w w.
Proof. unfold same_but_disk. auto 20. Qed.

Lemma same_but_disk_trans w w' w'' :
  same_but_disk w w' -> same_but_disk w' w'' -> same_but_disk w w''.
Proof. unfold same_but_disk. intuition congruence. Qed.

Lemma cleared_same_but_disk p w : same_but_disk w (cleared p w).
Proof.
  unfold cleared. destruct (isdir w p); [|apply same_but_disk_refl].
  unfold same_but_disk, uproot. cbn. auto 20.
Qed.

(** The directories that lie in no worktree of [branch] among [listed]. *)
Definition outside (branch : string) (listed : list worktree)
  (e : string * directory) : bool :=
  negb (existsb (fun t => String.eqb (wt_branch t) branch && under (wt_path t) (fst e))
                listed).

(** The state after the loop of [delete_worktree] over [listed]. *)
Fixpoint worktree_dirs_cleared (branch : string) (listed : list worktree) (w : world)
  : world :=
  match listed with
  | [] => w
  | t :: rest =>
      worktree_dirs_cleared branch rest
        (if String.eqb (wt_branch t) branch then cleared (wt_path t) w else w)
  end.

Lemma delete_worktree_dirs_eq branch listed :
  forall w,
    delete_worktree_dirs branch listed w
    = (Ok tt, worktree_dirs_cleared branch listed w).
Proof.
  induction listed as [|t rest IH]; intros w; [reflexivity|].
  cbn [delete_worktree_dirs worktree_dirs_cleared]. unfold bind at 1.
  destruct (String.eqb (wt_branch t) branch).
  - unfold bind at 1, get at 1. rewrite rmtree_if_isdir. apply IH.
  - unfold ret at 1. apply IH.
Qed.

Lemma worktree_dirs_cleared_dirs branch listed :
  forall w,
    dirs (worktree_dirs_cleared branch listed w) = filter (outside branch listed) (dirs w).
Proof.
  induction listed as [|t rest IH]; intros w.
  - cbn [worktree_dirs_cleared]. symmetry. now apply filter_true.
  - cbn [worktree_dirs_cleared]. rewrite IH.
    destruct (String.eqb (wt_branch t) branch) eqn:B.
    + rewrite cleared_dirs. unfold without. rewrite filter_filter.
      apply filter_ext. intros e. unfold outside. cbn [existsb]. rewrite B.
      cbn [andb]. now rewrite negb_orb.
    + apply filter_ext. intros e. unfold outside. cbn [existsb]. now rewrite B.
Qed.

Lemma worktree_dirs_cleared_mono branch listed q :
  forall w,
    isdir (worktree_dirs_cleared branch listed w) q = true -> isdir w q = true.
Proof.
  induction listed as [|t rest IH]; intros w H; [exact H|].
  cbn [worktree_dirs_cleared] in H. apply IH in H.
  destruct (String.eqb (wt_branch t) branch); [now apply cleared_isdir_mono in H | exact H].
Qed.

(** The loop leaves no directory at the path of a worktree of [branch]. *)
Lemma worktree_dirs_cleared_gone branch listed t :
  forall w,
    In t listed -> wt_branch t = branch ->
    isdir (worktree_dirs_cleared branch listed w) (wt_path t) = false.
Proof.
  induction listed as [|t0 rest IH]; intros w I B; [contradiction|].
  cbn [worktree_dirs_cleared]. destruct I as [->|I]; [|now apply IH].
  rewrite B, String.eqb_refl.
  destruct (isdir (worktree_dirs_cleared branch rest (cleared (wt_path t) w)) (wt_path t))
    eqn:E; [|reflexivity].
  apply worktree_dirs_cleared_mono in E. now rewrite cleared_isdir_self in E.
Qed.

Lemma worktree_dirs_cleared_same_but_disk branch listed :
  forall w, same_but_disk w (worktree_dirs_cleared branch listed w).
Proof.
  induction listed as [|t rest IH]; intros w; [apply same_but_disk_refl|].
  cbn [worktree_dirs_cleared]. destruct (String.eqb (wt_branch t) branch); [|apply IH].
  eapply same_but_disk_trans; [apply cleared_same_but_disk | apply IH].
Qed.

Lemma worktree_dirs_cleared_same_disk branch listed :
  forall w w',
    dirs w = dirs w' -> uprooted w = uprooted w' ->
    dirs (worktree_dirs_cleared branch listed w)
    = dirs (worktree_dirs_cleared branch listed w')
    /\ uprooted (worktree_dirs_cleared branch listed w)
       = uprooted (worktree_dirs_cleared branch listed w').
Proof.
  induction listed as [|t rest IH]; intros w w' D U; [now split|].
  cbn [worktree_dirs_cleared]. destruct (String.eqb (wt_branch t) branch); [|now apply IH].
  destruct (cleared_same_disk (wt_path t) w w' D U) as [D' U']. now apply IH.
Qed.

Lemma worktree_dirs_cleared_absent branch listed w :
  mem branch (map wt_branch listed) = false ->
  worktree_dirs_cleared branch listed w = w.
Proof.
  revert w. induction listed as [|t rest IH]; intros w M; [reflexivity|].
  cbn [map] in M. unfold mem in M. cbn [existsb] in M.
  apply orb_false_iff in M as [B M]. cbn [worktree_dirs_cleared].
  rewrite String.eqb_sym, B. now apply IH.
Qed.

(** The state after [delete_worktree(branch)]. *)
Definition worktree_deleted (branch : string) (w : world) : world :=
  let w' := worktree_dirs_cleared branch (worktrees w) w in
  set_worktrees (filter (fun t => isdir w' (wt_path t)) (worktrees w)) w'.
Arguments worktree_deleted : simpl never.

Lemma worktree_deleted_dirs branch w :
  dirs (worktree_deleted branch w) = filter (outside branch (worktrees w)) (dirs w).
Proof. apply worktree_dirs_cleared_dirs. Qed.

Lemma worktree_deleted_isdir branch w p :
  isdir (worktree_deleted branch w) p
  = isdir (worktree_dirs_cleared branch (worktrees w) w) p.
Proof. reflexivity. Qed.

Lemma worktree_deleted_mono branch w p :
  isdir (worktree_deleted branch w) p = true -> isdir w p = true.
Proof. rewrite worktree_deleted_isdir. apply worktree_dirs_cleared_mono. Qed.

(** What [delete_worktree(branch)] leaves as it was. *)
Lemma worktree_deleted_fields branch w :
  let w1 := worktree_deleted branch w in
  basedir w1 = basedir w /\ repo_dir w1 = repo_dir w /\ cwd_rel w1 = cwd_rel w
  /\ stdin w1 = stdin w /\ heads w1 = heads w /\ remote_heads w1 = remote_heads w
  /\ history w1 = history w /\ stdout w1 = stdout w /\ new_pwd w1 = new_pwd w.
Proof.
  destruct (worktree_dirs_cleared_same_but_disk branch (worktrees w) w)
    as (B & R & C & I & _ & H & RH & HI & O & N).
  unfold worktree_deleted. cbn. auto 20.
Qed.

(** [delete_worktree] succeeds exactly when the backing clone is still on
    disk after the directories were removed. *)
Lemma delete_worktree_cases branch w :
  delete_worktree branch w
  = if isdir w (repo_dir w) then
      if isdir (worktree_deleted branch w) (repo_dir w)
      then (Ok tt, worktree_deleted branch w)
      else (Raise "FileNotFoundError", worktree_dirs_cleared branch (worktrees w) w)
    else (Raise "FileNotFoundError", w).
Proof.
  unfold delete_worktree.
  destruct (isdir w (repo_dir w)) eqn:A; [|now apply backing_clone_gone].
  rewrite (bind_step _ _ _ _ _ (backing_clone_step _ A)).
  unfold bind at 1, get at 1. unfold list_worktrees.
  unfold bind at 1. rewrite delete_worktree_dirs_eq.
  unfold prune_worktree. rewrite worktree_deleted_isdir.
  set (w' := worktree_dirs_cleared branch (worktrees w) w).
  destruct (worktree_dirs_cleared_same_but_disk branch (worktrees w) w)
    as (_ & R & _ & _ & T & _). fold w' in R, T.
  rewrite <- R.
  destruct (isdir w' (repo_dir w')) eqn:A2.
  - rewrite (bind_step _ _ _ _ _ (backing_clone_step _ A2)).
    unfold modify, worktree_deleted. fold w'. now rewrite T.
  - now apply backing_clone_gone.
Qed.

Lemma delete_worktree_step branch w :
  isdir (worktree_deleted branch w) (repo_dir w) = true ->
  delete_worktree branch w = (Ok tt, worktree_deleted branch w).
Proof.
  intros A2. rewrite delete_worktree_cases, A2.
  now rewrite (worktree_deleted_mono _ _ _ A2).
Qed.

Lemma delete_worktree_ok branch w w1 :
  delete_worktree branch w = (Ok tt, w1) ->
  w1 = worktree_deleted branch w /\ isdir w1 (repo_dir w) = true.
Proof.
  rewrite delete_worktree_cases.
  destruct (isdir w (repo_dir w)); [|discriminate].
  destruct (isdir (worktree_deleted branch w) (repo_dir w)) eqn:A; [|discriminate].
  intros H. injection H as <-. auto.
Qed.

(** After [delete_worktree(branch)] no worktree is on [branch]. *)
Lemma worktree_deleted_gone branch w :
  mem branch (list_worktree_branches (worktree_deleted branch w)) = false.
Proof.
  apply mem_false_In. unfold list_worktree_branches, list_worktrees, worktree_deleted.
  cbn [worktrees set_worktrees]. intros I.
  apply in_map_iff in I as [t [B I]]. apply filter_In in I as [I D].
  now rewrite (worktree_dirs_cleared_gone branch (worktrees w) t w I B) in D.
Qed.

(** *** The three removals of [rm] *)

Definition printed (line : string) (w : world) : world :=
  set_io (stdin w) (stdout w ++ [line]) w.

Definition expdir_removed (branch : string) (w : world) : world :=
  if isdir w (join (basedir w) branch)
  then printed ("Removed expdir " ++ quoted branch)
         (uproot (join (basedir w) branch) w)
  else w.

Definition worktree_removed (branch : string) (w : world) : world :=
  if mem branch (list_worktree_branches w)
  then printed ("Removed worktree " ++ quoted branch) (worktree_deleted branch w)
  else w.

Definition branch_removed (branch : string) (w : world) : world :=
  if mem branch (list_local_branches w)
  then printed ("Removed branch " ++ quoted branch)
         (set_heads (filter (fun r => negb (String.eqb (fst r) branch)) (heads w)) w)
  else w.

(** Whether any of the three namespaces holds [branch]. *)
Definition present_locally (w : world) (branch : string) : bool :=
  isdir w (join (basedir w) branch)
  || mem branch (list_worktree_branches w)
  || mem branch (list_local_branches w).

Definition removed (branch : string) (w : world) : world :=
  let w3 := branch_removed branch (worktree_removed branch (expdir_removed branch w)) in
  if present_locally w branch then w3
  else printed ("Branch " ++ quoted branch ++ " not removed") w3.

Lemma local_in_all_heads w branch :
  mem branch (list_local_branches w) = true -> mem branch (all_heads w) = true.
Proof.
  intros H. apply mem_In in H. apply mem_In. unfold list_local_branches in H.
  now apply filter_In in H.
Qed.

Lemma delete_branch_step w branch :
  isdir w (repo_dir w) = true ->
  mem branch (list_local_branches w) = true ->
  mem branch (list_worktree_branches w) = false ->
  delete_branch branch w
  = (Ok tt, set_heads (filter (fun r => negb (String.eqb (fst r) branch)) (heads w)) w).
Proof.
  intros A L W. unfold delete_branch.
  rewrite (bind_step _ _ _ _ _ (backing_clone_step _ A)). step.
  now rewrite (local_in_all_heads _ _ L), W.
Qed.

(** A step of the removal block: the state apart from the disk, the
    worktree entries and the refs stays, and [out] is printed. *)
Definition removal_step (w w' : world) (out : list string) : Prop :=
  basedir w' = basedir w /\ repo_dir w' = repo_dir w /\ cwd_rel w' = cwd_rel w
  /\ stdin w' = stdin w /\ remote_heads w' = remote_heads w
  /\ history w' = history w /\ new_pwd w' = new_pwd w
  /\ stdout w' = stdout w ++ out.

Lemma removal_step_none w : removal_step w w [].
Proof. unfold removal_step. rewrite app_nil_r. auto 20. Qed.

Lemma removal_step_trans w w' w'' out out' :
  removal_step w w' out -> removal_step w' w'' out' ->
  removal_step w w'' (out ++ out').
Proof.
  unfold removal_step. intros (B & R & C & I & RH & H & N & O) (B' & R' & C' & I' & RH' & H' & N' & O').
  rewrite O', O, app_assoc. repeat split; congruence.
Qed.

Lemma expdir_removed_step branch w :
  removal_step w (expdir_removed branch w)
    (if isdir w (join (basedir w) branch)
     then ["Removed expdir " ++ quoted branch]%string else []).
Proof.
  unfold expdir_removed. destruct (isdir w _); [|apply removal_step_none].
  unfold removal_step. cbn. auto 20.
Qed.

Lemma worktree_removed_step branch w :
  removal_step w (worktree_removed branch w)
    (if mem branch (list_worktree_branches w)
     then ["Removed worktree " ++ quoted branch]%string else []).
Proof.
  unfold worktree_removed. destruct (mem branch _); [|apply removal_step_none].
  destruct (worktree_deleted_fields branch w) as (B & R & C & I & H & RH & HI & O & N).
  unfold removal_step. cbn [basedir repo_dir cwd_rel stdin remote_heads history new_pwd
                             stdout printed set_io].
  rewrite B, R, C, RH, HI, N, O, I. auto 20.
Qed.

Lemma branch_removed_step branch w :
  removal_step w (branch_removed branch w)
    (if mem branch (list_local_branches w)
     then ["Removed branch " ++ quoted branch]%string else []).
Proof.
  unfold branch_removed. destruct (mem branch _); [|apply removal_step_none].
  unfold removal_step. cbn. auto 20.
Qed.

Lemma expdir_removed_worktrees branch w :
  worktrees (expdir_removed branch w) = worktrees w.
Proof. unfold expdir_removed. now destruct (isdir w _). Qed.

Lemma expdir_removed_heads branch w :
  heads (expdir_removed branch w) = heads w.
Proof. unfold expdir_removed. now destruct (isdir w _). Qed.

Lemma worktree_removed_heads branch w :
  heads (worktree_removed branch w) = heads w.
Proof.
  unfold worktree_removed. destruct (mem branch _); [|reflexivity].
  now destruct (worktree_deleted_fields branch w) as (_ & _ & _ & _ & H & _).
Qed.

Lemma worktree_removed_gone branch w :
  mem branch (list_worktree_branches (worktree_removed branch w)) = false.
Proof.
  unfold worktree_removed. destruct (mem branch (list_worktree_branches w)) eqn:W.
  - apply (worktree_deleted_gone branch w).
  - exact W.
Qed.

(** *** The names a state holds

    Whether a name is in a namespace depends on the paths of the
    directories, on the roots of the trees that were removed, on the path
    and branch of the worktree entries and on the names of the refs, not on
    what they hold. *)

Definition dir_names (w : world) : list string := map fst (dirs w).

Definition wt_key (t : worktree) : string * string := (wt_path t, wt_branch t).

Definition wt_keys (w : world) : list (string * string) := map wt_key (worktrees w).

Lemma occupied_dir_names w p : occupied w p = existsb (under p) (dir_names w).
Proof.
  unfold occupied, dir_names.
  induction (dirs w) as [|e ds IH]; simpl; [reflexivity|]. now rewrite IH.
Qed.

Lemma isdir_same_names w w' p :
  dir_names w = dir_names w' -> uprooted w = uprooted w' -> isdir w p = isdir w' p.
Proof. unfold isdir. rewrite !occupied_dir_names. now intros -> ->. Qed.

Lemma worktree_branches_keys w : list_worktree_branches w = map snd (wt_keys w).
Proof.
  unfold list_worktree_branches, list_worktrees, wt_keys.
  rewrite map_map. reflexivity.
Qed.

Lemma map_filter_fst {A B : Type} (g : A -> bool) (l : list (A * B)) :
  map fst (filter (fun e => g (fst e)) l) = filter g (map fst l).
Proof.
  induction l as [|e l IH]; simpl; [reflexivity|].
  destruct (g (fst e)); simpl; now rewrite IH.
Qed.

Lemma outside_keys branch ts e :
  outside branch ts e
  = negb (existsb (fun k => String.eqb (snd k) branch && under (fst k) (fst e))
                  (map wt_key ts)).
Proof.
  unfold outside. f_equal. induction ts as [|t ts IH]; simpl; [reflexivity|].
  now rewrite IH.
Qed.

Lemma outside_absent branch ts e :
  mem branch (map wt_branch ts) = false -> outside branch ts e = true.
Proof.
  unfold outside, mem. induction ts as [|t ts IH]; simpl; [reflexivity|].
  intros H. apply orb_false_iff in H as [B H].
  rewrite String.eqb_sym, B. simpl. now apply IH.
Qed.

Lemma expdir_removed_dirs branch w :
  dirs (expdir_removed branch w) = without (join (basedir w) branch) (dirs w).
Proof.
  unfold expdir_removed. destruct (isdir w (join (basedir w) branch)) eqn:D.
  - reflexivity.
  - symmetry. apply without_absent. now apply isdir_false_occupied.
Qed.

Lemma expdir_removed_basedir branch w : basedir (expdir_removed branch w) = basedir w.
Proof. unfold expdir_removed. now destruct (isdir w _). Qed.

(** On disk [expdir_removed] is the guarded removal. *)
Lemma expdir_removed_disk branch w :
  dirs (expdir_removed branch w) = dirs (cleared (join (basedir w) branch) w)
  /\ uprooted (expdir_removed branch w)
     = uprooted (cleared (join (basedir w) branch) w).
Proof. unfold expdir_removed, cleared. now destruct (isdir w _). Qed.

Lemma worktree_removed_dirs branch w :
  dirs (worktree_removed branch w) = filter (outside branch (worktrees w)) (dirs w).
Proof.
  unfold worktree_removed. destruct (mem branch (list_worktree_branches w)) eqn:W.
  - apply worktree_deleted_dirs.
  - symmetry. apply filter_true. intros e _. now apply outside_absent.
Qed.

Lemma worktree_removed_worktrees branch w :
  worktrees (worktree_removed branch w)
  = if mem branch (list_worktree_branches w)
    then filter (fun t => isdir (worktree_removed branch w) (wt_path t)) (worktrees w)
    else worktrees w.
Proof.
  unfold worktree_removed.
  destruct (mem branch (list_worktree_branches w)); reflexivity.
Qed.

(** On disk [worktree_removed] is the loop of [delete_worktree]. *)
Lemma worktree_removed_isdir branch w p :
  isdir (worktree_removed branch w) p
  = isdir (worktree_dirs_cleared branch (worktrees w) w) p.
Proof.
  unfold worktree_removed. destruct (mem branch (list_worktree_branches w)) eqn:W.
  - reflexivity.
  - now rewrite worktree_dirs_cleared_absent.
Qed.

Lemma worktree_removed_mono branch w p :
  isdir (worktree_removed branch w) p = true -> isdir w p = true.
Proof. rewrite worktree_removed_isdir. apply worktree_dirs_cleared_mono. Qed.

Lemma branch_removed_dirs branch w : dirs (branch_removed branch w) = dirs w.
Proof. unfold branch_removed. now destruct (mem branch _). Qed.

Lemma branch_removed_uprooted branch w : uprooted (branch_removed branch w) = uprooted w.
Proof. unfold branch_removed. now destruct (mem branch _). Qed.

Lemma branch_removed_worktrees branch w :
  worktrees (branch_removed branch w) = worktrees w.
Proof. unfold branch_removed. now destruct (mem branch _). Qed.

Lemma branch_removed_heads branch w :
  heads (branch_removed branch w)
  = if mem branch (list_local_branches w)
    then filter (fun r => negb (String.eqb (fst r) branch)) (heads w)
    else heads w.
Proof. unfold branch_removed. now destruct (mem branch _). Qed.

(** The removal block ends on the disk its second step left. *)
Lemma removed_isdir branch w p :
  isdir (removed branch w) p
  = isdir (worktree_removed branch (expdir_removed branch w)) p.
Proof.
  apply isdir_same_disk; unfold removed;
    destruct (present_locally w branch); cbn [dirs uprooted printed set_io];
    now rewrite ?branch_removed_dirs, ?branch_removed_uprooted.
Qed.

(** The directories after the removal block, whatever was there. *)
Lemma removed_dirs branch w :
  dirs (removed branch w)
  = filter (outside branch (worktrees w)) (without (join (basedir w) branch) (dirs w)).
Proof.
  transitivity (dirs (branch_removed branch
                        (worktree_removed branch (expdir_removed branch w)))).
  - unfold removed. now destruct (present_locally w branch).
  - now rewrite branch_removed_dirs, worktree_removed_dirs, expdir_removed_dirs,
      expdir_removed_worktrees.
Qed.

(** The worktree entries after the removal block. *)
Lemma removed_worktrees branch w :
  worktrees (removed branch w)
  = if mem branch (list_worktree_branches w)
    then filter (fun t => isdir (removed branch w) (wt_path t)) (worktrees w)
    else worktrees w.
Proof.
  transitivity (worktrees (branch_removed branch
                             (worktree_removed branch (expdir_removed branch w)))).
  - unfold removed. now destruct (present_locally w branch).
  - rewrite branch_removed_worktrees, worktree_removed_worktrees.
    unfold list_worktree_branches, list_worktrees.
    rewrite expdir_removed_worktrees.
    destruct (mem branch (map wt_branch (worktrees w))); [|reflexivity].
    apply filter_ext. intros t. now rewrite removed_isdir.
Qed.

(** The refs after the removal block. *)
Lemma removed_heads branch w :
  heads (removed branch w)
  = if mem branch (list_local_branches w)
    then filter (fun r => negb (String.eqb (fst r) branch)) (heads w)
    else heads w.
Proof.
  transitivity (heads (branch_removed branch
                         (worktree_removed branch (expdir_removed branch w)))).
  - unfold removed. now destruct (present_locally w branch).
  - rewrite branch_removed_heads. unfold list_local_branches, all_heads.
    now rewrite !worktree_removed_heads, !expdir_removed_heads.
Qed.

(** Removing the directories of [branch], the experiment directory and
    those of its worktrees, leaves the backing clone on disk. *)
Definition spared (w : world) (branch : string) : bool :=
  isdir (worktree_dirs_cleared branch (worktrees w)
           (cleared (join (basedir w) branch) w))
        (repo_dir w).

Lemma expdir_removed_repo_dir branch w :
  repo_dir (expdir_removed branch w) = repo_dir w.
Proof. unfold expdir_removed. now destruct (isdir w _). Qed.

Lemma worktree_removed_repo_dir branch w :
  repo_dir (worktree_removed branch w) = repo_dir w.
Proof. now destruct (worktree_removed_step branch w) as (_ & R & _). Qed.

Lemma spared_worktree_removed branch w :
  isdir (worktree_removed branch (expdir_removed branch w)) (repo_dir w)
  = spared w branch.
Proof.
  unfold spared. rewrite worktree_removed_isdir, expdir_removed_worktrees.
  destruct (expdir_removed_disk branch w) as [D U].
  destruct (worktree_dirs_cleared_same_disk branch (worktrees w) _ _ D U) as [D' U'].
  now apply isdir_same_disk.
Qed.

Lemma spared_expdir_removed branch w :
  spared w branch = true -> isdir (expdir_removed branch w) (repo_dir w) = true.
Proof. rewrite <- spared_worktree_removed. apply worktree_removed_mono. Qed.

Lemma spared_alive branch w : spared w branch = true -> isdir w (repo_dir w) = true.
Proof.
  unfold spared. intros S. apply worktree_dirs_cleared_mono in S.
  now apply cleared_isdir_mono in S.
Qed.

(** The removal block of [rm] succeeds when it spares the backing clone: it
    ends in the state in which each namespace that held [branch] has been
    cleaned. *)
Lemma remove_namespaces_eq branch w :
  spared w branch = true ->
  remove_namespaces branch w = (Ok tt, removed branch w).
Proof.
  intros SP.
  unfold remove_namespaces, removed, present_locally.
  unfold bind at 1, get at 1.
  set (w1 := expdir_removed branch w).
  assert (S1 : forall k : bool -> M unit,
             bind (if isdir w (join (basedir w) branch)
                   then rmtree (join (basedir w) branch) ;;
                        print ("Removed expdir " ++ quoted branch) ;; ret true
                   else ret false) k w
             = k (isdir w (join (basedir w) branch)) w1).
  { intros k. unfold w1, expdir_removed.
    destruct (isdir w (join (basedir w) branch)) eqn:D; [|reflexivity].
    unfold bind at 1. unfold bind at 1. now rewrite (rmtree_step _ _ D). }
  rewrite S1. clear S1.
  assert (A1 : isdir w1 (repo_dir w1) = true).
  { unfold w1. rewrite expdir_removed_repo_dir. now apply spared_expdir_removed. }
  rewrite (bind_step _ _ _ _ _ (backing_clone_step _ A1)).
  unfold bind at 1, get at 1.
  set (w2 := worktree_removed branch w1).
  assert (A2 : isdir w2 (repo_dir w2) = true).
  { unfold w2, w1. rewrite worktree_removed_repo_dir, expdir_removed_repo_dir.
    now rewrite spared_worktree_removed. }
  assert (W1 : list_worktree_branches w1 = list_worktree_branches w)
    by (unfold list_worktree_branches, list_worktrees, w1;
        now rewrite expdir_removed_worktrees).
  assert (S2 : forall (r : bool) (k : bool -> M unit),
             bind (if mem branch (list_worktree_branches w1)
                   then delete_worktree branch ;;
                        print ("Removed worktree " ++ quoted branch) ;; ret true
                   else ret r) k w1
             = k (if mem branch (list_worktree_branches w) then true else r) w2).
  { intros r k. revert A2. unfold w2. rewrite worktree_removed_repo_dir.
    unfold worktree_removed. rewrite <- W1.
    destruct (mem branch (list_worktree_branches w1)); [|reflexivity].
    intros A2. unfold bind. rewrite delete_worktree_step by exact A2. reflexivity. }
  rewrite S2. clear S2.
  rewrite (bind_step _ _ _ _ _ (backing_clone_step _ A2)).
  unfold bind at 1, get at 1.
  assert (L2 : list_local_branches w2 = list_local_branches w)
    by (unfold list_local_branches, all_heads, w2, w1;
        now rewrite worktree_removed_heads, expdir_removed_heads).
  assert (G2 : mem branch (list_worktree_branches w2) = false)
    by apply worktree_removed_gone.
  unfold bind at 1. unfold branch_removed. rewrite L2.
  destruct (mem branch (list_local_branches w)) eqn:L.
  - unfold bind at 1. rewrite delete_branch_step by (rewrite ?L2; assumption).
    unfold bind, print, modify, ret. cbn [negb].
    rewrite !orb_true_r. reflexivity.
  - unfold ret at 1. rewrite !orb_false_r.
    destruct (isdir w (join (basedir w) branch)); cbn [orb negb].
    + destruct (mem branch (list_worktree_branches w)); reflexivity.
    + destruct (mem branch (list_worktree_branches w)); reflexivity.
Qed.

Lemma expdir_removed_isdir branch w :
  isdir (expdir_removed branch w) (join (basedir w) branch) = false.
Proof.
  unfold expdir_removed. destruct (isdir w (join (basedir w) branch)) eqn:D.
  - apply (uproot_isdir_self _ w).
  - exact D.
Qed.

Lemma branch_removed_gone branch w :
  mem branch (list_local_branches (branch_removed branch w)) = false.
Proof.
  unfold branch_removed. destruct (mem branch (list_local_branches w)) eqn:L; [|exact L].
  apply mem_false_In. unfold list_local_branches, all_heads, printed.
  cbn [heads set_io set_heads]. intros I. apply filter_In in I as [I _].
  apply in_map_iff in I as [r [E I]]. apply filter_In in I as [_ N].
  rewrite E, String.eqb_refl in N. discriminate.
Qed.

(** What the removal block prints: one line for each namespace that held
    the branch, or the one line that nothing was removed. *)
Definition report (w : world) (branch : string) : list string :=
  (if isdir w (join (basedir w) branch)
   then ["Removed expdir " ++ quoted branch]%string else [])
  ++ (if mem branch (list_worktree_branches w)
      then ["Removed worktree " ++ quoted branch]%string else [])
  ++ (if mem branch (list_local_branches w)
      then ["Removed branch " ++ quoted branch]%string else [])
  ++ (if present_locally w branch then []
      else ["Branch " ++ quoted branch ++ " not removed"]%string).

Lemma removed_step branch w : removal_step w (removed branch w) (report w branch).
Proof.
  pose proof (expdir_removed_step branch w) as S1.
  pose proof (worktree_removed_step branch (expdir_removed branch w)) as S2.
  pose proof (branch_removed_step branch
                (worktree_removed branch (expdir_removed branch w))) as S3.
  unfold list_worktree_branches, list_worktrees in S2.
  rewrite expdir_removed_worktrees in S2.
  unfold list_local_branches, all_heads in S3.
  rewrite worktree_removed_heads, expdir_removed_heads in S3.
  pose proof (removal_step_trans _ _ _ _ _ S1 (removal_step_trans _ _ _ _ _ S2 S3)) as S.
  unfold removed, report. destruct (present_locally w branch).
  - now rewrite !app_nil_r.
  - set (w3 := branch_removed branch
                 (worktree_removed branch (expdir_removed branch w))) in *.
    set (line := ("Branch " ++ quoted branch ++ " not removed")%string).
    assert (S4 : removal_step w3 (printed line w3) [line])
      by (unfold removal_step, printed; cbn; auto 20).
    pose proof (removal_step_trans _ _ _ _ _ S S4) as S'.
    rewrite <- !app_assoc in S'. exact S'.
Qed.

Lemma removed_spec branch w :
  let w1 := removed branch w in
  basedir w1 = basedir w
  /\ repo_dir w1 = repo_dir w
  /\ stdin w1 = stdin w
  /\ remote_heads w1 = remote_heads w
  /\ history w1 = history w
  /\ new_pwd w1 = new_pwd w
  /\ cwd_rel w1 = cwd_rel w
  /\ stdout w1 = stdout w ++ report w branch
  /\ isdir w1 (join (basedir w) branch) = false
  /\ mem branch (list_worktree_branches w1) = false
  /\ mem branch (list_local_branches w1) = false
  /\ (isdir w (join (basedir w) branch) = false ->
      mem branch (list_worktree_branches w) = false ->
      dirs w1 = dirs w /\ uprooted w1 = uprooted w)
  /\ (mem branch (list_worktree_branches w) = false -> worktrees w1 = worktrees w)
  /\ (mem branch (list_local_branches w) = false -> heads w1 = heads w).
Proof.
  cbv zeta. destruct (removed_step branch w) as (B & R & C & I & RH & H & N & O).
  repeat (split; [assumption|]).
  split; [|split; [|split; [|split; [|split]]]].
  - rewrite removed_isdir.
    destruct (isdir (worktree_removed branch (expdir_removed branch w))
                (join (basedir w) branch)) eqn:E; [|reflexivity].
    apply worktree_removed_mono in E. now rewrite expdir_removed_isdir in E.
  - pose proof (worktree_removed_gone branch (expdir_removed branch w)) as G.
    unfold list_worktree_branches, list_worktrees in *. unfold removed.
    destruct (present_locally w branch); cbn [worktrees printed set_io];
      now rewrite branch_removed_worktrees.
  - pose proof (branch_removed_gone branch
                  (worktree_removed branch (expdir_removed branch w))) as G.
    unfold list_local_branches, all_heads in *. unfold removed.
    destruct (present_locally w branch); cbn [heads printed set_io]; exact G.
  - intros D W. unfold removed, expdir_removed, worktree_removed. rewrite D, W.
    destruct (present_locally w branch); cbn [dirs uprooted printed set_io];
      now rewrite branch_removed_dirs, branch_removed_uprooted.
  - intros W. now rewrite removed_worktrees, W.
  - intros L. now rewrite removed_heads, L.
Qed.

Lemma _get_branch_readonly w : snd (_get_branch w) = w.
Proof.
  unfold _get_branch, get_current_branch, open_repo. step.
  destruct (is_empty (strip "./" (cwd_rel w))); [reflexivity|].
  destruct (lookup_dir _ w) as [d|]; [|reflexivity].
  destruct (is_git d); reflexivity.
Qed.

Lemma _get_branch_step w cur :
  fst (_get_branch w) = Ok cur -> _get_branch w = (Ok cur, w).
Proof.
  intros H. pose proof (_get_branch_readonly w) as R.
  destruct (_get_branch w) as [r w']. simpl in H, R. now subst.
Qed.

Lemma alnum_not_dot c rest :
  is_alnum c = true -> String.eqb (String c rest) "." = false.
Proof.
  intros A. destruct (String.eqb_spec (String c rest) "."); [|reflexivity].
  injection e as -> _. discriminate.
Qed.

(** [rm] with [--yes] on a name that passes the assertion, from a place
    where the current branch can be read. *)
Lemma rm_eq w c rest cur :
  is_alnum c = true ->
  fst (_get_branch w) = Ok cur ->
  spared w (String c rest) = true ->
  rm (String c rest) true w
  = (Ok tt,
     if option_string_eqb cur (String c rest)
     then set_new_pwd (Some (basedir w)) (removed (String c rest) w)
     else removed (String c rest) w).
Proof.
  intros A G SP. unfold rm. unfold bind at 1, get at 1.
  rewrite (bind_step _ _ _ _ _ (_get_branch_step _ _ G)).
  unfold resolve_dot. rewrite (alnum_not_dot _ _ A).
  unfold bind at 1, ret at 1. unfold bind at 1, ret at 1. cbn [negb].
  unfold assert_name. rewrite A. unfold bind at 1, ret at 1.
  unfold bind at 1. rewrite (remove_namespaces_eq _ _ SP).
  destruct (option_string_eqb cur (String c rest)); reflexivity.
Qed.



Lemma spared_removed w branch :
  spared w branch = isdir (removed branch w) (repo_dir w).
Proof. now rewrite removed_isdir, spared_worktree_removed. Qed.




(** *** Renaming *)

Lemma find_filter_none {A : Type} (f g : A -> bool) (l : list A) :
  find f l = None -> find f (filter g l) = None.
Proof.
  induction l as [|x l IH]; simpl; [reflexivity|].
  destruct (f x) eqn:F; [discriminate|]. intros H.
  destruct (g x); simpl; [rewrite F|]; now apply IH.
Qed.

Lemma lookup_ref_filter_other name other hs :
  String.eqb name other = false ->
  lookup_ref name (filter (fun r => negb (String.eqb (fst r) other)) hs)
  = lookup_ref name hs.
Proof.
  intros N. unfold lookup_ref. induction hs as [|r hs IH]; simpl; [reflexivity|].
  destruct (String.eqb (fst r) other) eqn:O; simpl.
  - apply String.eqb_eq in O.
    destruct (String.eqb (fst r) name) eqn:E; [|exact IH].
    apply String.eqb_eq in E. rewrite <- E, O, String.eqb_refl in N. discriminate.
  - destruct (String.eqb (fst r) name); [reflexivity | exact IH].
Qed.

Lemma resolve_dot_ok name cur w name' w1 :
  resolve_dot name cur w = (Ok name', w1) ->
  w1 = w /\ (String.eqb name "." = false -> name' = name)
  /\ (String.eqb name "." = true -> cur = Some name').
Proof.
  unfold resolve_dot. destruct (String.eqb name ".").
  - destruct cur as [b|]; [|discriminate]. unfold ret. intros H. injection H as <- <-.
    repeat split; auto; discriminate.
  - unfold ret. intros H. injection H as <- <-. repeat split; auto; discriminate.
Qed.

Lemma assert_name_ok name w w1 :
  assert_name name w = (Ok tt, w1) ->
  w1 = w /\ exists c rest, name = String c rest /\ is_alnum c = true.
Proof.
  unfold assert_name. destruct name as [|c rest]; [discriminate|].
  destruct (is_alnum c) eqn:A; [|discriminate].
  unfold ret. intros H. injection H as <-. eauto.
Qed.

(** A rename, step by step: the same implicit commit as a copy, then the
    new branch, its worktree, the removal of the old ones and the
    provenance commit. *)
Lemma mv_steps w src dst w1 :
  mv src dst w = (Ok tt, w1) ->
  exists src' d h cid wc pid,
    (String.eqb src "." = false -> src' = src)
    /\ lookup_dir (join (basedir w) src') w = Some d
    /\ lookup_ref src' (heads w) = Some h
    /\ _commit src' None w = (Ok cid, wc)
    /\ lookup_ref src' (heads wc) = Some cid
    /\ (changes d = [] -> cid = h /\ wc = w)
    /\ (changes d <> [] ->
        cid = fresh_oid w
        /\ history wc
           = history w ++ [{| c_id := cid; c_on := src'; c_parent := Some h;
                              c_messages := ["Update " ++ quoted src']%string;
                              c_empty := false |}])
    /\ history w1
       = history wc
         ++ [provenance pid dst cid
               ("Rename " ++ quoted src' ++ " to " ++ quoted dst)].
Proof.
  intros H. unfold mv in H.
  apply bind_ok in H as [cur [w' [GB H]]].
  pose proof (_get_branch_readonly w) as RO. rewrite GB in RO. simpl in RO. subst w'.
  apply bind_ok in H as [src' [w' [RD H]]].
  apply resolve_dot_ok in RD as [-> [SD _]].
  apply bind_ok in H as [[] [w' [A1 H]]]. apply assert_name_ok in A1 as [-> _].
  apply bind_ok in H as [[] [w' [A2 H]]]. apply assert_name_ok in A2 as [-> _].
  apply bind_ok in H as [w' [w'' [G H]]]. injection G as <- <-.
  apply bind_ok in H as [[] [wa [CS H]]].
  pose proof (check_branch_ok _ _ _ _ _ CS) as [_ [_ [FS _]]].
  apply checked_out_ok in CS as [-> [d [h [L [G [A [N [R _]]]]]]]].
  apply bind_ok in H as [[] [wb [CD H]]].
  apply check_branch_ok in CD as [-> [_ [_ [FD _]]]].
  destruct (FD eq_refl) as [FD' _].
  pose proof (found_differs _ _ _ (FS eq_refl) FD') as NE.
  apply bind_ok in H as [cid [wc [C H]]].
  destruct (_commit_result _ _ _ _ _ _ L G A N R C) as [BD [_ [RC [_ [CL DI]]]]].
  apply bind_ok in H as [[] [w2 [CB H]]].
  apply create_branch_ok in CB as [c [RS [NH [NHD ->]]]].
  cbn [resolve] in RS. injection RS as <-.
  apply bind_ok in H as [[] [w3 [AW H]]].
  apply add_worktree_ok in AW as [c [RF [D [_ ->]]]].
  cbn [heads set_heads] in RF.
  rewrite (lookup_ref_app_new _ _ _ NH) in RF. injection RF as <-.
  rewrite <- BD in D, H.
  apply bind_ok in H as [[] [w4 [DW H]]].
  apply delete_worktree_ok in DW as [-> _].
  apply bind_ok in H as [[] [w5 [DB H]]].
  unfold delete_branch, refused in DB. apply guarded_ok in DB as [_ DB].
  revert DB. step.
  match goal with |- context [if ?b then _ else _] => destruct b end; [|discriminate].
  intros DB. injection DB as <-.
  apply bind_ok in H as [[] [w6 [CR H]]].
  unfold _commit_after_rename in CR.
  apply bind_ok in CR as [u [u' [G' CR]]]. injection G' as <- <-.
  apply bind_ok in CR as [pid [w7 [CM CR]]].
  revert CR. step. intros CR. injection CR as <-.
  apply commit_ok in CM as [d' [L' [G' [_ [-> ->]]]]].
  pose proof (worktree_deleted_fields src'
                (register_worktree (join (basedir wc) dst) dst cid
                   (set_heads (heads wc ++ [(dst, cid)]) wc))) as F.
  cbv zeta in F. destruct F as (FB & _ & _ & _ & FH & _ & FHI & _).
  cbn [basedir heads history register_worktree set_worktrees set_dirs set_heads]
    in FB, FH, FHI.
  pose proof (worktree_dirs_cleared_same_but_disk src'
                (worktrees wc ++ [{| wt_path := join (basedir wc) dst; wt_head := cid;
                                     wt_branch := dst |}])
                (register_worktree (join (basedir wc) dst) dst cid
                   (set_heads (heads wc ++ [(dst, cid)]) wc)))
    as (_ & _ & _ & _ & _ & FH' & _).
  cbn [heads register_worktree set_worktrees set_dirs set_heads] in FH'.
  assert (D' : d' = {| is_git := true; abbrev_ref := dst; changes := [] |}).
  { revert L'. unfold lookup_dir. cbn [dirs basedir set_heads].
    rewrite worktree_deleted_dirs, FB.
    cbn [dirs worktrees basedir set_heads set_worktrees set_dirs register_worktree].
    rewrite filter_app.
    rewrite find_app_none
      by (apply find_filter_none; apply (occupied_false_find _ _ D)).
    simpl. destruct (outside src' _ _); simpl; [|discriminate].
    rewrite String.eqb_refl. simpl. congruence. }
  subst d'.
  assert (NE' : String.eqb dst src' = false) by (now rewrite String.eqb_sym).
  assert (HW : exists pid, history w1 = history wc ++
            [provenance pid dst cid ("Rename " ++ quoted src' ++ " to " ++ quoted dst)]).
  { eexists. revert H. unfold print. step.
    destruct (option_string_eqb cur src'); unfold _cd; step; intros H;
      injection H as <-;
      cbn [history set_new_pwd set_io record_commit set_history set_heads
             set_worktrees set_dirs heads abbrev_ref changes];
      rewrite ?FH, ?FH', FHI, NHD, (lookup_ref_filter_other dst src' _ NE'),
        (lookup_ref_app_new _ _ _ NH); reflexivity. }
  destruct HW as [pid HW]. exists src', d, h, cid, wc, pid.
  split; [exact SD|]. split; [exact L|]. split; [exact R|]. split; [exact C|].
  split; [exact RC|]. split; [exact CL|]. split; [exact DI|]. exact HW.
Qed.

(** *** The implicit commit of a copy or a rename *)

(** The source [src] with directory state [d] and head [h] in [w]; [wc] is
    the state after [_commit(src)], which returned [cid]; [w1] is the state
    at the end, whose last commit is the provenance commit on [dst]. *)
Definition forks_at_commit (w : world) (src dst verb : string) (w1 : world) : Prop :=
  exists d h cid wc pid,
    lookup_dir (join (basedir w) src) w = Some d
    /\ lookup_ref src (heads w) = Some h
    /\ _commit src None w = (Ok cid, wc)
    /\ lookup_ref src (heads wc) = Some cid
    /\ (changes d = [] -> cid = h /\ wc = w)
    /\ (changes d <> [] ->
        cid = fresh_oid w
        /\ history wc
           = history w ++ [{| c_id := cid; c_on := src; c_parent := Some h;
                              c_messages := ["Update " ++ quoted src]%string;
                              c_empty := false |}])
    /\ history w1
       = history wc
         ++ [provenance pid dst cid
               (verb ++ " " ++ quoted src ++ " to " ++ quoted dst)].

(** C1 as stated fails: copying the checked-out branch [a], whose work
    tree has no pending change, makes no commit on [a]; the only commit of
    the copy is the provenance commit on [b], and [a] stays where it was. *)
Lemma copy_of_clean_branch_commits_nothing :
  mem "a" (_list_checked_out_branches Scenarios.clean_project) = true
  /\ option_map changes (lookup_dir "/p/a" Scenarios.clean_project) = Some []
  /\ fst (_cp "a" "b" Scenarios.clean_project) = Ok tt
  /\ map c_on (history (snd (_cp "a" "b" Scenarios.clean_project))) = ["b"]
  /\ lookup_ref "a" (heads (snd (_cp "a" "b" Scenarios.clean_project)))
     = lookup_ref "a" (heads Scenarios.clean_project)
  /\ _commit "a" None Scenarios.clean_project = (Ok 1, Scenarios.clean_project).
Proof. repeat split; vm_compute; reflexivity. Qed.

(** C1, amended: a copy ([_cp]) of a checked-out branch and a rename ([mv])
    call [_commit] on the source before the destination branch is created.
    With pending changes [_commit] makes one commit on the source, with
    the message [Update "src"], and returns its id; with no pending change
    it makes no commit and returns the id the source branch is at, leaving
    the state as it was. Either way the source branch is at the returned id
    and the destination branch starts there: the provenance commit on the
    destination has that id as its parent. *)
Theorem copy_and_rename_commit_pending_changes :
  (forall w src dst w1,
      mem src (_list_checked_out_branches w) = true ->
      _cp src dst w = (Ok tt, w1) ->
      forks_at_commit w src dst "Checkout" w1)
  /\ (forall w src dst w1,
         mv src dst w = (Ok tt, w1) ->
         exists src', (String.eqb src "." = false -> src' = src)
                      /\ forks_at_commit w src' dst "Rename" w1).
Proof.
  split.
  - intros w src dst w1 CO H.
    destruct (_cp_checked_out w src dst w1 CO H)
      as [d [h [cid [wc [pid X]]]]].
    exists d, h, cid, wc, pid. exact X.
  - intros w src dst w1 H.
    destruct (mv_steps w src dst w1 H) as [src' [d [h [cid [wc [pid [SD X]]]]]]].
    exists src'. split; [exact SD|]. exists d, h, cid, wc, pid. exact X.
Qed.

Lemma copy_and_rename_commit_pending_changes_witness :
  forks_at_commit Scenarios.dirty_project "a" "b" "Checkout"
    (snd (_cp "a" "b" Scenarios.dirty_project))
  /\ exists src',
      forks_at_commit Scenarios.dirty_project src' "c" "Rename"
        (snd (mv "a" "c" Scenarios.dirty_project)).
Proof.
  destruct copy_and_rename_commit_pending_changes as [CP MV]. split.
  - apply CP; vm_compute; reflexivity.
  - destruct (MV Scenarios.dirty_project "a" "c"
                (snd (mv "a" "c" Scenarios.dirty_project)))
      as [src' [_ F]]; [vm_compute; reflexivity|].
    exists src'. exact F.
Defined.

(** Two states that hold the same names. *)
Definition same_names (w w' : world) : Prop :=
  basedir w' = basedir w /\ repo_dir w' = repo_dir w
  /\ remote_heads w' = remote_heads w
  /\ dir_names w' = dir_names w /\ wt_keys w' = wt_keys w
  /\ all_heads w' = all_heads w /\ uprooted w' = uprooted w.

(** [w1] holds the names of [w] and, last in each list, the directory, the
    worktree entry and the ref of the new experiment [dst]. *)
Definition extended (w w1 : world) (dst : string) : Prop :=
  basedir w1 = basedir w /\ repo_dir w1 = repo_dir w
  /\ remote_heads w1 = remote_heads w
  /\ dir_names w1 = dir_names w ++ [join (basedir w) dst]
  /\ wt_keys w1 = wt_keys w ++ [(join (basedir w) dst, dst)]
  /\ all_heads w1 = all_heads w ++ [dst] /\ uprooted w1 = uprooted w.

Lemma same_names_refl w : same_names w w.
Proof. unfold same_names. auto 10. Qed.

Lemma same_names_isdir w w' p : same_names w w' -> isdir w' p = isdir w p.
Proof. intros (_ & _ & _ & D & _ & _ & U). now apply isdir_same_names. Qed.

Lemma same_names_presence w w' name :
  same_names w w' -> presence_of w' name = presence_of w name.
Proof.
  intros S. pose proof (same_names_isdir w w' (join (basedir w) name) S) as I.
  destruct S as [B [_ [R [D [K [H U]]]]]].
  unfold presence_of, list_local_branches, list_remote_branches.
  rewrite !worktree_branches_keys, B, R, I, K, H. reflexivity.
Qed.

Lemma set_ref_present_names name c hs :
  mem name (map fst hs) = true -> map fst (set_ref name c hs) = map fst hs.
Proof.
  intros H. unfold set_ref. rewrite H. clear H.
  induction hs as [|r hs IH]; simpl; [reflexivity|].
  rewrite IH. destruct (String.eqb (fst r) name) eqn:E; [|reflexivity].
  apply String.eqb_eq in E. simpl. now rewrite E.
Qed.

(** A commit on a branch that exists, or on a detached [HEAD], changes no
    name. *)
Lemma record_commit_names path msgs d c w :
  (String.eqb (abbrev_ref d) "HEAD" = false ->
   mem (abbrev_ref d) (all_heads w) = true) ->
  same_names w (record_commit path msgs d c w).
Proof.
  intros P. unfold same_names, dir_names, wt_keys, all_heads, record_commit.
  cbn [basedir repo_dir remote_heads dirs uprooted worktrees heads set_history set_heads
         set_worktrees set_dirs].
  split; [reflexivity|]. split; [reflexivity|]. split; [reflexivity|].
  split; [|split; [|split; [|reflexivity]]].
  - rewrite map_map. apply map_ext. intros e.
    now destruct (String.eqb (fst e) path).
  - rewrite map_map. apply map_ext. intros t.
    now destruct (String.eqb (wt_path t) path).
  - destruct (String.eqb (abbrev_ref d) "HEAD"); [reflexivity|].
    apply set_ref_present_names. now apply P.
Qed.

Lemma _commit_same_names branch w d h cid wc :
  lookup_dir (join (basedir w) branch) w = Some d -> is_git d = true ->
  abbrev_ref d = branch -> lookup_ref branch (heads w) = Some h ->
  _commit branch None w = (Ok cid, wc) ->
  same_names w wc.
Proof.
  intros L G A R C. destruct (changes d) as [|x xs] eqn:E.
  - rewrite (_commit_clean _ _ _ _ _ L G R E) in C. injection C as _ <-.
    apply same_names_refl.
  - assert (E' : changes d <> []) by congruence.
    rewrite (_commit_dirty _ _ _ _ L G R E') in C.
    apply commit_ok in C as [d' [L' [_ [_ [_ ->]]]]].
    rewrite L in L'. injection L' as <-.
    apply record_commit_names. intros _. rewrite A.
    apply (lookup_ref_mem _ _ _ R).
Qed.

Lemma find_map_key {A : Type} (g : string * A -> string * A) p (l : list (string * A)) :
  (forall e, fst (g e) = fst e) ->
  find (fun e => String.eqb (fst e) p) (map g l)
  = option_map g (find (fun e => String.eqb (fst e) p) l).
Proof.
  intros K. induction l as [|e l IH]; simpl; [reflexivity|].
  rewrite K. destruct (String.eqb (fst e) p); [reflexivity | exact IH].
Qed.

(** The end of [_cp]: the worktree of the new branch and its provenance
    commit add the names of [dst] and nothing else. *)
Lemma _cp_tail w wc src dst c w1 :
  same_names w wc ->
  String.eqb src dst = false ->
  mem dst (all_heads wc) = false ->
  (add_worktree (join (basedir w) dst) dst ;;
   if String.eqb src dst
   then print ("Successfully checked out " ++ quoted src)
   else _commit_after_checkout src dst ;;
        print ("Successfully checked out " ++ quoted src ++ " to " ++ quoted dst))
    (set_heads (heads wc ++ [(dst, c)]) wc) = (Ok tt, w1) ->
  extended w w1 dst
  /\ occupied w (join (basedir w) dst) = false
  /\ mem dst (list_worktree_branches w) = false
  /\ isdir w (repo_dir w) = true
  /\ lookup_dir (join (basedir w) dst) w1
     = Some {| is_git := true; abbrev_ref := dst; changes := [] |}.
Proof.
  intros SN NE NH H. pose proof (same_names_isdir _ _ (repo_dir w) SN) as IR.
  destruct SN as [B [RD [R [DN [K [HN U]]]]]]. rewrite NE in H.
  apply bind_ok in H as [[] [w3 [AW H]]].
  pose proof (add_worktree_alive _ _ _ _ AW) as AL.
  apply add_worktree_ok in AW as [c' [RF [D [NW ->]]]].
  cbn [heads set_heads] in RF.
  rewrite (lookup_ref_app_new _ _ _ NH) in RF. injection RF as <-.
  assert (D' : occupied wc (join (basedir wc) dst) = false) by (rewrite B; exact D).
  assert (L : lookup_dir (join (basedir wc) dst)
                (register_worktree (join (basedir wc) dst) dst c
                   (set_heads (heads wc ++ [(dst, c)]) wc))
              = Some {| is_git := true; abbrev_ref := dst; changes := [] |})
    by (apply (lookup_dir_registered (set_heads (heads wc ++ [(dst, c)]) wc)); exact D').
  assert (AL3 : isdir (register_worktree (join (basedir wc) dst) dst c
                         (set_heads (heads wc ++ [(dst, c)]) wc))
                      (repo_dir wc) = true)
    by (apply (isdir_registered wc); exact AL).
  rewrite <- B in H. unfold _commit_after_checkout, print in H. revert H. step.
  cbn [basedir register_worktree set_worktrees set_dirs set_heads].
  rewrite (commit_step _ _ _ _ L eq_refl AL3). cbn [fst snd].
  intros H. injection H as <-.
  set (w3 := register_worktree (join (basedir wc) dst) dst c
               (set_heads (heads wc ++ [(dst, c)]) wc)).
  assert (S : forall msgs,
             same_names w3 (record_commit (join (basedir wc) dst) msgs
                {| is_git := true; abbrev_ref := dst; changes := [] |}
                (fresh_oid w3) w3)).
  { intros msgs. apply record_commit_names. intros _. cbn [abbrev_ref].
    unfold all_heads, w3. cbn [heads register_worktree set_worktrees set_dirs set_heads].
    rewrite map_app. apply mem_In. apply in_or_app. right. now left. }
  split; [|split; [|split; [|split]]].
  - unfold extended. cbn [basedir repo_dir remote_heads uprooted set_io].
    match goal with |- context [record_commit _ ?m _ _ _] =>
      destruct (S m) as [B' [RD' [R' [DN' [K' [HN' U']]]]]] end.
    unfold dir_names, wt_keys, all_heads in *. cbn [dirs worktrees heads set_io].
    rewrite B', RD', R', DN', K', HN', U'. unfold w3.
    cbn [basedir repo_dir remote_heads dirs uprooted worktrees heads register_worktree
           set_worktrees set_dirs set_heads].
    rewrite !map_app, DN, K, HN, B, U. cbn [map fst wt_key wt_path wt_branch].
    auto 10.
  - rewrite occupied_dir_names in *. cbn [dirs set_heads] in D.
    unfold dir_names in *. cbn [dirs set_heads] in D. now rewrite <- DN.
  - rewrite worktree_branches_keys in *. unfold wt_keys in *.
    cbn [worktrees set_heads] in NW. now rewrite <- K.
  - rewrite <- IR, <- RD. exact AL.
  - unfold lookup_dir in *. cbn [dirs set_io record_commit set_history set_heads
      set_worktrees set_dirs].
    rewrite find_map_key
      by (intros e; destruct (String.eqb (fst e) (join (basedir wc) dst)); reflexivity).
    rewrite <- B. fold w3 in L.
    destruct (find _ (dirs w3)) as [e|] eqn:F; [|discriminate].
    cbn [option_map] in *. injection L as L.
    apply find_some in F as [_ F]. rewrite F. cbn [snd]. now rewrite L.
Qed.

(** Every worktree entry of [name] has its directory on disk. *)
Definition worktrees_on_disk (w : world) (name : string) : Prop :=
  forall t, In t (worktrees w) -> wt_branch t = name -> isdir w (wt_path t) = true.

Lemma lookup_dir_occupied w p d : lookup_dir p w = Some d -> occupied w p = true.
Proof.
  unfold lookup_dir, occupied. destruct (find _ (dirs w)) as [e|] eqn:F; [|discriminate].
  intros _. apply find_some in F as [I E]. apply String.eqb_eq in E.
  apply existsb_exists. exists e. split; [assumption|]. rewrite E. apply under_refl.
Qed.

Lemma lookup_dir_isdir w p d : lookup_dir p w = Some d -> isdir w p = true.
Proof. intros L. apply occupied_isdir. now apply (lookup_dir_occupied w p d). Qed.

Lemma no_entry_on_disk w name :
  mem name (list_worktree_branches w) = false -> worktrees_on_disk w name.
Proof.
  intros N t I B. exfalso. apply mem_false_In in N. apply N.
  unfold list_worktree_branches, list_worktrees. rewrite <- B. now apply in_map.
Qed.

(** A successful copy to another name adds the names of [dst], and only
    succeeds where nothing was at the place of [dst] and [dst] had no
    worktree entry and no ref. *)
Lemma _cp_extends w src dst w1 :
  String.eqb src dst = false ->
  _cp src dst w = (Ok tt, w1) ->
  extended w w1 dst
  /\ occupied w (join (basedir w) dst) = false
  /\ mem dst (list_worktree_branches w) = false
  /\ mem dst (all_heads w) = false
  /\ worktrees_on_disk w src
  /\ isdir w (repo_dir w) = true
  /\ lookup_dir (join (basedir w) dst) w1
     = Some {| is_git := true; abbrev_ref := dst; changes := [] |}.
Proof.
  intros NE H. unfold _cp in H.
  apply bind_ok in H as [w' [w'' [G H]]]. injection G as <- <-.
  apply bind_ok in H as [[] [w2 [B H]]].
  destruct (mem src (_list_checked_out_branches w)) eqn:CO.
  - apply bind_ok in B as [[] [wa [CS B]]].
    pose proof (check_branch_ok _ _ _ _ _ CS) as [_ [DV _]].
    apply checked_out_ok in CS as [-> [d [h [L [G [A [N [R _]]]]]]]].
    apply bind_ok in B as [[] [wb [CD B]]].
    apply check_branch_ok in CD as [-> _].
    apply bind_ok in B as [cid [wc [C B]]].
    pose proof (_commit_same_names _ _ _ _ _ _ L G A R C) as SN.
    apply create_branch_ok in B as [c [_ [NH [_ ->]]]].
    destruct (_cp_tail w wc src dst c w1 SN NE NH H) as [E [D [W [AL LD]]]].
    split; [exact E|]. split; [exact D|]. split; [exact W|].
    split; [|split; [|split]].
    + destruct SN as [_ [_ [_ [_ [_ [HN _]]]]]]. now rewrite <- HN.
    + intros t I Bt. rewrite (proj1 (deviating_entry_none w src) DV t I Bt).
      eapply lookup_dir_isdir; eassumption.
    + exact AL.
    + exact LD.
  - destruct (mem src (list_local_branches w)) eqn:LO.
    + apply bind_ok in B as [[] [wa [CS B]]].
      apply check_branch_ok in CS as [-> [DV [_ [FS _]]]].
      destruct (FS eq_refl) as [NF _].
      rewrite NE in B. cbn [negb] in B.
      apply bind_ok in B as [[] [wb [CD B]]].
      apply check_branch_ok in CD as [-> _].
      apply create_branch_ok in B as [c [_ [NH [_ ->]]]].
      destruct (_cp_tail w w src dst c w1 (same_names_refl w) NE NH H)
        as [E [D [W [AL LD]]]].
      split; [exact E|]. split; [exact D|]. split; [exact W|]. split; [exact NH|].
      split; [|split; [exact AL | exact LD]].
      apply no_entry_on_disk. now apply not_found_no_entry.
    + destruct (mem src (list_remote_branches w)) eqn:RE; [|discriminate].
      apply bind_ok in B as [[] [wa [CS B]]].
      apply check_branch_ok in CS as [-> [DV [_ [FS _]]]].
      destruct (FS eq_refl) as [NF _].
      apply bind_ok in B as [[] [wb [CD B]]].
      apply check_branch_ok in CD as [-> _].
      apply fetch_ok in B as [c [_ [NH ->]]].
      destruct (_cp_tail w w src dst c w1 (same_names_refl w) NE NH H)
        as [E [D [W [AL LD]]]].
      split; [exact E|]. split; [exact D|]. split; [exact W|]. split; [exact NH|].
      split; [|split; [exact AL | exact LD]].
      apply no_entry_on_disk. now apply not_found_no_entry.
Qed.

Lemma existsb_false_In {A : Type} (f : A -> bool) (l : list A) x :
  existsb f l = false -> In x l -> f x = false.
Proof.
  intros E I. destruct (f x) eqn:F; [|reflexivity].
  rewrite <- E. symmetry. apply existsb_exists. eauto.
Qed.

Lemma map_filter_key {A B : Type} (key : A -> B) (g : B -> bool) (l : list A) :
  map key (filter (fun x => g (key x)) l) = filter g (map key l).
Proof.
  induction l as [|x l IH]; simpl; [reflexivity|].
  destruct (g (key x)); simpl; now rewrite IH.
Qed.

Lemma alnum_not_control c rest :
  is_alnum c = true -> startswith "__" (String c rest) = false.
Proof.
  intros A. unfold startswith.
  change (String.prefix "__" (String c rest))
    with (if ascii_dec "_" c then String.prefix "_" rest else false).
  destruct (ascii_dec "_" c) as [<-|]; [discriminate | reflexivity].
Qed.

(** The loop of [delete_worktree] leaves the state alone where no worktree
    of [branch] has a directory. *)
Lemma worktree_dirs_cleared_idle branch listed :
  forall w,
    (forall t, In t listed -> wt_branch t = branch -> isdir w (wt_path t) = false) ->
    worktree_dirs_cleared branch listed w = w.
Proof.
  induction listed as [|t rest IH]; intros w G; [reflexivity|].
  cbn [worktree_dirs_cleared].
  destruct (String.eqb_spec (wt_branch t) branch) as [B|B].
  - unfold cleared. rewrite (G t (or_introl eq_refl) B).
    apply IH. intros t' I. apply G. now right.
  - apply IH. intros t' I. apply G. now right.
Qed.

(** On disk the removal block of [rm] is its two removals of directories. *)
Lemma removed_disk branch w :
  let w' := worktree_dirs_cleared branch (worktrees w)
              (cleared (join (basedir w) branch) w) in
  dirs (removed branch w) = dirs w' /\ uprooted (removed branch w) = uprooted w'.
Proof.
  cbv zeta.
  assert (X : dirs (removed branch w)
              = dirs (worktree_removed branch (expdir_removed branch w))
              /\ uprooted (removed branch w)
                 = uprooted (worktree_removed branch (expdir_removed branch w))).
  { unfold removed. destruct (present_locally w branch);
      cbn [dirs uprooted printed set_io];
      now rewrite branch_removed_dirs, branch_removed_uprooted. }
  destruct X as [-> ->].
  assert (Y : forall x,
             dirs (worktree_removed branch x)
             = dirs (worktree_dirs_cleared branch (worktrees x) x)
             /\ uprooted (worktree_removed branch x)
                = uprooted (worktree_dirs_cleared branch (worktrees x) x)).
  { intros x. unfold worktree_removed.
    destruct (mem branch (list_worktree_branches x)) eqn:M.
    - split; reflexivity.
    - now rewrite worktree_dirs_cleared_absent. }
  destruct (Y (expdir_removed branch w)) as [-> ->].
  rewrite expdir_removed_worktrees.
  destruct (expdir_removed_disk branch w) as [D U].
  now apply worktree_dirs_cleared_same_disk.
Qed.

(** Removing [dst] right after it was added leaves the directories and the
    refs of before, the tree of [dst] among those that were removed, and
    the worktree entries whose directory is there. *)
Lemma removed_after_extension w w1 dst :
  extended w w1 dst ->
  occupied w (join (basedir w) dst) = false ->
  mem dst (list_worktree_branches w) = false ->
  mem dst (all_heads w) = false ->
  startswith "__" dst = false ->
  basedir (removed dst w1) = basedir w
  /\ repo_dir (removed dst w1) = repo_dir w
  /\ remote_heads (removed dst w1) = remote_heads w
  /\ dir_names (removed dst w1) = dir_names w
  /\ uprooted (removed dst w1)
     = filter (fun q => negb (under (join (basedir w) dst) q)) (uprooted w)
       ++ [join (basedir w) dst]
  /\ wt_keys (removed dst w1)
     = filter (fun k => isdir (removed dst w1) (fst k)) (wt_keys w)
  /\ all_heads (removed dst w1) = all_heads w.
Proof.
  intros [B [RD [R [DN [K [HN U]]]]]] D W H C.
  rewrite occupied_dir_names in D. rewrite worktree_branches_keys in W.
  destruct (removed_spec dst w1) as [B1 [RD1 [_ [R1 [_ [_ [_ [_ [G1 _]]]]]]]]].
  rewrite B in G1.
  assert (DN1 : dir_names (removed dst w1) = dir_names w).
  { unfold dir_names at 1. rewrite removed_dirs, B. unfold without.
    rewrite (filter_ext _ _ (outside_keys dst (worktrees w1))).
    rewrite (map_filter_fst
               (fun k => negb (existsb (fun kb => String.eqb (snd kb) dst
                                                  && under (fst kb) k)
                                       (map wt_key (worktrees w1))))).
    rewrite (map_filter_fst (fun k => negb (under (join (basedir w) dst) k))).
    fold (dir_names w1). fold (wt_keys w1). rewrite DN, K, filter_app.
    cbn [filter]. rewrite under_refl. cbn [negb]. rewrite app_nil_r.
    rewrite (filter_true _ (dir_names w))
      by (intros k I; apply negb_true_iff; now apply (existsb_false_In _ _ _ D)).
    apply filter_true. intros k I. apply negb_true_iff.
    rewrite existsb_app. cbn [existsb fst snd].
    rewrite (existsb_false_In _ _ _ D I), andb_false_r, !orb_false_r.
    clear - W. induction (wt_keys w) as [|kb ks IH]; [reflexivity|].
    simpl in W |- *. apply orb_false_iff in W as [E W].
    rewrite String.eqb_sym, E. simpl. now apply IH. }
  assert (I1 : isdir w1 (join (basedir w) dst) = true).
  { apply occupied_isdir. rewrite occupied_dir_names, DN, existsb_app.
    cbn [existsb]. rewrite under_refl. apply orb_true_r. }
  assert (U1 : uprooted (removed dst w1)
               = filter (fun q => negb (under (join (basedir w) dst) q)) (uprooted w)
                 ++ [join (basedir w) dst]).
  { destruct (removed_disk dst w1) as [_ ->]. rewrite B. unfold cleared. rewrite I1.
    rewrite worktree_dirs_cleared_idle.
    - unfold uproot. cbn [uprooted set_uprooted set_dirs]. now rewrite U.
    - intros t I Bt.
      assert (P : wt_path t = join (basedir w) dst).
      { assert (IK : In (wt_key t) (wt_keys w1)) by (unfold wt_keys; now apply in_map).
        rewrite K in IK. apply in_app_or in IK as [IK|[IK|[]]].
        - exfalso. apply mem_false_In in W. apply W. apply in_map_iff.
          exists (wt_key t). split; [exact Bt | exact IK].
        - now injection IK. }
      rewrite P. apply uproot_isdir_self. }
  split; [now rewrite B1|]. split; [now rewrite RD1|]. split; [now rewrite R1|].
  split; [exact DN1|]. split; [exact U1|]. split.
  - unfold wt_keys at 1. rewrite removed_worktrees, worktree_branches_keys, K.
    rewrite map_app. cbn [map snd].
    assert (M : mem dst (map snd (wt_keys w) ++ [dst]) = true)
      by (apply mem_In, in_or_app; right; now left).
    rewrite M.
    rewrite (filter_ext _ (fun t => isdir (removed dst w1) (fst (wt_key t))))
      by reflexivity.
    rewrite (map_filter_key wt_key (fun k => isdir (removed dst w1) (fst k))).
    fold (wt_keys w1). rewrite K, filter_app. cbn [filter fst].
    rewrite G1. now rewrite app_nil_r.
  - unfold all_heads at 1. rewrite removed_heads.
    assert (M : mem dst (list_local_branches w1) = true).
    { apply mem_In. unfold list_local_branches. apply filter_In. split.
      - rewrite HN. apply in_or_app. right. now left.
      - now rewrite C. }
    rewrite M.
    rewrite (map_filter_fst (fun n => negb (String.eqb n dst))).
    fold (all_heads w1). rewrite HN, filter_app. cbn [filter].
    rewrite String.eqb_refl. cbn [negb]. rewrite app_nil_r.
    apply filter_true. intros n I. apply negb_true_iff.
    destruct (String.eqb_spec n dst) as [->|]; [|reflexivity].
    apply mem_In in I. congruence.
Qed.

(** After the round trip every directory that was there is there. *)
Lemma round_trip_keeps w w2 conv q :
  isdir w conv = false ->
  dir_names w2 = dir_names w ->
  uprooted w2 = filter (fun s => negb (under conv s)) (uprooted w) ++ [conv] ->
  isdir w q = true -> isdir w2 q = true.
Proof.
  intros ID DN U H. unfold isdir in *. rewrite occupied_dir_names in *.
  rewrite DN, U. apply orb_true_iff in H as [H|H]; [now rewrite H|].
  apply orb_true_iff. right. rewrite existsb_app. cbn [existsb]. rewrite orb_false_r.
  apply existsb_exists in H as [s [I Bs]].
  apply orb_false_iff in ID as [_ ID].
  destruct (under conv s) eqn:Us.
  - unfold under in Us. apply orb_true_iff in Us as [E|Bc].
    + apply String.eqb_eq in E. subst s. rewrite Bs. apply orb_true_r.
    + exfalso. pose proof (existsb_false_In _ _ s ID I) as N.
      unfold below in N. congruence.
  - apply orb_true_iff. left. apply existsb_exists. exists s. split; [|exact Bs].
    apply filter_In. split; [exact I|]. now rewrite Us.
Qed.

(** It has made no directory, when the one that holds the new experiment
    directory was there before. *)
Lemma round_trip_adds_nothing w w2 conv q :
  isdir w (dirname conv) = true ->
  endswith_sep q = false ->
  dir_names w2 = dir_names w ->
  uprooted w2 = filter (fun s => negb (under conv s)) (uprooted w) ++ [conv] ->
  isdir w2 q = true -> isdir w q = true.
Proof.
  intros P E DN U H. unfold isdir in H.
  rewrite occupied_dir_names, DN, U, <- occupied_dir_names in H.
  apply orb_true_iff in H as [H|H]; [now apply occupied_isdir|].
  rewrite existsb_app in H. apply orb_true_iff in H as [H|H].
  - apply existsb_filter_true in H. unfold isdir. rewrite H. apply orb_true_r.
  - cbn [existsb] in H. rewrite orb_false_r in H.
    apply (isdir_above w q (dirname conv)); [now apply below_dirname | exact P].
Qed.

(** With the directories of before and the worktree entries that have
    theirs, every branch whose worktrees were on disk is where it was. *)
Lemma presence_restored w w2 name :
  basedir w2 = basedir w ->
  remote_heads w2 = remote_heads w ->
  (forall q, isdir w q = true -> isdir w2 q = true) ->
  (isdir w2 (join (basedir w) name) = true -> isdir w (join (basedir w) name) = true) ->
  wt_keys w2 = filter (fun k => isdir w2 (fst k)) (wt_keys w) ->
  all_heads w2 = all_heads w ->
  worktrees_on_disk w name ->
  presence_of w2 name = presence_of w name.
Proof.
  intros B R KEEP NEW K H O. unfold presence_of, list_local_branches, list_remote_branches.
  rewrite !worktree_branches_keys, B, R, K, H.
  f_equal.
  - destruct (isdir w (join (basedir w) name)) eqn:E; [now apply KEEP|].
    apply not_true_is_false. intros E2. apply NEW in E2. discriminate E2.
  - destruct (mem name (map snd (wt_keys w))) eqn:M.
    + apply mem_In in M. apply mem_In. unfold wt_keys in *.
      rewrite map_map in M. apply in_map_iff in M as [t [E I]]. simpl in E.
      apply in_map_iff. exists (wt_key t). split; [exact E|].
      apply filter_In. split; [now apply in_map|].
      cbn [fst wt_key]. apply KEEP. now apply O.
    + apply mem_false_In. apply mem_false_In in M. intros I. apply M.
      apply in_map_iff in I as [k [E I]]. apply filter_In in I as [I _].
      apply in_map_iff. eauto.
Qed.

Lemma strip_alnum_nonempty c rest :
  is_alnum c = true -> is_empty (strip "./" (String c rest)) = false.
Proof.
  intros A. unfold strip.
  assert (N : char_in c "./" = false).
  { cbn [char_in]. destruct (Ascii.eqb_spec c ".") as [->|]; [discriminate|].
    destruct (Ascii.eqb_spec c "/") as [->|]; [discriminate | reflexivity]. }
  cbn [lstrip]. rewrite N. cbn [rstrip]. rewrite N.
  now rewrite andb_false_r.
Qed.

(** C6 as stated fails for a destination in a directory that is not there
    yet: [git worktree add] makes the directories above the new work tree,
    and [rm] removes the work tree and leaves them. After [cp r r/b] and
    [rm r/b] in a project where [r] is known to the remote only, [r/b] is
    in none of the four namespaces, as before, and [r] has a directory,
    which it had not. *)
Lemma copy_then_remove_leaves_directory :
  "r" <> "r/b"
  /\ presence_of Scenarios.clean_project "r"
     = {| in_directory := false; in_worktree := false; in_local := false;
          in_remote := true |}
  /\ presence_of Scenarios.clean_project "r/b" = absent
  /\ exists w1 w2,
      cp "r" "r/b" Scenarios.clean_project = (Ok tt, w1)
      /\ new_pwd w1 = Some "/p/r/b"
      /\ rm "r/b" true (chdir "r/b" w1) = (Ok tt, w2)
      /\ presence_of w2 "r/b" = absent
      /\ presence_of w2 "r"
         = {| in_directory := true; in_worktree := false; in_local := false;
              in_remote := true |}.
Proof.
  split; [discriminate|]. split; [reflexivity|]. split; [reflexivity|].
  eexists. eexists. split; [vm_compute; reflexivity|].
  split; [reflexivity|]. split; [vm_compute; reflexivity|].
  split; vm_compute; reflexivity.
Qed.

(** C6, amended: for distinct names [src] and [dst] in normal form, with
    [dst] in none of the four namespaces and the directory that is to hold
    the experiment directory of [dst] on disk already, after a copy
    [cp src dst] that succeeded, [rm dst] with the confirmation given
    succeeds and leaves [dst] in none of the four namespaces, as before the
    copy, and [src] in the namespaces it was in. This holds from any place
    where [rm] can read the current branch; the new experiment directory,
    where the shell wrapper takes the caller after the copy, is such a
    place. *)
Theorem copy_then_remove_restores (w : world) (src dst : string) (w1 : world) :
  src <> dst ->
  normal src = true -> normal dst = true ->
  isdir w (dirname (join (basedir w) dst)) = true ->
  presence_of w dst = absent ->
  cp src dst w = (Ok tt, w1) ->
  new_pwd w1 = Some (join (basedir w1) dst)
  /\ fst (_get_branch (chdir dst w1)) = Ok (Subprocess.branch_of_abbrev_ref dst)
  /\ forall rel cur,
      fst (_get_branch (chdir rel w1)) = Ok cur ->
      exists w2,
        rm dst true (chdir rel w1) = (Ok tt, w2)
        /\ presence_of w2 dst = presence_of w dst
        /\ presence_of w2 src = presence_of w src.
Proof.
  intros NE NS ND PD AB H.
  apply String.eqb_neq in NE.
  assert (NDOT : String.eqb src "." = false)
    by (destruct (String.eqb_spec src "."); [subst; discriminate NS | reflexivity]).
  unfold cp in H. rewrite NDOT in H.
  apply bind_ok in H as [src' [w' [RS H]]]. unfold ret in RS. injection RS as <- <-.
  apply bind_ok in H as [[] [w' [A1 H]]]. apply assert_name_ok in A1 as [-> _].
  apply bind_ok in H as [[] [w' [A2 H]]].
  apply assert_name_ok in A2 as [-> [c [rest [-> A]]]].
  apply bind_ok in H as [w' [w'' [G' H]]]. injection G' as <- <-.
  apply bind_ok in H as [[] [wa [CP H]]].
  unfold _cd, modify in H. injection H as <-.
  destruct (_cp_extends _ _ _ _ NE CP) as [E [D [W [HN [O [AL LD]]]]]].
  assert (BD : basedir wa = basedir w) by (now destruct E).
  assert (ID : isdir w (join (basedir w) (String c rest)) = false)
    by (now injection AB).
  split; [cbn [new_pwd basedir set_new_pwd]; now rewrite BD|]. split.
  - unfold _get_branch, get_current_branch. step.
    cbn [cwd_rel basedir chdir set_new_pwd]. rewrite (strip_alnum_nonempty _ _ A), BD.
    assert (LD' : lookup_dir (join (basedir w) (String c rest))
                    (chdir (String c rest)
                       (set_new_pwd (Some (join (basedir w) (String c rest))) wa))
                  = Some {| is_git := true; abbrev_ref := String c rest; changes := [] |})
      by exact LD.
    rewrite (open_repo_step _ _ _ LD' eq_refl). reflexivity.
  - intros rel cur G.
    set (w1 := chdir rel (set_new_pwd (Some (join (basedir w) (String c rest))) wa))
      in *.
    assert (E' : extended w w1 (String c rest)) by exact E.
    destruct (removed_after_extension _ _ _ E' D W HN (alnum_not_control c rest A))
      as [B2 [RD2 [R2 [D2 [U2 [K2 H2]]]]]].
    assert (KEEP : forall q, isdir w q = true ->
                             isdir (removed (String c rest) w1) q = true)
      by (intros q; now apply (round_trip_keeps w _ (join (basedir w) (String c rest)))).
    assert (NEW : forall name,
               normal name = true ->
               isdir (removed (String c rest) w1) (join (basedir w) name) = true ->
               isdir w (join (basedir w) name) = true).
    { intros name N.
      apply (round_trip_adds_nothing w _ (join (basedir w) (String c rest)));
        [exact PD | now apply join_normal | exact D2 | exact U2]. }
    assert (SP : spared w1 (String c rest) = true).
    { rewrite spared_removed. destruct E' as [_ [RD' _]]. rewrite RD'. now apply KEEP. }
    assert (PR : forall name,
               normal name = true -> worktrees_on_disk w name ->
               presence_of (removed (String c rest) w1) name = presence_of w name)
      by (intros name N ON; apply presence_restored; auto).
    rewrite (rm_eq _ c rest cur A G SP).
    eexists. split; [reflexivity|].
    split.
    + destruct (option_string_eqb cur (String c rest));
        exact (PR _ ND (no_entry_on_disk _ _ W)).
    + destruct (option_string_eqb cur (String c rest)); exact (PR _ NS O).
Qed.

Lemma copy_then_remove_restores_witness :
  exists w2,
    rm "b" true (chdir "b" (snd (cp "a" "b" Scenarios.dirty_project))) = (Ok tt, w2)
    /\ presence_of w2 "b" = presence_of Scenarios.dirty_project "b"
    /\ presence_of w2 "a" = presence_of Scenarios.dirty_project "a".
Proof.
  destruct (copy_then_remove_restores Scenarios.dirty_project "a" "b"
              (snd (cp "a" "b" Scenarios.dirty_project))) as [_ [G R]].
  - discriminate.
  - reflexivity.
  - reflexivity.
  - reflexivity.
  - vm_compute. reflexivity.
  - vm_compute. reflexivity.
  - exact (R "b" _ G).
Defined.

(** The same round trip from a branch that only the remote has. *)
Example copy_from_remote_then_remove :
  exists w2,
    rm "b" true (snd (cp "r" "b" Scenarios.clean_project)) = (Ok tt, w2)
    /\ presence_of w2 "b" = absent
    /\ presence_of w2 "r" = presence_of Scenarios.clean_project "r".
Proof. eexists. vm_compute. repeat split. Qed.

(** *** The detached [HEAD] *)

Lemma branch_of_abbrev_ref_none (branch : string) :
  Subprocess.branch_of_abbrev_ref branch = None <-> branch = "HEAD".
Proof.
  unfold Subprocess.branch_of_abbrev_ref.
  destruct (String.eqb_spec branch "HEAD"); split; congruence.
Qed.

(** Standing in a repository whose [HEAD] is detached, [_get_branch()] is
    [None]. *)
Lemma _get_branch_detached w d :
  lookup_dir (join (basedir w) (cwd_rel w)) w = Some d -> is_git d = true ->
  abbrev_ref d = "HEAD" ->
  _get_branch w = (Ok None, w).
Proof.
  intros L G A. unfold _get_branch, get_current_branch. step.
  destruct (is_empty (strip "./" (cwd_rel w))); [reflexivity|].
  rewrite (open_repo_step _ _ _ L G). cbn [fst snd]. now rewrite A.
Qed.

(** C10: [get_current_branch()] is [None] exactly when the abbreviated
    name of [HEAD] is the word [HEAD], in the subprocess layer (the command
    exited with status 0 and its trimmed output is [HEAD]) and in the
    engine (the directory's [HEAD] is detached); and [cp], [mv] and [rm]
    called with [.] from a repository whose [HEAD] is detached die with the
    not-in-a-branch diagnostic, leaving the state as it was. *)
Theorem detached_head_is_no_branch :
  (forall branch, Subprocess.branch_of_abbrev_ref branch = None <-> branch = "HEAD")
  /\ (forall (backend : Type) spawn lookup_reference self_path (b : backend),
         fst (fst (Subprocess.exec backend spawn lookup_reference self_path
                     Subprocess.get_current_branch b)) = Ok None
         <-> exists stdout b1,
             spawn self_path ["git"; "rev-parse"; "--abbrev-ref"; "HEAD"] b
             = (Subprocess.Exited 0 stdout, b1)
             /\ strip whitespace (Subprocess.decode stdout) = "HEAD")
  /\ (forall path w d,
         lookup_dir path w = Some d -> is_git d = true ->
         (fst (get_current_branch path w) = Ok None <-> abbrev_ref d = "HEAD"))
  /\ (forall w d dst,
         lookup_dir (join (basedir w) (cwd_rel w)) w = Some d -> is_git d = true ->
         abbrev_ref d = "HEAD" ->
         cp "." dst w = (Die msg_not_in_a_branch, w)
         /\ mv "." dst w = (Die msg_not_in_a_branch, w)
         /\ forall yes, rm "." yes w = (Die msg_not_in_a_branch, w)).
Proof.
  split; [exact branch_of_abbrev_ref_none|]. split; [|split].
  - intros backend spawn lookup_reference self_path b.
    unfold Subprocess.get_current_branch, Subprocess.check_output.
    cbn [Subprocess.bind Subprocess.exec].
    destruct (spawn self_path _ b) as [[rc out|] b1]; cbn [fst].
    + destruct (Z.eqb_spec rc 0) as [->|NZ]; cbn [fst].
      * assert (X : forall o : option string, (Ok o : outcome (option string)) = Ok None <-> o = None) by (intros o; split; congruence). rewrite X, branch_of_abbrev_ref_none. split.
        -- intros E. exists out, b1. split; [reflexivity | exact E].
        -- intros [out' [b1' [E S]]]. now injection E as <- <-.
      * split; [discriminate|]. intros [out' [b1' [E _]]]. congruence.
    + split; [discriminate|]. intros [out' [b1' [E _]]]. discriminate.
  - intros path w d L G. unfold get_current_branch. step.
    rewrite (open_repo_step _ _ _ L G). cbn [fst snd].
    rewrite <- branch_of_abbrev_ref_none. split; congruence.
  - intros w d dst L G A.
    pose proof (_get_branch_detached w d L G A) as GB.
    split; [|split].
    + unfold cp. change (String.eqb "." ".") with true. cbv iota.
      unfold bind at 1. unfold bind at 1. now rewrite GB.
    + unfold mv. unfold bind at 1. now rewrite GB.
    + intros yes. unfold rm. unfold bind at 1, get at 1. unfold bind at 1.
      now rewrite GB.
Qed.

Lemma detached_head_is_no_branch_witness :
  cp "." "b" Scenarios.detached_project
  = (Die msg_not_in_a_branch, Scenarios.detached_project)
  /\ mv "." "b" Scenarios.detached_project
     = (Die msg_not_in_a_branch, Scenarios.detached_project)
  /\ rm "." true Scenarios.detached_project
     = (Die msg_not_in_a_branch, Scenarios.detached_project).
Proof.
  destruct detached_head_is_no_branch as [_ [_ [_ D]]].
  destruct (D Scenarios.detached_project (Scenarios.clean_dir "HEAD") "b"
              eq_refl eq_refl eq_refl) as [C [M R]].
  split; [exact C|]. split; [exact M | exact (R true)].
Defined.

End EngineFacts.

(** ** Facts about the subprocess layer *)
Module SubprocessFacts.
Import Text Subprocess.

Section Exec.
Variable backend : Type.
Variable spawn : string -> list string -> backend -> completion * backend.
Variable lookup_reference : string -> string -> backend -> option string.
Variable self_path : string.

Local Abbreviation run := (exec backend spawn lookup_reference self_path).




End Exec.

(** A backend in which every command fails with status 128. *)
Definition failing (_ : string) (_ : list string) (b : unit) : completion * unit :=
  (Exited 128 [], b).

(** [commit] stops at the first command and reports it. *)
Example commit_fails_once :
  exec unit failing (fun _ _ _ => None) "/p/a" (commit Shell (One "msg")) tt
  = (Raise "Subprocess exits with non-zero return code 128: git commit --quiet --allow-empty -m msg",
     tt,
     [{| inv_args := ["git"; "commit"; "--quiet"; "--allow-empty"; "-m"; "msg"];
         inv_end := Exited 128 [] |}]).
Proof. reflexivity. Qed.

(** A backend that prints a commit id followed by a newline. *)
Definition printing (_ : string) (_ : list string) (b : unit) : completion * unit :=
  (Exited 0 (String.list_byte_of_string
               (String "a" (String "b" (String "1" (String (ascii_of_nat 10) EmptyString))))),
   b).

Example output_is_trimmed :
  fst (fst (exec unit printing (fun _ _ _ => None) "/p/a"
              (rev_parse Shell "HEAD") tt))
  = Ok "ab1".
Proof. reflexivity. Qed.

End SubprocessFacts.

(** ** Further commands: [cd] and [push] *)
Module Commands.
Import Text Path Engine.
Open Scope cmd_scope.

(** [cd(args)] *)
Definition cd (branch : option string) : M unit :=
  w <- get ;;
  let basedir := basedir w in
  match branch with
  | None => _cd basedir
  | Some branch =>
      _check_branch branch (Some true) (Some true) ;;
      _cd (join basedir branch)
  end.

Definition set_remote_heads (r : list (string * oid)) (w : world) : world :=
  {| basedir := basedir w; repo_dir := repo_dir w; cwd_rel := cwd_rel w;
     stdin := stdin w; dirs := dirs w;
     uprooted := uprooted w; worktrees := worktrees w; heads := heads w;
     remote_heads := r; history := history w; stdout := stdout w;
     new_pwd := new_pwd w |}.

(** The loop of [push] over [ls_remotes()]: the id of the last entry for
    [branch]. *)
Definition remote_commit_id (branch : string) (refs : list (string * oid))
  : option oid :=
  fold_left
    (fun remote_commit_id ref =>
       if String.eqb (fst ref) branch then Some (snd ref) else remote_commit_id)
    refs None.

(** [commit_id == remote_commit_id] *)
Definition same_commit (commit_id : oid) (remote_commit_id : option oid) : bool :=
  match remote_commit_id with
  | Some c => Nat.eqb commit_id c
  | None => false
  end.

Section Remote.

(** Whether the remote lets a branch move from one commit to another: git
    accepts a push that is a fast-forward. *)
Variable fast_forward : oid -> oid -> bool.

(** [push('refs/heads/branch:refs/heads/branch')]: refused when there is
    no such local ref or when the remote does not accept the move. *)
Definition push_ref (branch : string) : M unit :=
  backing_clone ;;
  w <- get ;;
  let refspec := ("refs/heads/" ++ branch ++ ":refs/heads/" ++ branch)%string in
  match lookup_ref branch (heads w) with
  | Some c =>
      match lookup_ref branch (remote_heads w) with
      | Some old =>
          if fast_forward old c
          then modify (set_remote_heads (set_ref branch c (remote_heads w)))
          else refused ["git"; "push"; "--quiet"; refspec]
      | None => modify (set_remote_heads (remote_heads w ++ [(branch, c)]))
      end
  | None => refused ["git"; "push"; "--quiet"; refspec]
  end.

(** [push(args)] *)
Definition push (message : option string) : M unit :=
  branch <- _get_branch ;;
  match branch with
  | None => _die "Not in a branch"
  | Some branch =>
      w <- get ;;
      _ <- open_repo (join (basedir w) branch) ;;
      commit_id <- _commit branch message ;;
      w <- get ;;
      let remote_commit_id := remote_commit_id branch (remote_heads w) in
      if same_commit commit_id remote_commit_id
      then print "Remote already up-to-date!"
      else
        push_ref branch ;;
        print ("Successfully pushed " ++ quoted branch ++ "!")
  end.

End Remote.

End Commands.

(** ** The search for the enclosing clone *)
Module ParentGit.
Import Text Path.

Section Search.

Variable path_exists : string -> bool.
Variable abspath : string -> string.

(** The [while True] loop of [_get_parent_git_path]: [relpath] grows by one
    [../] with every step up. *)
Equations? climb (path relpath : string) : option string
  by wf (String.length path) lt :=
  climb path relpath with path_exists (join path ".git") => {
    | true := Some relpath
    | false with string_dec path (dirname path) => {
        | left _ := None
        | right _ := climb (dirname path) (relpath ++ "../") } }.
Proof. apply dirname_shorter. congruence. Qed.

(** [_get_parent_git_path(path)] *)
Definition _get_parent_git_path (path : string) : option string :=
  climb (abspath path) "./".

Definition has_git (p : string) : bool := path_exists (join p ".git").

End Search.

(** [relpath] after [k] rounds of [relpath = relpath + '../']. *)
Definition steps_up (k : nat) (relpath : string) : string :=
  Nat.iter k (fun r => (r ++ "../")%string) relpath.

End ParentGit.

Module ParentGitFacts.
Import Text Path Marker ParentGit.

Lemma append_length a b : String.length (a ++ b) = String.length a + String.length b.
Proof. induction a as [|c a IH]; cbn; [reflexivity | now rewrite IH]. Qed.

Lemma steps_up_length k r : String.length (steps_up k r) = String.length r + 3 * k.
Proof.
  induction k as [|k IH].
  - unfold steps_up. simpl. lia.
  - unfold steps_up in *. rewrite Nat.iter_succ, append_length, IH. simpl. lia.
Qed.

Section Search.
Variable path_exists : string -> bool.

Lemma climb_spec p :
  forall r,
    (exists k,
        k <= String.length p
        /\ climb path_exists p r = Some (steps_up k r)
        /\ has_git path_exists (ancestor k p) = true
        /\ forall j, j < k -> has_git path_exists (ancestor j p) = false)
    \/ (climb path_exists p r = None
        /\ forall k, has_git path_exists (ancestor k p) = false).
Proof.
  intros r. funelim (climb path_exists p r).
  - left. exists 0. repeat split; [lia | assumption | intros j Hj; lia].
  - right. split; [reflexivity|]. intros k.
    rewrite MarkerFacts.ancestor_root by assumption. exact Heq0.
  - assert (L : String.length (dirname path) < String.length path)
      by (apply dirname_shorter; congruence).
    destruct H as [[k [B [R [M N]]]] | [R M]].
    + left. exists (S k). rewrite MarkerFacts.ancestor_succ.
      repeat split; try assumption; [lia | |].
      * rewrite R. unfold steps_up. now rewrite Nat.iter_succ_r.
      * intros [|j] Hj; [exact Heq0|]. rewrite MarkerFacts.ancestor_succ. apply N. lia.
    + right. split; [exact R|].
      intros [|j]; [exact Heq0|]. rewrite MarkerFacts.ancestor_succ. apply M.
Qed.

(** X1: from every starting path [_get_parent_git_path] returns. It answers
    [./] followed by one [../] for each step up to the nearest directory, at
    or above the start, that holds a [.git] entry, so the answer has
    [2 + 3k] characters for [k] steps; it answers [None] exactly when no
    directory at or above the start holds one. *)
Theorem get_parent_git_path_counts_steps (abspath : string -> string) (path : string) :
  let start := abspath path in
  (exists k,
      k <= String.length start
      /\ _get_parent_git_path path_exists abspath path = Some (steps_up k "./")
      /\ String.length (steps_up k "./") = 2 + 3 * k
      /\ has_git path_exists (ancestor k start) = true
      /\ forall j, j < k -> has_git path_exists (ancestor j start) = false)
  \/ (_get_parent_git_path path_exists abspath path = None
      /\ forall k, has_git path_exists (ancestor k start) = false).
Proof.
  cbv zeta. unfold _get_parent_git_path.
  destruct (climb_spec (abspath path) "./") as [[k [B [R [M N]]]] | [R M]].
  - left. exists k. repeat split; try assumption. apply steps_up_length.
  - right. now split.
Qed.

End Search.

(** A clone at [/home/u/proj], searched for from two levels below. *)
Example clone_two_levels_up :
  _get_parent_git_path (String.eqb "/home/u/proj/.git") (fun p => p)
    "/home/u/proj/exps/a"
  = Some "./../../".
Proof. reflexivity. Qed.

Example no_clone_above :
  _get_parent_git_path (fun _ => false) (fun p => p) "/home/u/proj" = None.
Proof. reflexivity. Qed.

End ParentGitFacts.

(** ** More of [str]: the splitting the adapter's parsers rely on *)
Module Pytext.
Import Text.

Definition LF : ascii := ascii_of_nat 10.
Definition CR : ascii := ascii_of_nat 13.

(** [c.isspace()] in the ASCII range: tab to carriage return, the four
    separators from FS to US, and the space. *)
Definition is_space (c : ascii) : bool :=
  let n := nat_of_ascii c in
  (Nat.leb 9 n && Nat.leb n 13) || (Nat.leb 28 n && Nat.leb n 32).

(** The line boundaries of [str.splitlines] in the ASCII range: LF, VT, FF,
    CR, FS, GS and RS. *)
Definition is_linebreak (c : ascii) : bool :=
  let n := nat_of_ascii c in
  (Nat.leb 10 n && Nat.leb n 13) || (Nat.leb 28 n && Nat.leb n 30).

(** [s.splitlines()]: CR LF counts as one boundary, and a boundary at the
    very end opens no further line. *)
Fixpoint splitlines (s : string) : list string :=
  match s with
  | EmptyString => []
  | String c rest =>
      if is_linebreak c then
        EmptyString ::
          match rest with
          | String d rest' =>
              if Ascii.eqb c CR && Ascii.eqb d LF then splitlines rest'
              else splitlines rest
          | EmptyString => []
          end
      else
        match splitlines rest with
        | [] => [String c EmptyString]
        | line :: lines => String c line :: lines
        end
  end.

(** [s.split()]: the maximal runs of characters that are not white space. *)
Fixpoint split (s : string) : list string :=
  match s with
  | EmptyString => []
  | String c rest =>
      if is_space c then split rest
      else
        match rest with
        | EmptyString => [String c EmptyString]
        | String d _ =>
            if is_space d then String c EmptyString :: split rest
            else
              match split rest with
              | [] => [String c EmptyString]
              | word :: words => String c word :: words
              end
        end
  end.

(** Leading white space removed. *)
Fixpoint skip_space (s : string) : string :=
  match s with
  | EmptyString => EmptyString
  | String c rest => if is_space c then skip_space rest else s
  end.

(** Trailing white space removed. *)
Fixpoint rstrip_space (s : string) : string :=
  match s with
  | EmptyString => EmptyString
  | String c rest =>
      let r := rstrip_space rest in
      if is_empty r && is_space c then EmptyString else String c r
  end.

(** [s.strip()] *)
Definition strip_space (s : string) : string := rstrip_space (skip_space s).

(** The first run of characters that are not white space, and what follows. *)
Fixpoint first_word (s : string) : string * string :=
  match s with
  | EmptyString => (EmptyString, EmptyString)
  | String c rest =>
      if is_space c then (EmptyString, s)
      else let '(word, tail) := first_word rest in (String c word, tail)
  end.

(** [s.split(maxsplit=1)]: the first word, and the rest of the string from
    its first character that is not white space to the end. *)
Definition split_once (s : string) : list string :=
  match skip_space s with
  | EmptyString => []
  | String c rest =>
      let '(word, tail) := first_word (String c rest) in
      match skip_space tail with
      | EmptyString => [word]
      | String d more => [word; String d more]
      end
  end.

(** [s[n:]] *)
Fixpoint drop (n : nat) (s : string) : string :=
  match n, s with
  | 0, _ => s
  | S _, EmptyString => EmptyString
  | S m, String _ rest => drop m rest
  end.

(** [s.endswith(suffix)] *)
Definition endswith (suffix s : string) : bool :=
  Nat.leb (String.length suffix) (String.length s)
  && String.eqb (drop (String.length s - String.length suffix) s) suffix.

(** [s[:-n]] for a positive [n]. *)
Definition drop_last (n : nat) (s : string) : string :=
  String.substring 0 (String.length s - n) s.

(** [os.path.basename(p)] *)
Definition basename (p : string) : string := drop (Path.rfind_sep_succ p) p.

(** Running Python that can raise, step after step. *)
Definition and_then {A B : Type} (m : outcome A) (f : A -> outcome B) : outcome B :=
  match m with
  | Ok a => f a
  | Die msg => Die msg
  | Raise exn => Raise exn
  end.

(** A [for] loop over lines whose body updates the loop state. *)
Fixpoint for_each {S : Type} (body : S -> string -> outcome S) (lines : list string)
  (state : S) : outcome S :=
  match lines with
  | [] => Ok state
  | line :: rest => and_then (body state line) (for_each body rest)
  end.

(** [tokens[1]] *)
Definition second (tokens : list string) : outcome string :=
  match tokens with
  | _ :: x :: _ => Ok x
  | _ => Raise "IndexError"
  end.

(** [a, b = tokens] *)
Definition unpack_pair (tokens : list string) : outcome (string * string) :=
  match tokens with
  | [a; b] => Ok (a, b)
  | _ => Raise "ValueError"
  end.

(** No character of [s] is white space. *)
Fixpoint no_space (s : string) : bool :=
  match s with
  | EmptyString => true
  | String c rest => negb (is_space c) && no_space rest
  end.

(** A word: not empty and free of white space. *)
Definition is_word (s : string) : bool := negb (is_empty s) && no_space s.

(** No character of [s] is a line boundary. *)
Fixpoint one_line (s : string) : bool :=
  match s with
  | EmptyString => true
  | String c rest => negb (is_linebreak c) && one_line rest
  end.

(** ['\n'.join(lines)] *)
Definition unlines (lines : list string) : string :=
  String.concat (String LF EmptyString) lines.

End Pytext.

Module PytextFacts.
Import Text Pytext.

Lemma linebreak_is_space c : is_linebreak c = true -> is_space c = true.
Proof.
  unfold is_linebreak, is_space. cbv zeta.
  rewrite !orb_true_iff, !andb_true_iff, !Nat.leb_le. lia.
Qed.

Lemma no_space_one_line s : no_space s = true -> one_line s = true.
Proof.
  induction s as [|c s IH]; cbn [no_space one_line]; [reflexivity|].
  rewrite !andb_true_iff, !negb_true_iff. intros [S N]. split; [|now apply IH].
  destruct (is_linebreak c) eqn:E; [|reflexivity].
  apply linebreak_is_space in E. congruence.
Qed.

Lemma splitlines_line a :
  one_line a = true -> is_empty a = false -> splitlines a = [a].
Proof.
  induction a as [|c a IH]; [discriminate|].
  cbn [one_line splitlines]. rewrite andb_true_iff, negb_true_iff.
  intros [B O] _. rewrite B. destruct a as [|d a]; [reflexivity|].
  now rewrite (IH O eq_refl).
Qed.

Lemma splitlines_cons a rest :
  one_line a = true ->
  splitlines (a ++ String LF rest) = a :: splitlines rest.
Proof.
  induction a as [|c a IH]; intros O.
  - cbn [append splitlines]. change (is_linebreak LF) with true. cbv iota.
    destruct rest as [|d rest']; [reflexivity|].
    change (Ascii.eqb LF CR) with false. reflexivity.
  - cbn [one_line] in O. apply andb_true_iff in O. destruct O as [B O].
    apply negb_true_iff in B. cbn [append splitlines]. rewrite B.
    now rewrite (IH O).
Qed.

(** Joining lines with LF and splitting again gives the lines back, when
    none holds a line boundary and the last one is not empty. *)
Lemma unlines_cons a b lines :
  unlines (a :: b :: lines) = (a ++ String LF (unlines (b :: lines)))%string.
Proof. reflexivity. Qed.

Lemma splitlines_unlines lines :
  forallb one_line lines = true ->
  is_empty (last lines EmptyString) = false ->
  splitlines (unlines lines) = lines.
Proof.
  induction lines as [|a lines IH]; [discriminate|].
  cbn [forallb]. rewrite andb_true_iff. intros [O OS] L.
  destruct lines as [|b lines].
  - cbn [last] in L. now apply splitlines_line.
  - rewrite unlines_cons, (splitlines_cons _ _ O). f_equal.
    apply IH; [exact OS | exact L].
Qed.

Lemma split_space c rest : is_space c = true -> split (String c rest) = split rest.
Proof. intros S. cbn [split]. now rewrite S. Qed.

Lemma split_word w :
  is_word w = true -> split w = [w].
Proof.
  unfold is_word. rewrite andb_true_iff, negb_true_iff. intros [NE NS].
  induction w as [|c w IH]; [discriminate|].
  cbn [no_space] in NS. apply andb_true_iff in NS. destruct NS as [C NS].
  apply negb_true_iff in C. cbn [split]. rewrite C.
  destruct w as [|d w]; [reflexivity|].
  pose proof NS as NS'. cbn [no_space] in NS'. apply andb_true_iff in NS'.
  destruct NS' as [D _]. apply negb_true_iff in D. rewrite D.
  now rewrite (IH eq_refl NS).
Qed.

Lemma split_word_then w c rest :
  is_word w = true -> is_space c = true ->
  split (w ++ String c rest) = w :: split rest.
Proof.
  unfold is_word. rewrite andb_true_iff, negb_true_iff. intros [NE NS] S.
  induction w as [|x w IH]; [discriminate|].
  cbn [no_space] in NS. apply andb_true_iff in NS. destruct NS as [X NS].
  apply negb_true_iff in X. cbn [append split]. rewrite X.
  destruct w as [|d w].
  - cbn [append]. now rewrite S, (split_space _ _ S).
  - pose proof NS as NS'. cbn [no_space] in NS'. apply andb_true_iff in NS'.
    destruct NS' as [D _]. apply negb_true_iff in D.
    cbn [append]. rewrite D. cbn [append] in IH. now rewrite (IH eq_refl NS).
Qed.

Lemma skip_space_word w :
  is_word w = true -> skip_space w = w.
Proof.
  destruct w as [|c w]; [discriminate|]. unfold is_word. cbn [is_empty negb andb no_space].
  rewrite andb_true_iff, negb_true_iff. intros [C _]. cbn [skip_space]. now rewrite C.
Qed.

Lemma first_word_then w c rest :
  no_space w = true -> is_space c = true ->
  first_word (w ++ String c rest) = (w, String c rest).
Proof.
  intros NS S. induction w as [|x w IH].
  - cbn [append first_word]. now rewrite S.
  - cbn [no_space] in NS. apply andb_true_iff in NS. destruct NS as [X NS].
    apply negb_true_iff in X. cbn [append first_word]. now rewrite X, (IH NS).
Qed.

Lemma split_skip_space s : split (skip_space s) = split s.
Proof.
  induction s as [|c s IH]; [reflexivity|]. cbn [skip_space].
  destruct (is_space c) eqn:S; [|reflexivity]. now rewrite (split_space _ _ S).
Qed.

Lemma rstrip_space_head s d r :
  rstrip_space s = String d r -> exists s', s = String d s'.
Proof.
  destruct s as [|c s]; [discriminate|]. cbn [rstrip_space].
  destruct (is_empty (rstrip_space s) && is_space c); [discriminate|].
  intros [= -> _]. eauto.
Qed.

Lemma split_rstrip_space s : split (rstrip_space s) = split s.
Proof.
  induction s as [|c s IH]; [reflexivity|]. cbn [rstrip_space].
  destruct (is_empty (rstrip_space s) && is_space c) eqn:E.
  - apply andb_true_iff in E. destruct E as [EM S].
    rewrite (split_space _ _ S), <- IH.
    now destruct (rstrip_space s).
  - destruct (is_space c) eqn:S.
    + now rewrite !(split_space _ _ S).
    + cbn [split]. rewrite S.
      destruct (rstrip_space s) as [|d r] eqn:R.
      * cbn [split] in IH. destruct s as [|d s']; [reflexivity|].
        destruct (is_space d); [now rewrite <- IH | now rewrite <- IH].
      * destruct (rstrip_space_head _ _ _ R) as [s' ->]. now rewrite IH.
Qed.

(** [line.strip().split()] is [line.split()]. *)
Lemma split_strip_space s : split (strip_space s) = split s.
Proof. unfold strip_space. now rewrite split_rstrip_space, split_skip_space. Qed.

End PytextFacts.

(** ** The listings of the adapter: what it makes of git's output *)
Module Listing.
Import Text Pytext Subprocess.
Open Scope prog_scope.

Definition refs_heads : string := "refs/heads/".

(** One dict of [list_worktrees()]; [path] and [head] are [None] when no
    such line came before the [branch] line. *)
Record worktree_dict : Type := {
  wd_path : option string;
  wd_head : option string;
  wd_branch : string
}.

(** The body of the loop of [list_worktrees]; the loop state is
    [prev_path], [prev_head] and [worktrees]. *)
Definition worktree_line
  (state : option string * option string * list worktree_dict) (line : string)
  : outcome (option string * option string * list worktree_dict) :=
  let '(prev_path, prev_head, worktrees) := state in
  and_then (if startswith "worktree" line
            then and_then (second (split line)) (fun x => Ok (Some x))
            else Ok prev_path) (fun prev_path =>
  and_then (if startswith "HEAD" line
            then and_then (second (split line)) (fun x => Ok (Some x))
            else Ok prev_head) (fun prev_head =>
  if startswith "branch" line then
    and_then (second (split line)) (fun branch =>
      if startswith refs_heads branch then
        let branch := drop (String.length refs_heads) branch in
        Ok (prev_path, prev_head,
            worktrees ++ [{| wd_path := prev_path; wd_head := prev_head;
                             wd_branch := branch |}])
      else Ok (prev_path, prev_head, worktrees))
  else Ok (prev_path, prev_head, worktrees))).

(** [list_worktrees], from the output of the subprocess on. *)
Definition parse_worktrees (output : string) : outcome (list worktree_dict) :=
  and_then (for_each worktree_line (splitlines output) (None, None, []))
           (fun state => Ok (snd state)).

Definition list_worktrees : prog (outcome (list worktree_dict)) :=
  output <- check_output ["git"; "worktree"; "list"; "--porcelain"] ;;
  Ret (parse_worktrees output).

(** The body of the loop of [list_local_branches]. *)
Definition local_branch_line (branches : list string) (line : string)
  : outcome (list string) :=
  and_then (second (split (strip_space line))) (fun branch =>
    if startswith refs_heads branch then
      let branch := drop (String.length refs_heads) branch in
      if negb (startswith "__" branch) then Ok (branches ++ [branch])
      else Ok branches
    else Ok branches).

Definition parse_local_branches (output : string) : outcome (list string) :=
  for_each local_branch_line (splitlines output) [].

Definition list_local_branches : prog (outcome (list string)) :=
  output <- check_output ["git"; "show-ref"; "--heads"] ;;
  Ret (parse_local_branches output).

(** The body of the loop of [list_control_branches]. *)
Definition control_branch_line (branches : list string) (line : string)
  : outcome (list string) :=
  and_then (second (split (strip_space line))) (fun branch =>
    if startswith refs_heads branch then
      let branch := drop (String.length refs_heads) branch in
      if startswith "__" branch then Ok (branches ++ [branch])
      else Ok branches
    else Ok branches).

Definition parse_control_branches (output : string) : outcome (list string) :=
  for_each control_branch_line (splitlines output) [].

Definition list_control_branches : prog (outcome (list string)) :=
  output <- check_output ["git"; "show-ref"; "--heads"] ;;
  Ret (parse_control_branches output).

(** One dict of [ls_remotes()]. *)
Record remote_ref : Type := { rr_oid : string; rr_branch : string }.

(** The body of the loop of [ls_remotes]. *)
Definition remote_line (refs : list remote_ref) (line : string)
  : outcome (list remote_ref) :=
  and_then (unpack_pair (split line)) (fun '(oid, name) =>
    if startswith refs_heads name then
      let branch := drop (String.length refs_heads) name in
      Ok (refs ++ [{| rr_oid := oid; rr_branch := branch |}])
    else Ok refs).

Definition parse_remotes (output : string) : outcome (list remote_ref) :=
  for_each remote_line (splitlines output) [].

Definition ls_remotes : prog (outcome (list remote_ref)) :=
  output <- check_output ["git"; "ls-remote"; "--quiet"] ;;
  Ret (parse_remotes output).

(** [if name.endswith('.git'): name = name[:-4]] *)
Definition without_dot_git (name : string) : string :=
  if endswith ".git" name then drop_last 4 name else name.

(** [get_name()] of a repository whose remote is [remote]. *)
Definition get_name (remote : string) : prog string :=
  url <- check_output ["git"; "remote"; "get-url"; remote] ;;
  Ret (without_dot_git (basename url)).

(** One dict of [status()]. *)
Record delta : Type := { d_status : string; d_path : string }.

(** The body of the loop of [ShellRepository.status]. *)
Definition status_line (deltas : list delta) (line : string) : outcome (list delta) :=
  and_then (unpack_pair (split_once line)) (fun '(st, path) =>
    Ok (deltas ++ [{| d_status := st; d_path := path |}])).

Definition parse_status (output : string) : outcome (list delta) :=
  for_each status_line (splitlines output) [].

Definition status : prog (outcome (list delta)) :=
  output <- check_output ["git"; "status"; "--porcelain"] ;;
  Ret (parse_status output).

End Listing.

(** ** Further facts about the commands *)
Module CommandFacts.
Import Text Path Engine EngineFacts.
Open Scope cmd_scope.

(** *** Where a command can stop on [_die] *)

(** The command never ends in [_die]. *)
Definition quiet {A : Type} (m : M A) : Prop :=
  forall w msg w1, m w <> (Die msg, w1).

(** The command leaves the state as it found it. *)
Definition readonly {A : Type} (m : M A) : Prop :=
  forall w, snd (m w) = w.

(** When the command ends in [_die], nothing has been changed. *)
Definition dies_first {A : Type} (m : M A) : Prop :=
  forall w msg w1, m w = (Die msg, w1) -> w1 = w.

Lemma quiet_bind {A B : Type} (m : M A) (f : A -> M B) :
  quiet m -> (forall a, quiet (f a)) -> quiet (bind m f).
Proof.
  intros Hm Hf w msg w1. unfold bind.
  destruct (m w) as [[a|msg'|e] w'] eqn:E.
  - apply Hf.
  - intros _. exact (Hm _ _ _ E).
  - discriminate.
Qed.

Lemma quiet_ret {A : Type} (a : A) : quiet (ret a).
Proof. intros w msg w1. discriminate. Qed.

Lemma quiet_raise {A : Type} (e : string) : quiet (@raise A e).
Proof. intros w msg w1. discriminate. Qed.

Lemma quiet_get : quiet get.
Proof. intros w msg w1. discriminate. Qed.

Lemma quiet_modify f : quiet (modify f).
Proof. intros w msg w1. discriminate. Qed.

Ltac quiet_step :=
  first
    [ apply quiet_ret | apply quiet_raise | apply quiet_get | apply quiet_modify
    | apply quiet_bind; [|intros ?]
    | match goal with
      | |- quiet (if ?c then _ else _) => destruct c
      | |- quiet (match ?x with _ => _ end) => destruct x
      end ].

Ltac quiet_tac := repeat quiet_step.

Lemma quiet_print line : quiet (print line).
Proof. unfold print. quiet_tac. Qed.

Lemma quiet_refused {A : Type} args : quiet (@refused A args).
Proof. unfold refused. quiet_tac. Qed.

Lemma quiet_cd p : quiet (_cd p).
Proof. unfold _cd. quiet_tac. Qed.

Lemma quiet_rmtree p : quiet (rmtree p).
Proof. unfold rmtree. quiet_tac. Qed.

Lemma quiet_backing_clone : quiet backing_clone.
Proof. unfold backing_clone. quiet_tac. Qed.

Lemma quiet_open_repo path : quiet (open_repo path).
Proof. unfold open_repo. quiet_tac. Qed.

Lemma quiet_commit path msgs : quiet (commit path msgs).
Proof.
  unfold commit. cbv zeta.
  repeat first [apply quiet_open_repo | apply quiet_backing_clone | quiet_step].
Qed.

Lemma quiet__commit branch message : quiet (_commit branch message).
Proof.
  unfold _commit, rev_parse_head, add_all, status. cbv zeta.
  repeat first [apply quiet_open_repo | apply quiet_commit | quiet_step].
Qed.

Lemma quiet_create_branch branch start : quiet (create_branch branch start).
Proof.
  unfold create_branch.
  repeat first [apply quiet_backing_clone | apply quiet_refused | quiet_step].
Qed.

Lemma quiet_fetch src dst : quiet (fetch src dst).
Proof.
  unfold fetch. cbv zeta.
  repeat first [apply quiet_backing_clone | apply quiet_refused | quiet_step].
Qed.

Lemma quiet_add_worktree path branch : quiet (add_worktree path branch).
Proof.
  unfold add_worktree.
  repeat first [apply quiet_backing_clone | apply quiet_refused | quiet_step].
Qed.

Lemma quiet_delete_branch branch : quiet (delete_branch branch).
Proof.
  unfold delete_branch.
  repeat first [apply quiet_backing_clone | apply quiet_refused | quiet_step].
Qed.

Lemma quiet_prune_worktree : quiet prune_worktree.
Proof.
  unfold prune_worktree.
  repeat first [apply quiet_backing_clone | quiet_step].
Qed.

Lemma quiet_delete_worktree_dirs branch listed :
  quiet (delete_worktree_dirs branch listed).
Proof.
  induction listed as [|t rest IH]; simpl.
  - apply quiet_ret.
  - repeat first [apply IH | apply quiet_rmtree | quiet_step].
Qed.

Lemma quiet_delete_worktree branch : quiet (delete_worktree branch).
Proof.
  unfold delete_worktree.
  repeat first [apply quiet_backing_clone | apply quiet_delete_worktree_dirs
               | apply quiet_prune_worktree | quiet_step].
Qed.

Lemma quiet_commit_after_checkout src dst : quiet (_commit_after_checkout src dst).
Proof.
  unfold _commit_after_checkout. repeat first [apply quiet_commit | quiet_step].
Qed.

Lemma quiet_commit_after_rename src dst : quiet (_commit_after_rename src dst).
Proof.
  unfold _commit_after_rename. repeat first [apply quiet_commit | quiet_step].
Qed.

Lemma quiet_assert_name name : quiet (assert_name name).
Proof. unfold assert_name. quiet_tac. Qed.

Lemma confirm_loop_no_die prompt default input :
  forall output msg, fst (fst (confirm_loop prompt default input output)) <> Die msg.
Proof.
  induction input as [|line rest IH]; intros output msg; cbn [confirm_loop].
  - discriminate.
  - cbv zeta. destruct (negb (is_empty (lower line)) && negb _).
    + apply IH.
    + destruct (is_empty (lower line)); [discriminate|].
      destruct (String.eqb (lower line) "y"); discriminate.
Qed.

Lemma quiet_confirm message default : quiet (_confirm message default).
Proof.
  intros w msg w1. unfold _confirm.
  pose proof (confirm_loop_no_die
                (message ++ (if default then "  [Y/n]" else "  [y/N]"))
                default (stdin w) (stdout w) msg) as H.
  destruct (confirm_loop _ default (stdin w) (stdout w)) as [[r i] o].
  cbn [fst] in H. intros E. apply H. now inversion E.
Qed.

Lemma quiet_remove_namespaces branch : quiet (remove_namespaces branch).
Proof.
  unfold remove_namespaces. cbv zeta.
  repeat first [apply quiet_backing_clone | apply quiet_rmtree | apply quiet_print
               | apply quiet_delete_worktree | apply quiet_delete_branch
               | quiet_step].
Qed.

Lemma quiet_dies_first {A : Type} (m : M A) : quiet m -> dies_first m.
Proof. intros Q w msg w1 E. now apply Q in E. Qed.

Lemma readonly_dies_first {A : Type} (m : M A) : readonly m -> dies_first m.
Proof. intros R w msg w1 E. specialize (R w). rewrite E in R. now symmetry. Qed.

(** A read, then a command that dies first. *)
Lemma dies_first_after_read {A B : Type} (m : M A) (f : A -> M B) :
  readonly m -> (forall a, dies_first (f a)) -> dies_first (bind m f).
Proof.
  intros R Hf w msg w1. unfold bind. specialize (R w).
  destruct (m w) as [[a|msg'|e] w'] eqn:E; cbn [snd] in R; subst w'.
  - apply Hf.
  - now intros [= _ <-].
  - discriminate.
Qed.

(** A command that dies first, then one that never dies. *)
Lemma dies_first_then_quiet {A B : Type} (m : M A) (f : A -> M B) :
  dies_first m -> (forall a, quiet (f a)) -> dies_first (bind m f).
Proof.
  intros D Q w msg w1. unfold bind.
  destruct (m w) as [[a|msg'|e] w'] eqn:E.
  - intros H. now apply Q in H.
  - intros [= <- <-]. eapply D. exact E.
  - discriminate.
Qed.

Lemma readonly_get : readonly get.
Proof. now intros w. Qed.

Lemma readonly_check_branch branch iw ib : readonly (_check_branch branch iw ib).
Proof. intros w. apply check_branch_readonly. Qed.

Lemma readonly_get_branch : readonly _get_branch.
Proof. intros w. apply _get_branch_readonly. Qed.

Lemma readonly_resolve_dot name cur : readonly (resolve_dot name cur).
Proof.
  intros w. unfold resolve_dot.
  destruct (String.eqb name "."); [destruct cur|]; reflexivity.
Qed.

Lemma readonly_assert_name name : readonly (assert_name name).
Proof.
  intros w. unfold assert_name.
  destruct name as [|c rest]; [reflexivity|]. now destruct (is_alnum c).
Qed.

Lemma readonly_bind {A B : Type} (m : M A) (f : A -> M B) :
  readonly m -> (forall a, readonly (f a)) -> readonly (bind m f).
Proof.
  intros Rm Rf w. unfold bind. specialize (Rm w).
  destruct (m w) as [[a|msg|e] w'] eqn:E; cbn [snd] in Rm; subst w'.
  - apply Rf.
  - reflexivity.
  - reflexivity.
Qed.

Lemma readonly_ret {A : Type} (a : A) : readonly (ret a).
Proof. now intros w. Qed.

Lemma dies_first__cp src dst : dies_first (_cp src dst).
Proof.
  unfold _cp. apply dies_first_after_read; [apply readonly_get|]. intros w.
  cbv zeta. apply dies_first_then_quiet.
  - destruct (mem src (_list_checked_out_branches w)).
    { apply dies_first_after_read; [apply readonly_check_branch|]. intros _.
      apply dies_first_after_read; [apply readonly_check_branch|]. intros _.
      apply quiet_dies_first.
      repeat first [apply quiet__commit | apply quiet_create_branch | quiet_step]. }
    destruct (mem src (list_local_branches w)).
    { apply dies_first_after_read; [apply readonly_check_branch|]. intros _.
      destruct (negb (String.eqb src dst)).
      - apply dies_first_after_read; [apply readonly_check_branch|]. intros _.
        apply quiet_dies_first. apply quiet_create_branch.
      - apply quiet_dies_first. apply quiet_ret. }
    destruct (mem src (list_remote_branches w)).
    { apply dies_first_after_read; [apply readonly_check_branch|]. intros _.
      apply dies_first_after_read; [apply readonly_check_branch|]. intros _.
      apply quiet_dies_first. apply quiet_fetch. }
    intros w0 msg w1. unfold _die. now intros [= _ <-].
  - intros _.
    repeat first [apply quiet_add_worktree | apply quiet_print
                 | apply quiet_commit_after_checkout | quiet_step].
Qed.

Lemma dies_first_cp src dst : dies_first (cp src dst).
Proof.
  unfold cp. apply dies_first_after_read.
  { destruct (String.eqb src ".").
    - apply readonly_bind; [apply readonly_get_branch|]. intros b. apply readonly_resolve_dot.
    - apply readonly_ret. }
  intros src'.
  apply dies_first_after_read; [apply readonly_assert_name|]. intros _.
  apply dies_first_after_read; [apply readonly_assert_name|]. intros _.
  apply dies_first_after_read; [apply readonly_get|]. intros w.
  apply dies_first_then_quiet; [apply dies_first__cp|]. intros _. apply quiet_cd.
Qed.

Lemma dies_first_co branch : dies_first (co branch).
Proof.
  unfold co. apply dies_first_after_read; [apply readonly_get|]. intros w.
  apply dies_first_then_quiet; [apply dies_first__cp|]. intros _. apply quiet_cd.
Qed.

Lemma dies_first_mv src dst : dies_first (mv src dst).
Proof.
  unfold mv.
  apply dies_first_after_read; [apply readonly_get_branch|]. intros branch.
  apply dies_first_after_read; [apply readonly_resolve_dot|]. intros src'.
  apply dies_first_after_read; [apply readonly_assert_name|]. intros _.
  apply dies_first_after_read; [apply readonly_assert_name|]. intros _.
  apply dies_first_after_read; [apply readonly_get|]. intros w. cbv zeta.
  apply dies_first_after_read; [apply readonly_check_branch|]. intros _.
  apply dies_first_after_read; [apply readonly_check_branch|]. intros _.
  apply quiet_dies_first.
  repeat first [apply quiet__commit | apply quiet_create_branch
               | apply quiet_add_worktree | apply quiet_delete_worktree
               | apply quiet_delete_branch | apply quiet_commit_after_rename
               | apply quiet_print | apply quiet_cd | quiet_step].
Qed.

Lemma dies_first_rm branch yes : dies_first (rm branch yes).
Proof.
  unfold rm.
  apply dies_first_after_read; [apply readonly_get|]. intros w. cbv zeta.
  apply dies_first_after_read; [apply readonly_get_branch|]. intros cur.
  apply dies_first_after_read; [apply readonly_resolve_dot|]. intros branch'.
  apply quiet_dies_first.
  repeat first [apply quiet_confirm | apply quiet_print | apply quiet_assert_name
               | apply quiet_remove_namespaces | apply quiet_cd | quiet_step].
Qed.

Lemma dies_first_cm message : dies_first (cm message).
Proof.
  unfold cm.
  apply dies_first_after_read; [apply readonly_get_branch|]. intros [branch|].
  - apply quiet_dies_first.
    repeat first [apply quiet__commit | apply quiet_print | quiet_step].
  - intros w msg w1. unfold _die. now intros [= _ <-].
Qed.

(** X2: every [_die] of [cp], [co], [mv], [rm] and [cm] comes before the first
    change: a command that ends with a diagnostic of its own leaves the
    directories, the worktree entries, the refs, the history and the output
    exactly as they were. *)
Theorem die_leaves_state_unchanged (w w1 : world) (msg : string) :
  (forall src dst, cp src dst w = (Die msg, w1) -> w1 = w)
  /\ (forall branch, co branch w = (Die msg, w1) -> w1 = w)
  /\ (forall src dst, mv src dst w = (Die msg, w1) -> w1 = w)
  /\ (forall branch yes, rm branch yes w = (Die msg, w1) -> w1 = w)
  /\ (forall message, cm message w = (Die msg, w1) -> w1 = w).
Proof.
  repeat split; intros.
  - eapply dies_first_cp; eassumption.
  - eapply dies_first_co; eassumption.
  - eapply dies_first_mv; eassumption.
  - eapply dies_first_rm; eassumption.
  - eapply dies_first_cm; eassumption.
Qed.

Lemma die_leaves_state_unchanged_witness :
  snd (co "a" Scenarios.clean_project) = Scenarios.clean_project.
Proof.
  destruct (die_leaves_state_unchanged Scenarios.clean_project
              (snd (co "a" Scenarios.clean_project))
              (msg_already_in_worktree "a")) as (_ & H & _).
  apply (H "a"). vm_compute. reflexivity.
Defined.

(** *** The checker on a fresh and on a checked-out name *)

(** X3: [_check_branch(branch, in_worktree=False, in_branch=False)] passes
    exactly when no worktree entry is on [branch], [branch] is no local
    branch and the convention directory holds no [.git]; in every other
    state it ends in [_die], never in an exception, and it never changes the
    state. *)
Theorem check_branch_fresh_name (w : world) (branch : string) :
  (_check_branch branch (Some false) (Some false) w = (Ok tt, w)
   <-> mem branch (list_worktree_branches w) = false
       /\ mem branch (list_local_branches w) = false
       /\ _is_git_repo w (join (basedir w) branch) = false)
  /\ (_check_branch branch (Some false) (Some false) w = (Ok tt, w)
      \/ exists msg, _check_branch branch (Some false) (Some false) w = (Die msg, w)).
Proof.
  split.
  - split.
    + intros H. apply check_branch_ok in H.
      destruct H as (_ & DEV & _ & NF & _ & NL & _).
      destruct (NF eq_refl) as [F G]. repeat split.
      * now apply not_found_no_entry.
      * now apply NL.
      * exact G.
    + intros (NW & NL & NG).
      destruct (no_entry_not_found _ _ NW) as [F D].
      rewrite check_branch_cascade. cbv zeta. rewrite F, D, NL, NG. reflexivity.
  - rewrite check_branch_cascade. cbv zeta. cbn [is_True is_False andb].
    destruct (found_in_worktree w branch); cbn [negb andb]; [right; eauto|].
    destruct (deviating_entry w branch); [right; eauto|].
    destruct (mem branch (list_local_branches w)); cbn [negb andb]; [right; eauto|].
    destruct (_is_git_repo w (join (basedir w) branch)); [right; eauto | now left].
Qed.

Lemma lookup_dir_is_git_repo w p d :
  lookup_dir p w = Some d -> is_git d = true -> _is_git_repo w p = true.
Proof.
  unfold lookup_dir, _is_git_repo, path_exists. intros L G.
  destruct (find _ (dirs w)) as [e|] eqn:F; [|discriminate].
  injection L as <-. apply find_some in F. destruct F as [I E].
  apply String.eqb_eq in E. apply orb_true_iff. right.
  apply existsb_exists. exists e. split; [assumption|].
  rewrite G, E. apply String.eqb_refl.
Qed.

Lemma get_current_branch_step path w d :
  lookup_dir path w = Some d -> is_git d = true ->
  get_current_branch path w = (Ok (Subprocess.branch_of_abbrev_ref (abbrev_ref d)), w).
Proof.
  intros L G. unfold get_current_branch.
  rewrite (bind_step _ _ _ _ _ (open_repo_step _ _ _ L G)). reflexivity.
Qed.

(** What makes a branch pass as checked out. *)
Lemma consistent_checked_out w b t d :
  In t (worktrees w) -> wt_branch t = b -> wt_path t = join (basedir w) b ->
  (forall t', In t' (worktrees w) -> wt_branch t' = b ->
              wt_path t' = join (basedir w) b) ->
  mem b (list_local_branches w) = true ->
  lookup_dir (join (basedir w) b) w = Some d -> is_git d = true ->
  abbrev_ref d = b -> String.eqb b "HEAD" = false ->
  _check_branch b (Some true) (Some true) w = (Ok tt, w).
Proof.
  intros I B P ALL L LD G AB NH.
  assert (F : found_in_worktree w b = true).
  { apply found_in_worktree_spec. eauto. }
  assert (D : deviating_entry w b = None) by now apply deviating_entry_none.
  rewrite check_branch_cascade. cbv zeta.
  rewrite F, D, L, (lookup_dir_is_git_repo _ _ _ LD G).
  rewrite (get_current_branch_step _ _ _ LD G). cbn [fst is_True is_False negb andb].
  rewrite AB. unfold Subprocess.branch_of_abbrev_ref. rewrite NH.
  cbn [option_string_eqb]. now rewrite String.eqb_refl.
Qed.

Lemma in_checked_out w b :
  In b (_list_checked_out_branches w) <-> found_in_worktree w b = true.
Proof.
  rewrite found_in_worktree_spec, checked_out_filter, in_map_iff. split.
  - intros (t & B & I). apply filter_In in I. destruct I as [I C].
    apply at_convention_path_eq in C. exists t. repeat split; try assumption.
    now rewrite C, B.
  - intros (t & I & B & P). exists t. split; [assumption|].
    apply filter_In. split; [assumption|]. apply at_convention_path_eq.
    now rewrite P, B.
Qed.

(** *** [co] *)

Lemma get_step {A : Type} (f : world -> M A) w : bind get f w = f w w.
Proof. reflexivity. Qed.

Lemma _cp_of_checked_out w branch dst :
  mem branch (_list_checked_out_branches w) = true ->
  found_in_worktree w dst = true ->
  _cp branch dst w
  = (match fst (_check_branch branch (Some true) (Some true) w) with
     | Ok _ => Die (msg_already_in_worktree dst)
     | Die msg => Die msg
     | Raise exn => Raise exn
     end, w).
Proof.
  intros CO F. unfold _cp. rewrite get_step. cbv zeta. rewrite CO.
  pose proof (check_branch_readonly branch (Some true) (Some true) w) as R.
  unfold bind at 1 2.
  destruct (_check_branch branch (Some true) (Some true) w) as [[[]|msg|exn] w'];
    cbn [fst snd] in *; subst w'; try reflexivity.
  unfold bind at 1. rewrite check_branch_cascade. cbv zeta.
  cbn [is_True is_False andb]. now rewrite F.
Qed.

(** X4: [co] of a branch that is already checked out at its convention path
    never succeeds and changes nothing; when the branch is consistent, the
    diagnostic is that it already exists in a worktree. *)
Theorem co_of_checked_out_branch (w : world) (branch : string) :
  mem branch (_list_checked_out_branches w) = true ->
  snd (co branch w) = w
  /\ fst (co branch w) <> Ok tt
  /\ (fst (_check_branch branch (Some true) (Some true) w) = Ok tt ->
      co branch w = (Die (msg_already_in_worktree branch), w)).
Proof.
  intros CO.
  assert (F : found_in_worktree w branch = true).
  { apply in_checked_out. now apply mem_In. }
  unfold co. rewrite get_step. unfold bind.
  rewrite (_cp_of_checked_out _ _ _ CO F).
  destruct (fst (_check_branch branch (Some true) (Some true) w)) as [[]|msg|exn];
    cbn [fst snd]; repeat split; try discriminate; try reflexivity.
Qed.

Lemma co_of_checked_out_branch_witness :
  co "a" Scenarios.clean_project
  = (Die (msg_already_in_worktree "a"), Scenarios.clean_project).
Proof.
  apply (co_of_checked_out_branch Scenarios.clean_project "a"); reflexivity.
Defined.

Lemma print_ok line w r w1 : print line w = (Ok r, w1) -> w1 = printed line w.
Proof. unfold print, modify, printed. now intros [= _ <-]. Qed.

Lemma mem_app x xs ys : mem x (xs ++ ys) = mem x xs || mem x ys.
Proof. unfold mem. apply existsb_app. Qed.

Lemma local_after_new_ref w branch c (w' : world) :
  heads w' = heads w ++ [(branch, c)] ->
  startswith "__" branch = false ->
  mem branch (list_local_branches w') = true.
Proof.
  intros H NC. apply mem_In. unfold list_local_branches, all_heads.
  apply filter_In. split.
  - rewrite H, map_app. apply in_or_app. right. now left.
  - now rewrite NC.
Qed.

Lemma local_not_control w branch :
  mem branch (list_local_branches w) = true -> startswith "__" branch = false.
Proof.
  intros H. apply mem_In in H. unfold list_local_branches in H.
  apply filter_In in H. destruct H as [_ H]. now apply negb_true_iff in H.
Qed.


Lemma keys_consistent w1 dst d :
  In (join (basedir w1) dst, dst) (wt_keys w1) ->
  (forall k, In k (wt_keys w1) -> snd k = dst -> fst k = join (basedir w1) dst) ->
  In dst (all_heads w1) ->
  startswith "__" dst = false -> String.eqb dst "HEAD" = false ->
  lookup_dir (join (basedir w1) dst) w1 = Some d ->
  is_git d = true -> abbrev_ref d = dst ->
  _check_branch dst (Some true) (Some true) w1 = (Ok tt, w1)
  /\ In dst (_list_checked_out_branches w1).
Proof.
  intros KI ALL HN NC NH LD G AB.
  unfold wt_keys in KI. apply in_map_iff in KI. destruct KI as (t & KT & IT).
  unfold wt_key in KT. injection KT as PT BT.
  assert (IN : In dst (_list_checked_out_branches w1)).
  { apply in_checked_out, found_in_worktree_spec. exists t. now repeat split. }
  split; [|exact IN].
  eapply consistent_checked_out with (t := t); try eassumption.
  - intros t' I' B'. apply (ALL (wt_key t')); [now apply in_map | exact B'].
  - apply mem_In. unfold list_local_branches. apply filter_In. split; [exact HN|].
    now rewrite NC.
Qed.


Lemma get_current_branch_dirs path w w' :
  dirs w' = dirs w ->
  fst (get_current_branch path w') = fst (get_current_branch path w).
Proof.
  unfold get_current_branch, open_repo, lookup_dir, bind, get, ret, raise.
  cbn [fst snd]. intros ->.
  destruct (find _ (dirs w)) as [e|]; cbn [option_map]; [|reflexivity].
  now destruct (is_git (snd e)).
Qed.







(** *** [cp] *)





(** *** [mv] *)

Lemma check_branch_same_repo b iw ib w w' :
  basedir w' = basedir w -> dirs w' = dirs w -> uprooted w' = uprooted w ->
  worktrees w' = worktrees w -> heads w' = heads w ->
  fst (_check_branch b iw ib w') = fst (_check_branch b iw ib w).
Proof.
  intros B D U W H. rewrite !check_branch_cascade. cbv zeta. cbn [fst].
  rewrite (get_current_branch_dirs _ w w' D).
  unfold found_in_worktree, deviating_entry, list_worktrees, list_local_branches,
    all_heads, _is_git_repo, path_exists, isdir, occupied.
  now rewrite B, D, U, W, H.
Qed.

Lemma check_branch_transfer b iw ib w w' :
  basedir w' = basedir w -> dirs w' = dirs w -> uprooted w' = uprooted w ->
  worktrees w' = worktrees w -> heads w' = heads w ->
  _check_branch b iw ib w = (Ok tt, w) ->
  _check_branch b iw ib w' = (Ok tt, w').
Proof.
  intros B D U W H E.
  pose proof (check_branch_same_repo b iw ib w w' B D U W H) as S.
  pose proof (check_branch_readonly b iw ib w') as R.
  rewrite E in S. cbn [fst] in S.
  destruct (_check_branch b iw ib w') as [r wx]. cbn [fst snd] in *. now subst.
Qed.

Lemma presence_same_repo w w' name :
  basedir w' = basedir w -> dirs w' = dirs w -> uprooted w' = uprooted w ->
  worktrees w' = worktrees w ->
  heads w' = heads w -> remote_heads w' = remote_heads w ->
  presence_of w' name = presence_of w name.
Proof.
  intros B D U W H R.
  unfold presence_of, isdir, occupied, list_worktree_branches, list_worktrees,
    list_local_branches, list_remote_branches, all_heads.
  now rewrite B, D, U, W, H, R.
Qed.

Lemma checked_out_same_repo w w' :
  basedir w' = basedir w -> worktrees w' = worktrees w ->
  _list_checked_out_branches w' = _list_checked_out_branches w.
Proof. intros B W. rewrite !checked_out_filter. now rewrite B, W. Qed.

(** X7: a successful [mv] leaves the old name in none of the three local
    namespaces (no directory at its convention path, no worktree entry, no
    local branch; what the remote has is not touched) and the new name as a
    consistent checked-out branch: it is listed by
    [_list_checked_out_branches] and passes
    [_check_branch(dst, in_worktree=True, in_branch=True)]. The old name was
    checked out at its convention path before. *)
Theorem mv_result_is_consistent (w : world) (src dst : string) (w1 : world) :
  mv src dst w = (Ok tt, w1) ->
  exists src',
    (String.eqb src "." = false -> src' = src)
    /\ In src' (_list_checked_out_branches w)
    /\ presence_of w1 src'
       = {| in_directory := false; in_worktree := false; in_local := false;
            in_remote := in_remote (presence_of w src') |}
    /\ _check_branch dst (Some true) (Some true) w1 = (Ok tt, w1)
    /\ In dst (_list_checked_out_branches w1).
Proof.
  intros H. unfold mv in H.
  apply bind_ok in H as [cur [w' [GB H]]].
  pose proof (_get_branch_readonly w) as RO. rewrite GB in RO. simpl in RO. subst w'.
  apply bind_ok in H as [src' [w' [RD H]]].
  apply resolve_dot_ok in RD as [-> [SD _]].
  apply bind_ok in H as [[] [w' [A1 H]]]. apply assert_name_ok in A1 as [-> _].
  apply bind_ok in H as [[] [w' [A2 H]]].
  apply assert_name_ok in A2 as [-> (c0 & rest0 & DST & AL)].
  apply bind_ok in H as [w' [w'' [G H]]]. injection G as <- <-.
  apply bind_ok in H as [[] [wa [CS H]]].
  pose proof (check_branch_ok _ _ _ _ _ CS) as [_ [_ [FS _]]].
  apply checked_out_ok in CS as [-> [d [h [L [G [A [N [R _]]]]]]]].
  apply bind_ok in H as [[] [wb [CD H]]].
  apply check_branch_ok in CD as [-> [_ [_ [FD _]]]].
  destruct (FD eq_refl) as [FD' _].
  pose proof (found_differs _ _ _ (FS eq_refl) FD') as NE.
  apply bind_ok in H as [cid [wc [C H]]].
  pose proof (_commit_same_names _ _ _ _ _ _ L G A R C) as SN.
  destruct (_commit_result _ _ _ _ _ _ L G A N R C) as [BD [_ [RC [_ [CL DI]]]]].
  apply bind_ok in H as [[] [w2 [CB H]]].
  apply create_branch_ok in CB as [c [RS [NH [NHD ->]]]].
  cbn [resolve] in RS. injection RS as <-.
  apply bind_ok in H as [[] [w3 [AW H]]].
  apply add_worktree_ok in AW as [c [RF [D [NW ->]]]].
  cbn [heads set_heads] in RF.
  rewrite (lookup_ref_app_new _ _ _ NH) in RF. injection RF as <-.
  rewrite <- BD in D, H.
  apply bind_ok in H as [[] [w4 [DW H]]].
  apply delete_worktree_ok in DW as [-> _].
  apply bind_ok in H as [[] [w5 [DB H]]].
  unfold delete_branch, refused in DB. apply guarded_ok in DB as [_ DB].
  revert DB. step.
  match goal with |- context [if ?b then _ else _] => destruct b end; [|discriminate].
  intros DB. injection DB as <-.
  apply bind_ok in H as [[] [w6 [CR H]]].
  unfold _commit_after_rename in CR.
  apply bind_ok in CR as [u [u' [G' CR]]]. injection G' as <- <-.
  apply bind_ok in CR as [pid [w7 [CM CR]]].
  revert CR. step. intros CR. injection CR as <-.
  apply commit_ok in CM as [d' [L' [G' [_ [-> ->]]]]].
  set (w2 := set_heads (heads wc ++ [(dst, cid)]) wc) in *.
  set (w3 := register_worktree (join (basedir wc) dst) dst cid w2) in *.
  pose proof (worktree_deleted_fields src' w3) as F. cbv zeta in F.
  destruct F as (FB & _ & _ & _ & FH & FRH & _).
  change (basedir w3) with (basedir wc) in FB.
  change (heads w3) with (heads wc ++ [(dst, cid)]) in FH.
  change (remote_heads w3) with (remote_heads wc) in FRH.
  assert (FH' : heads (worktree_dirs_cleared src'
                         (worktrees wc ++ [{| wt_path := join (basedir wc) dst;
                                              wt_head := cid; wt_branch := dst |}])
                         w3)
                = heads wc ++ [(dst, cid)]) by exact FH.
  rewrite FH' in *.
  set (w5 := set_heads (filter (fun r : string * oid => negb (fst r =? src'))
                          (heads wc ++ [(dst, cid)]))
               (worktree_deleted src' w3)) in *.
  assert (B5' : basedir w5 = basedir wc) by exact FB.
  rewrite B5' in *.
  assert (D' : d' = {| is_git := true; abbrev_ref := dst; changes := [] |}).
  { revert L'. unfold lookup_dir, w5. cbn [dirs set_heads].
    rewrite worktree_deleted_dirs. unfold w3, w2.
    cbn [dirs worktrees set_heads set_worktrees set_dirs register_worktree].
    rewrite filter_app.
    rewrite find_app_none
      by (apply find_filter_none; apply (occupied_false_find _ _ D)).
    simpl. destruct (outside src' _ _); simpl; [|discriminate].
    rewrite String.eqb_refl. simpl. congruence. }
  set (w6 := record_commit (join (basedir wc) dst)
               [("Rename " ++ quoted src' ++ " to " ++ quoted dst)%string] d'
               (fresh_oid w5) w5) in *.
  assert (NE' : String.eqb dst src' = false) by (now rewrite String.eqb_sym).
  assert (FIN : basedir w1 = basedir w6 /\ dirs w1 = dirs w6
                /\ worktrees w1 = worktrees w6 /\ heads w1 = heads w6
                /\ remote_heads w1 = remote_heads w6
                /\ uprooted w1 = uprooted w6).
  { revert H. unfold print. step.
    destruct (option_string_eqb cur src'); unfold _cd; step; intros H;
      injection H as <-; repeat split. }
  destruct FIN as (F1 & F2 & F3 & F4 & F5 & F6).
  assert (HD5 : In dst (all_heads w5)).
  { unfold all_heads, w5. cbn [heads set_heads]. apply in_map_iff.
    exists (dst, cid). split; [reflexivity|]. apply filter_In. split.
    - apply in_or_app. right. now left.
    - cbn [fst]. now rewrite NE'. }
  assert (SN56 : same_names w5 w6).
  { apply record_commit_names. intros _. subst d'. cbn [abbrev_ref].
    now apply mem_In. }
  pose proof (same_names_isdir _ _ (join (basedir w) src') SN56) as I6.
  destruct SN56 as (B6 & _ & R6 & DN6 & K6 & HN6 & _).
  assert (B5 : basedir w5 = basedir w) by (rewrite B5'; exact BD).
  destruct SN as (_ & _ & RW & DNW & KW & HNW & _).
  (* the source is gone *)
  assert (TS : exists t, In t (worktrees w3) /\ wt_branch t = src'
                         /\ wt_path t = join (basedir w) src').
  { destruct (proj1 (found_in_worktree_spec w src') (FS eq_refl)) as (t & I & B & P).
    assert (KI : In (wt_key t) (wt_keys wc)) by (rewrite KW; now apply in_map).
    unfold wt_keys in KI. apply in_map_iff in KI. destruct KI as (t' & KT & IT).
    unfold wt_key in KT. injection KT as PT BT.
    exists t'. split; [|split; congruence].
    unfold w3, register_worktree. cbn [worktrees set_worktrees set_dirs].
    apply in_or_app. now left. }
  assert (GONE : isdir w5 (join (basedir w) src') = false).
  { destruct TS as (t & I & B & P). rewrite <- P.
    exact (worktree_dirs_cleared_gone src' (worktrees w3) t w3 I B). }
  assert (NOWT : mem src' (list_worktree_branches w5) = false).
  { exact (worktree_deleted_gone src' w3). }
  assert (NOLOC : mem src' (list_local_branches w5) = false).
  { apply mem_false_In. intros I. unfold list_local_branches in I.
    apply filter_In in I. destruct I as [I _]. unfold all_heads in I.
    apply in_map_iff in I. destruct I as (r & FR & IR).
    unfold w5 in IR. cbn [heads set_heads] in IR. apply filter_In in IR.
    destruct IR as [_ X]. rewrite FR, String.eqb_refl in X. discriminate. }
  assert (PS : presence_of w6 src'
               = {| in_directory := false; in_worktree := false; in_local := false;
                    in_remote := in_remote (presence_of w src') |}).
  { unfold presence_of. f_equal.
    - rewrite B6, B5, I6. exact GONE.
    - rewrite worktree_branches_keys, K6, <- worktree_branches_keys. exact NOWT.
    - unfold list_local_branches. rewrite HN6. exact NOLOC.
    - unfold list_remote_branches. rewrite R6.
      change (remote_heads w5) with (remote_heads (worktree_deleted src' w3)).
      now rewrite FRH, RW. }
  (* the destination is checked out *)
  assert (ALIVE : isdir w5 (join (basedir wc) dst) = true).
  { eapply lookup_dir_isdir. exact L'. }
  assert (K5 : wt_keys w5
               = map wt_key (filter (fun t => isdir w5 (wt_path t))
                               (worktrees wc ++ [{| wt_path := join (basedir wc) dst;
                                                    wt_head := cid;
                                                    wt_branch := dst |}]))).
  { reflexivity. }
  assert (LD6 : lookup_dir (join (basedir w6) dst) w6
                = Some {| is_git := true; abbrev_ref := dst; changes := [] |}).
  { rewrite B6, B5'.
    unfold lookup_dir in *. unfold w6.
    cbn [dirs record_commit set_history set_heads set_worktrees set_dirs].
    rewrite find_map_key
      by (intros e; destruct (String.eqb (fst e) (join (basedir wc) dst)); reflexivity).
    destruct (find _ (dirs w5)) as [e|] eqn:F; [|discriminate].
    cbn [option_map] in *. injection L' as L'.
    apply find_some in F as [_ F]. rewrite F. cbn [snd]. now rewrite L', D'. }
  assert (CK : _check_branch dst (Some true) (Some true) w6 = (Ok tt, w6)
               /\ In dst (_list_checked_out_branches w6)).
  { eapply keys_consistent.
    - rewrite K6, K5, B6, B5'.
      apply in_map_iff. eexists. split; [|apply filter_In; split].
      2: { apply in_or_app. right. left. reflexivity. }
      + reflexivity.
      + exact ALIVE.
    - intros k KI SK. rewrite K6, K5 in KI. apply in_map_iff in KI.
      destruct KI as (t & <- & IT). apply filter_In in IT. destruct IT as [IT _].
      apply in_app_or in IT. destruct IT as [IT|[<-|[]]].
      + exfalso. apply mem_false_In in NW. apply NW.
        unfold list_worktree_branches, list_worktrees, w2. cbn [worktrees set_heads].
        cbn [snd wt_key] in SK. rewrite <- SK. now apply in_map.
      + cbn [fst wt_key wt_path]. now rewrite B6, B5'.
    - rewrite HN6. exact HD5.
    - rewrite DST. now apply alnum_not_control.
    - exact NHD.
    - exact LD6.
    - reflexivity.
    - reflexivity. }
  destruct CK as [CK IN].
  exists src'. split; [exact SD|]. split.
  { apply in_checked_out. now apply FS. }
  split.
  { rewrite (presence_same_repo w6 w1 src' F1 F2 F6 F3 F4 F5). exact PS. }
  split.
  { now apply (check_branch_transfer _ _ _ w6 w1). }
  rewrite (checked_out_same_repo w6 w1 F1 F3). exact IN.
Qed.

Lemma mv_result_is_consistent_witness :
  presence_of (snd (mv "a" "c" Scenarios.dirty_project)) "a"
  = {| in_directory := false; in_worktree := false; in_local := false;
       in_remote := false |}
  /\ In "c" (_list_checked_out_branches (snd (mv "a" "c" Scenarios.dirty_project))).
Proof.
  destruct (mv_result_is_consistent Scenarios.dirty_project "a" "c"
              (snd (mv "a" "c" Scenarios.dirty_project)))
    as (src' & SD & _ & PS & _ & IN).
  - vm_compute. reflexivity.
  - rewrite (SD eq_refl) in PS. split; [exact PS | exact IN].
Defined.

(** *** [cm] *)

(** The message [_commit] gives the commit it makes. *)
Definition commit_message (branch : string) (message : option string) : string :=
  if truthy message
  then match message with Some m => m | None => EmptyString end
  else ("Update " ++ quoted branch)%string.

Lemma _commit_pending branch message w d h :
  lookup_dir (join (basedir w) branch) w = Some d -> is_git d = true ->
  lookup_ref branch (heads w) = Some h -> changes d <> [] ->
  _commit branch message w
  = commit (join (basedir w) branch) [commit_message branch message] w.
Proof.
  intros L G R C. unfold _commit, rev_parse_head, add_all, status.
  step. rewrite (open_repo_step _ _ _ L G), R. cbn [fst snd].
  rewrite (open_repo_step _ _ _ L G). cbn [fst snd].
  rewrite (open_repo_step _ _ _ L G). cbn [fst snd].
  destruct (changes d) as [|x xs] eqn:E; [congruence|].
  cbn [List.length Nat.ltb Nat.leb]. unfold commit_message.
  destruct message as [m|]; [|reflexivity]. now destruct (truthy (Some m)).
Qed.

(** A commit empties the change list of its directory and leaves the
    other directories, and what [HEAD] names in each, as they were. *)
Lemma lookup_dir_record_commit q path msgs d c w :
  lookup_dir q (record_commit path msgs d c w)
  = option_map
      (fun x => if String.eqb q path
                then {| is_git := is_git x; abbrev_ref := abbrev_ref x; changes := [] |}
                else x)
      (lookup_dir q w).
Proof.
  unfold lookup_dir.
  cbn [dirs record_commit set_history set_heads set_worktrees set_dirs].
  rewrite find_map_key
    by (intros e; destruct (String.eqb (fst e) path); reflexivity).
  destruct (find _ (dirs w)) as [e|] eqn:F; [|reflexivity].
  cbn [option_map]. apply find_some in F. destruct F as [_ F].
  apply String.eqb_eq in F. rewrite F.
  now destruct (String.eqb q path).
Qed.

Lemma get_current_branch_record_commit q path msgs d c w :
  fst (get_current_branch q (record_commit path msgs d c w))
  = fst (get_current_branch q w).
Proof.
  unfold get_current_branch, open_repo. step.
  rewrite lookup_dir_record_commit.
  destruct (lookup_dir q w) as [x|]; cbn [option_map]; [|reflexivity].
  destruct (String.eqb q path); cbn [is_git abbrev_ref];
    now destruct (is_git x).
Qed.

Lemma lookup_ref_set_ref_other name on c hs :
  String.eqb name on = false ->
  lookup_ref name (set_ref on c hs) = lookup_ref name hs.
Proof.
  intros NE. unfold set_ref. destruct (mem on (map fst hs)) eqn:M.
  - unfold lookup_ref. rewrite find_map_key.
    + destruct (find _ hs) as [r|] eqn:F; [|reflexivity].
      cbn [option_map]. apply find_some in F. destruct F as [_ F].
      apply String.eqb_eq in F. now rewrite F, NE.
    + intros r. now destruct (String.eqb_spec (fst r) on).
  - destruct (lookup_ref name hs) as [h|] eqn:F.
    + now apply lookup_ref_app_old.
    + unfold lookup_ref in *.
      destruct (find (fun r => String.eqb (fst r) name) hs) eqn:F'; [discriminate|].
      rewrite find_app_none by assumption. cbn [find fst].
      now rewrite String.eqb_sym, NE.
Qed.

Lemma lookup_ref_record_commit name path msgs d c w h :
  lookup_ref name (heads w) = Some h ->
  exists h', lookup_ref name (heads (record_commit path msgs d c w)) = Some h'.
Proof.
  intros R. cbn [heads record_commit set_history set_heads].
  destruct (String.eqb (abbrev_ref d) "HEAD"); [eauto|].
  destruct (String.eqb name (abbrev_ref d)) eqn:E.
  - apply String.eqb_eq in E. subst name. exists c.
    eapply lookup_ref_set_ref. exact R.
  - exists h. now rewrite lookup_ref_set_ref_other.
Qed.

Lemma _get_branch_same_dirs w w' :
  basedir w' = basedir w -> cwd_rel w' = cwd_rel w ->
  (forall q, fst (get_current_branch q w') = fst (get_current_branch q w)) ->
  fst (_get_branch w') = fst (_get_branch w).
Proof.
  intros B C G. unfold _get_branch. step. rewrite B, C.
  destruct (is_empty (strip "./" (cwd_rel w))); [reflexivity|]. apply G.
Qed.

Lemma cm_step w message branch :
  fst (_get_branch w) = Ok (Some branch) ->
  cm message w
  = bind (_commit branch message)
      (fun _ => print ("Successfully commited " ++ quoted branch ++ "!")) w.
Proof.
  intros GB. unfold cm. now rewrite (bind_step _ _ _ _ _ (_get_branch_step _ _ GB)).
Qed.

(** X8: [cm] in a worktree whose branch can be read. With nothing to commit
    it makes no commit and still reports success. With pending changes it
    makes exactly one commit, not empty, whose message is the one given or,
    when none or the empty one is given, [Update "branch"]; the work tree
    is clean afterwards, so that a second [cm] only prints its line again. *)
Theorem cm_commits_pending_changes (w : world) (message : option string)
  (branch : string) (d : directory) (h : oid) :
  fst (_get_branch w) = Ok (Some branch) ->
  lookup_dir (join (basedir w) branch) w = Some d -> is_git d = true ->
  lookup_ref branch (heads w) = Some h ->
  let done := ("Successfully commited " ++ quoted branch ++ "!")%string in
  (changes d = [] -> cm message w = (Ok tt, printed done w))
  /\ (changes d <> [] -> isdir w (repo_dir w) = true ->
      exists w1 ci,
        cm message w = (Ok tt, w1)
        /\ history w1 = history w ++ [ci]
        /\ c_id ci = fresh_oid w
        /\ c_messages ci = [commit_message branch message]
        /\ c_empty ci = false
        /\ stdout w1 = stdout w ++ [done]
        /\ forall message', cm message' w1 = (Ok tt, printed done w1)).
Proof.
  intros GB L G R done. split.
  - intros C. rewrite (cm_step _ _ _ GB).
    now rewrite (bind_step _ _ _ _ _ (_commit_clean _ message _ _ _ L G R C)).
  - intros C AL. rewrite (cm_step _ _ _ GB).
    unfold bind at 1. rewrite (_commit_pending _ message _ _ _ L G R C).
    rewrite (commit_step _ _ _ _ L G AL).
    set (w2 := record_commit (join (basedir w) branch)
                 [commit_message branch message] d (fresh_oid w) w).
    do 2 eexists. split; [reflexivity|].
    split.
    { unfold print, modify. cbn [snd history set_io].
      unfold w2. cbn [history record_commit set_history]. reflexivity. }
    destruct (changes d) as [|x xs] eqn:E; [congruence|].
    repeat split.
    intros message'.
    assert (GB2 : fst (_get_branch (printed done w2)) = Ok (Some branch)).
    { rewrite <- GB. apply _get_branch_same_dirs; try reflexivity.
      intros q.
      rewrite (get_current_branch_dirs q w2 (printed done w2) eq_refl).
      apply get_current_branch_record_commit. }
    destruct (lookup_ref_record_commit branch (join (basedir w) branch)
                [commit_message branch message] d (fresh_oid w) w h R) as [h' R'].
    rewrite (cm_step _ _ _ GB2).
    assert (L2 : lookup_dir (join (basedir (printed done w2)) branch) (printed done w2)
                 = Some {| is_git := is_git d; abbrev_ref := abbrev_ref d;
                           changes := [] |}).
    { change (lookup_dir (join (basedir w) branch) w2 = Some
                {| is_git := is_git d; abbrev_ref := abbrev_ref d; changes := [] |}).
      unfold w2. rewrite lookup_dir_record_commit, L. cbn [option_map].
      now rewrite String.eqb_refl. }
    now rewrite (bind_step _ _ _ _ _
                   (_commit_clean _ message' _ _ h' L2 G R' eq_refl)).
Qed.

Lemma cm_commits_pending_changes_witness :
  exists w1 ci,
    cm (Some "fix") (chdir "a" Scenarios.dirty_project) = (Ok tt, w1)
    /\ history w1 = [ci] /\ c_messages ci = ["fix"]
    /\ cm None w1
       = (Ok tt, printed ("Successfully commited " ++ quoted "a" ++ "!") w1).
Proof.
  destruct (cm_commits_pending_changes (chdir "a" Scenarios.dirty_project)
              (Some "fix") "a"
              {| is_git := true; abbrev_ref := "a"; changes := ["x.txt"] |} 1)
    as [_ H]; try reflexivity.
  destruct H as (w1 & ci & E & HI & _ & M & _ & _ & AGAIN);
    [discriminate | reflexivity |].
  exists w1, ci. repeat split; [exact E | exact HI | exact M | apply AGAIN].
Defined.


(** *** [_confirm] and the question of [rm] *)

(** A line [_confirm] accepts: empty, or [y] or [n] in either case. *)
Definition valid_answer (line : string) : bool :=
  is_empty (lower line) || mem (lower line) ["y"; "n"].

(** What an accepted line answers. *)
Definition answer (default : bool) (line : string) : bool :=
  if is_empty (lower line) then default else String.eqb (lower line) "y".

(** What the terminal shows for the lines that were turned down. *)
Definition turned_down (prompt : string) (lines : list string) : list string :=
  flat_map (fun _ => [prompt; "Invalid option"]) lines.

Lemma confirm_loop_invalid prompt default line rest output :
  valid_answer line = false ->
  confirm_loop prompt default (line :: rest) output
  = confirm_loop prompt default rest (output ++ [prompt; "Invalid option"]).
Proof.
  unfold valid_answer. intros V. cbn [confirm_loop]. cbv zeta.
  rewrite <- negb_orb, V. cbn [negb]. now rewrite <- app_assoc.
Qed.

Lemma confirm_loop_valid prompt default line rest output :
  valid_answer line = true ->
  confirm_loop prompt default (line :: rest) output
  = (Ok (answer default line), rest, output ++ [prompt]).
Proof.
  unfold valid_answer, answer. intros V. cbn [confirm_loop]. cbv zeta.
  rewrite <- negb_orb, V. cbn [negb].
  destruct (is_empty (lower line)); [reflexivity|].
  now destruct (String.eqb (lower line) "y").
Qed.

Lemma confirm_loop_skips prompt default pre :
  forall tail output,
    forallb (fun l => negb (valid_answer l)) pre = true ->
    confirm_loop prompt default (pre ++ tail) output
    = confirm_loop prompt default tail (output ++ turned_down prompt pre).
Proof.
  induction pre as [|l pre IH]; intros tail output INV.
  - cbn. now rewrite app_nil_r.
  - cbn [forallb] in INV. apply andb_true_iff in INV. destruct INV as [V INV].
    apply negb_true_iff in V. cbn [app].
    rewrite (confirm_loop_invalid _ _ _ _ _ V), (IH _ _ INV).
    unfold turned_down. cbn [flat_map]. now rewrite <- app_assoc.
Qed.

(** X9: [_confirm] is answered by the first line that is empty, [y] or [n]
    (in either case): the empty line gives the default. Every line before
    it costs one prompt and one [Invalid option], the lines after it stay
    unread, and when no such line comes the read past the end of the input
    is an [EOFError]. Nothing but the terminal changes. *)
Theorem confirm_takes_first_valid_line (w : world) (message : string)
  (default : bool) (pre : list string) :
  forallb (fun l => negb (valid_answer l)) pre = true ->
  let prompt := (message ++ (if default then "  [Y/n]" else "  [y/N]"))%string in
  (forall line rest,
      stdin w = pre ++ line :: rest -> valid_answer line = true ->
      _confirm message default w
      = (Ok (answer default line),
         set_io rest (stdout w ++ turned_down prompt pre ++ [prompt]) w))
  /\ (stdin w = pre ->
      _confirm message default w
      = (Raise "EOFError",
         set_io [] (stdout w ++ turned_down prompt pre ++ [prompt]) w)).
Proof.
  intros INV prompt. split.
  - intros line rest IN V. unfold _confirm. fold prompt. rewrite IN.
    rewrite (confirm_loop_skips _ _ _ _ _ INV), (confirm_loop_valid _ _ _ _ _ V).
    now rewrite <- app_assoc.
  - intros IN. unfold _confirm. fold prompt. rewrite IN.
    rewrite <- (app_nil_r pre) at 1.
    rewrite (confirm_loop_skips _ _ _ _ _ INV). cbn [confirm_loop].
    now rewrite <- app_assoc.
Qed.

Lemma confirm_takes_first_valid_line_witness :
  _confirm "Sure?" true
    (set_io ["maybe"; "N"; "y"] [] Scenarios.clean_project)
  = (Ok false,
     set_io ["y"] ["Sure?  [Y/n]"; "Invalid option"; "Sure?  [Y/n]"]
       (set_io ["maybe"; "N"; "y"] [] Scenarios.clean_project)).
Proof.
  destruct (confirm_takes_first_valid_line
              (set_io ["maybe"; "N"; "y"] [] Scenarios.clean_project)
              "Sure?" true ["maybe"] eq_refl) as [H _].
  apply (H "N" ["y"]); reflexivity.
Defined.

(** The question [rm] asks. *)
Definition rm_question (branch : string) : string :=
  ("Are you sure you want to remove branch " ++ quoted branch ++ "?")%string.

Lemma rm_after_answer w branch cur name r wq :
  fst (_get_branch w) = Ok cur ->
  resolve_dot branch cur w = (Ok name, w) ->
  _confirm (rm_question name) false w = (r, wq) ->
  rm branch false w
  = match r with
    | Ok true =>
        (assert_name name ;;
         remove_namespaces name ;;
         if option_string_eqb cur name then _cd (basedir w) else ret tt) wq
    | Ok false => (Ok tt, printed "Aborted!" wq)
    | Die msg => (Die msg, wq)
    | Raise exn => (Raise exn, wq)
    end.
Proof.
  intros GB RD CF. unfold rm. rewrite get_step. cbv zeta.
  rewrite (bind_step _ _ _ _ _ (_get_branch_step _ _ GB)).
  rewrite (bind_step _ _ _ _ _ RD). cbn [negb].
  unfold bind at 1. fold (rm_question name). rewrite CF.
  destruct r as [[|]|msg|exn]; reflexivity.
Qed.

Lemma rm_after_yes w branch cur name :
  fst (_get_branch w) = Ok cur ->
  resolve_dot branch cur w = (Ok name, w) ->
  rm branch true w
  = (assert_name name ;;
     remove_namespaces name ;;
     if option_string_eqb cur name then _cd (basedir w) else ret tt) w.
Proof.
  intros GB RD. unfold rm. rewrite get_step. cbv zeta.
  rewrite (bind_step _ _ _ _ _ (_get_branch_step _ _ GB)).
  rewrite (bind_step _ _ _ _ _ RD). reflexivity.
Qed.

Lemma resolve_dot_any_state name cur w w' r :
  resolve_dot name cur w = (Ok r, w) -> resolve_dot name cur w' = (Ok r, w').
Proof.
  unfold resolve_dot. destruct (String.eqb name ".").
  - destruct cur; [|discriminate]. unfold ret. now intros [= ->].
  - unfold ret. now intros [= ->].
Qed.

(** X10: [rm] without [--yes] asks before it touches anything. On [n] or an
    empty line it prints [Aborted!] and the directories, worktree entries
    and refs stay as they were; on [y] it goes on exactly as [rm --yes]
    would from there; when the input ends without an answer it stops on
    [EOFError], again with nothing removed. *)
Theorem rm_asks_before_removing (w : world) (branch name : string)
  (cur : option string) (pre : list string) :
  fst (_get_branch w) = Ok cur ->
  resolve_dot branch cur w = (Ok name, w) ->
  forallb (fun l => negb (valid_answer l)) pre = true ->
  let prompt := (rm_question name ++ "  [y/N]")%string in
  let shown := stdout w ++ turned_down prompt pre ++ [prompt] in
  (forall line rest,
      stdin w = pre ++ line :: rest -> valid_answer line = true ->
      if answer false line
      then rm branch false w = rm branch true (set_io rest shown w)
      else rm branch false w = (Ok tt, printed "Aborted!" (set_io rest shown w)))
  /\ (stdin w = pre ->
      rm branch false w = (Raise "EOFError", set_io [] shown w)).
Proof.
  intros GB RD INV prompt shown.
  assert (ANS : forall line rest,
             stdin w = pre ++ line :: rest -> valid_answer line = true ->
             _confirm (rm_question name) false w
             = (Ok (answer false line), set_io rest shown w)).
  { intros line rest IN V. unfold _confirm, shown, prompt. rewrite IN.
    rewrite (confirm_loop_skips _ _ _ _ _ INV), (confirm_loop_valid _ _ _ _ _ V).
    now rewrite <- app_assoc. }
  assert (EOF : stdin w = pre ->
                _confirm (rm_question name) false w
                = (Raise "EOFError", set_io [] shown w)).
  { intros IN. unfold _confirm, shown, prompt. rewrite IN.
    rewrite <- (app_nil_r pre) at 1.
    rewrite (confirm_loop_skips _ _ _ _ _ INV). cbn [confirm_loop].
    now rewrite <- app_assoc. }
  split.
  - intros line rest IN V. specialize (ANS line rest IN V).
    rewrite (rm_after_answer _ _ _ _ _ _ GB RD ANS).
    destruct (answer false line); [|reflexivity].
    symmetry. apply (rm_after_yes (set_io rest shown w) branch cur name).
    + rewrite <- GB. apply _get_branch_same_dirs; try reflexivity.
      intros q. now apply get_current_branch_dirs.
    + eapply resolve_dot_any_state. exact RD.
  - intros IN. specialize (EOF IN).
    now rewrite (rm_after_answer _ _ _ _ _ _ GB RD EOF).
Qed.

Lemma rm_asks_before_removing_witness :
  rm "a" false (set_io ["what"; "n"] [] Scenarios.clean_project)
  = (Ok tt,
     printed "Aborted!"
       (set_io []
          [(rm_question "a" ++ "  [y/N]")%string; "Invalid option";
           (rm_question "a" ++ "  [y/N]")%string]
          (set_io ["what"; "n"] [] Scenarios.clean_project))).
Proof.
  destruct (rm_asks_before_removing
              (set_io ["what"; "n"] [] Scenarios.clean_project)
              "a" "a" None ["what"] eq_refl eq_refl eq_refl) as [H _].
  apply (H "n" []); reflexivity.
Defined.

(** *** Names the assertion of [rm] turns down *)









(** *** [delete_worktree] and the branch lists *)



Lemma NoDup_filter {A : Type} (f : A -> bool) (l : list A) :
  NoDup l -> NoDup (filter f l).
Proof.
  induction 1 as [|x l N _ IH]; cbn [filter]; [constructor|].
  destruct (f x); [|exact IH]. constructor; [|exact IH].
  intros I. apply filter_In in I. now apply N.
Qed.

(** X13: [list_all_branches] is the remote list followed by the local
    branches the remote does not have, in their order: a name is listed
    exactly when it is remote or local, and once when neither list repeats
    it. Control branches (two leading underscores) are hidden on the local
    side only: one that is listed is a branch of the remote. *)
Theorem list_all_branches_is_union (w : world) :
  (forall b, In b (list_all_branches w)
             <-> In b (list_remote_branches w) \/ In b (list_local_branches w))
  /\ (exists rest,
         list_all_branches w = list_remote_branches w ++ rest
         /\ forall b, In b rest
                      <-> In b (list_local_branches w)
                          /\ ~ In b (list_remote_branches w))
  /\ (NoDup (list_remote_branches w) -> NoDup (list_local_branches w) ->
      NoDup (list_all_branches w))
  /\ (forall b, In b (list_all_branches w) -> startswith "__" b = true ->
                In b (list_remote_branches w)).
Proof.
  assert (REST : forall b,
             In b (filter (fun branch => negb (mem branch (list_remote_branches w)))
                     (list_local_branches w))
             <-> In b (list_local_branches w) /\ ~ In b (list_remote_branches w)).
  { intros b. rewrite filter_In, negb_true_iff, mem_false_In. reflexivity. }
  assert (UNION : forall b, In b (list_all_branches w)
             <-> In b (list_remote_branches w) \/ In b (list_local_branches w)).
  { intros b. unfold list_all_branches. cbv zeta. rewrite in_app_iff, REST.
    split.
    - intros [R|[L _]]; auto.
    - intros [R|L]; [now left|].
      destruct (mem b (list_remote_branches w)) eqn:M.
      + left. now apply mem_In.
      + right. split; [exact L | now apply mem_false_In]. }
  split; [exact UNION|].
  split; [eexists; split; [reflexivity | exact REST]|].
  split.
  - intros NR NL. unfold list_all_branches. cbv zeta.
    apply NoDup_app; [exact NR | now apply NoDup_filter |].
    intros b IR IL. apply REST in IL. now destruct IL.
  - intros b I C. apply UNION in I. destruct I as [R|L]; [exact R|].
    apply mem_In, local_not_control in L. congruence.
Qed.

(** *** [cd] *)

(** X14: [cd] without a branch sends the shell to the project root. With a
    branch it goes where the checker lets it: it succeeds exactly when the
    branch passes as a consistent checked-out branch, and then only the
    request to the shell changes, to the convention directory; when it does
    not succeed it ends as the checker did and nothing changes. A name
    without a worktree entry dies as not found in a worktree. *)
Theorem cd_follows_the_checker :
  (forall w, Commands.cd None w = (Ok tt, set_new_pwd (Some (basedir w)) w))
  /\ (forall w branch w1,
         Commands.cd (Some branch) w = (Ok tt, w1)
         <-> _check_branch branch (Some true) (Some true) w = (Ok tt, w)
             /\ w1 = set_new_pwd (Some (join (basedir w) branch)) w)
  /\ (forall w branch,
         fst (Commands.cd (Some branch) w) <> Ok tt ->
         Commands.cd (Some branch) w
         = (fst (_check_branch branch (Some true) (Some true) w), w))
  /\ (forall w branch,
         mem branch (list_worktree_branches w) = false ->
         Commands.cd (Some branch) w = (Die (msg_not_in_worktree branch), w)).
Proof.
  assert (EQ : forall w branch,
             Commands.cd (Some branch) w
             = match fst (_check_branch branch (Some true) (Some true) w) with
               | Ok _ => (Ok tt, set_new_pwd (Some (join (basedir w) branch)) w)
               | Die msg => (Die msg, w)
               | Raise exn => (Raise exn, w)
               end).
  { intros w branch. unfold Commands.cd. rewrite get_step. cbv zeta. unfold bind.
    pose proof (check_branch_readonly branch (Some true) (Some true) w) as R.
    destruct (_check_branch branch (Some true) (Some true) w) as [[[]|msg|exn] w'];
      cbn [fst snd] in *; now subst. }
  split; [reflexivity|]. split; [|split].
  - intros w branch w1. rewrite EQ.
    pose proof (check_branch_readonly branch (Some true) (Some true) w) as R.
    destruct (_check_branch branch (Some true) (Some true) w) as [[[]|msg|exn] w'];
      cbn [fst snd] in *; subst w'; split.
    + intros [= <-]. now split.
    + now intros [_ ->].
    + discriminate.
    + intros [X _]. discriminate X.
    + discriminate.
    + intros [X _]. discriminate X.
  - intros w branch. rewrite EQ.
    destruct (fst (_check_branch branch (Some true) (Some true) w)) as [[]|msg|exn];
      cbn [fst]; [congruence | reflexivity | reflexivity].
  - intros w branch NW. rewrite EQ.
    destruct (no_entry_not_found _ _ NW) as [F _].
    rewrite check_branch_cascade. cbv zeta. cbn [is_True andb fst]. now rewrite F.
Qed.

Lemma cd_follows_the_checker_witness :
  Commands.cd (Some "a") Scenarios.clean_project
  = (Ok tt, set_new_pwd (Some "/p/a") Scenarios.clean_project)
  /\ Commands.cd (Some "zz") Scenarios.clean_project
     = (Die (msg_not_in_worktree "zz"), Scenarios.clean_project).
Proof.
  destruct cd_follows_the_checker as (_ & OK & _ & NO). split.
  - apply (OK Scenarios.clean_project "a"). split; reflexivity.
  - apply (NO Scenarios.clean_project "zz"). reflexivity.
Defined.

(** *** [push] *)

(** The work tree of [branch] has nothing to commit and the branch is at
    [c]. *)
Definition settled (w : world) (branch : string) (c : oid) : Prop :=
  exists d, lookup_dir (join (basedir w) branch) w = Some d
            /\ is_git d = true /\ changes d = []
            /\ lookup_ref branch (heads w) = Some c.

Lemma _commit_inv branch message w d cid wc :
  lookup_dir (join (basedir w) branch) w = Some d -> is_git d = true ->
  _commit branch message w = (Ok cid, wc) ->
  exists h,
    lookup_ref branch (heads w) = Some h
    /\ ((changes d = [] /\ cid = h /\ wc = w)
        \/ (changes d <> [] /\ cid = fresh_oid w
            /\ wc = record_commit (join (basedir w) branch)
                      [commit_message branch message] d cid w)).
Proof.
  intros L G H.
  destruct (lookup_ref branch (heads w)) as [h|] eqn:R.
  - exists h. split; [reflexivity|].
    destruct (changes d) as [|x xs] eqn:C.
    + left. rewrite (_commit_clean _ message _ _ _ L G R C) in H.
      injection H as <- <-. now repeat split.
    + right. assert (C' : changes d <> []) by (rewrite C; discriminate).
      rewrite (_commit_pending _ message _ _ _ L G R C') in H.
      apply commit_ok in H. destruct H as (d0 & L0 & _ & _ & E1 & E2).
      rewrite L in L0. injection L0 as <-. subst cid. now repeat split.
  - exfalso. revert H. unfold _commit, rev_parse_head. step.
    rewrite (open_repo_step _ _ _ L G). cbn [fst snd]. rewrite R. discriminate.
Qed.

Lemma fresh_oid_not_remote w name c :
  In (name, c) (remote_heads w) -> c <> fresh_oid w.
Proof.
  intros I E. unfold fresh_oid in E.
  assert (LE : c <= list_max (map snd (heads w) ++ map snd (remote_heads w)
                              ++ map c_id (history w) ++ map wt_head (worktrees w))).
  { pose proof (proj1 (list_max_le _ (list_max (map snd (heads w)
                   ++ map snd (remote_heads w)
                   ++ map c_id (history w) ++ map wt_head (worktrees w))))
                  (Nat.le_refl _)) as F.
    rewrite Forall_forall in F. apply F.
    apply in_or_app. right. apply in_or_app. left.
    change c with (snd (name, c)). now apply in_map. }
  lia.
Qed.

Lemma remote_commit_id_loop branch refs :
  forall acc c,
    fold_left
      (fun (remote_commit_id : option oid) (ref : string * oid) =>
         if String.eqb (fst ref) branch then Some (snd ref) else remote_commit_id)
      refs acc = Some c ->
    acc = Some c \/ In (branch, c) refs.
Proof.
  induction refs as [|r refs IH]; intros acc c; cbn [fold_left]; [now left|].
  intros H. apply IH in H. destruct H as [H|H]; [|right; now right].
  destruct (String.eqb_spec (fst r) branch) as [E|E]; [|now left].
  injection H as <-. right. left. destruct r. cbn [fst snd] in *. now subst.
Qed.

Lemma remote_commit_id_in branch refs c :
  Commands.remote_commit_id branch refs = Some c -> In (branch, c) refs.
Proof.
  intros H. apply remote_commit_id_loop in H. now destruct H.
Qed.

Lemma remote_commit_id_app branch refs c :
  Commands.remote_commit_id branch (refs ++ [(branch, c)]) = Some c.
Proof.
  unfold Commands.remote_commit_id. rewrite fold_left_app. cbn [fold_left fst snd].
  now rewrite String.eqb_refl.
Qed.

Lemma remote_commit_id_set_ref branch refs c old :
  lookup_ref branch refs = Some old ->
  Commands.remote_commit_id branch (set_ref branch c refs) = Some c.
Proof.
  intros L. unfold set_ref. rewrite (lookup_ref_mem _ _ _ L).
  assert (EX : existsb (fun r => String.eqb (fst r) branch) refs = true).
  { unfold lookup_ref in L.
    destruct (find (fun r => String.eqb (fst r) branch) refs) as [r|] eqn:F;
      [|discriminate].
    apply find_some in F. apply existsb_exists. now exists r. }
  unfold Commands.remote_commit_id.
  assert (G : forall acc,
             fold_left
               (fun (remote_commit_id : option oid) (ref : string * oid) =>
                  if String.eqb (fst ref) branch then Some (snd ref)
                  else remote_commit_id)
               (map (fun r => if String.eqb (fst r) branch then (branch, c) else r) refs)
               acc
             = if existsb (fun r => String.eqb (fst r) branch) refs
               then Some c else acc).
  { clear. induction refs as [|r refs IH]; intros acc; [reflexivity|].
    cbn [map fold_left existsb]. rewrite IH.
    destruct (String.eqb (fst r) branch) eqn:E; cbn [fst snd orb].
    - rewrite String.eqb_refl. now destruct (existsb _ refs).
    - now rewrite E. }
  now rewrite G, EX.
Qed.

Lemma same_commit_true commit_id remote :
  Commands.same_commit commit_id remote = true <-> remote = Some commit_id.
Proof.
  unfold Commands.same_commit. destruct remote as [c|]; [|split; discriminate].
  rewrite Nat.eqb_eq. split; congruence.
Qed.

Section Remote.
Variable fast_forward : oid -> oid -> bool.

Lemma push_when_settled w branch c message :
  fst (_get_branch w) = Ok (Some branch) ->
  settled w branch c ->
  Commands.remote_commit_id branch (remote_heads w) = Some c ->
  Commands.push fast_forward message w
  = (Ok tt, printed "Remote already up-to-date!" w).
Proof.
  intros GB (d & L & G & C & R) RC. unfold Commands.push.
  rewrite (bind_step _ _ _ _ _ (_get_branch_step _ _ GB)). rewrite get_step.
  rewrite (bind_step _ _ _ _ _ (open_repo_step _ _ _ L G)).
  rewrite (bind_step _ _ _ _ _ (_commit_clean _ message _ _ _ L G R C)).
  rewrite get_step. cbv zeta. rewrite RC.
  replace (Commands.same_commit c (Some c)) with true
    by (symmetry; now apply same_commit_true).
  reflexivity.
Qed.

(** X15: after a successful [push] the remote has the branch where the local
    ref is, and the work tree of the branch is clean; so whatever the
    remote accepts as a fast-forward, a second [push] makes no commit,
    pushes nothing and only reports that the remote is up to date. *)
Theorem push_then_push_is_up_to_date (w : world) (message : option string)
  (w1 : world) :
  Commands.push fast_forward message w = (Ok tt, w1) ->
  exists branch c,
    fst (_get_branch w) = Ok (Some branch)
    /\ lookup_ref branch (heads w1) = Some c
    /\ Commands.remote_commit_id branch (remote_heads w1) = Some c
    /\ forall message',
        Commands.push fast_forward message' w1
        = (Ok tt, printed "Remote already up-to-date!" w1).
Proof.
  intros H. unfold Commands.push in H.
  apply bind_ok in H. destruct H as (cur & w' & GB & H).
  pose proof (_get_branch_readonly w) as RO. rewrite GB in RO. cbn [snd] in RO.
  subst w'. destruct cur as [branch|]; [|discriminate].
  rewrite get_step in H.
  apply bind_ok in H. destruct H as (d & w' & OR & H).
  apply open_repo_ok in OR. destruct OR as (-> & L & G).
  apply bind_ok in H. destruct H as (cid & wc & CM & H).
  rewrite get_step in H. cbv zeta in H.
  destruct (_commit_inv _ _ _ _ _ _ L G CM) as (h & R & CASES).
  assert (GB0 : fst (_get_branch w) = Ok (Some branch)) by now rewrite GB.
  (* the state after the implicit commit *)
  assert (ST : exists hc,
             settled wc branch hc
             /\ remote_heads wc = remote_heads w
             /\ fst (_get_branch wc) = Ok (Some branch)
             /\ (cid = hc \/ cid = fresh_oid w)).
  { destruct CASES as [(C & -> & ->)|(C & E & ->)].
    - exists h. split; [exists d; now repeat split|]. repeat split; auto.
    - destruct (lookup_ref_record_commit branch (join (basedir w) branch)
                  [commit_message branch message] d cid w h R) as [h' R'].
      exists h'. split.
      + exists {| is_git := is_git d; abbrev_ref := abbrev_ref d; changes := [] |}.
        split; [|now repeat split].
        change (basedir (record_commit (join (basedir w) branch)
                           [commit_message branch message] d cid w))
          with (basedir w).
        rewrite lookup_dir_record_commit, L. cbn [option_map].
        now rewrite String.eqb_refl.
      + split; [reflexivity|]. split; [|now right].
        rewrite <- GB0. apply _get_branch_same_dirs; try reflexivity.
        intros q. apply get_current_branch_record_commit. }
  destruct ST as (hc & SET & RW & GBC & CID).
  destruct (Commands.same_commit cid
              (Commands.remote_commit_id branch (remote_heads wc))) eqn:SC.
  - (* nothing to push *)
    apply same_commit_true in SC. apply print_ok in H. subst w1.
    assert (cid = hc).
    { destruct CID as [E|E]; [exact E|]. exfalso.
      apply remote_commit_id_in in SC. rewrite RW in SC.
      now apply (fresh_oid_not_remote w branch cid). }
    subst hc. exists branch, cid. split; [exact GB0|].
    destruct SET as (d' & L' & G' & C' & R').
    split; [exact R'|]. split; [exact SC|].
    intros message'. apply push_when_settled with (branch := branch) (c := cid).
    + rewrite <- GBC. apply _get_branch_same_dirs; try reflexivity.
      intros q. now apply get_current_branch_dirs.
    + exists d'. now repeat split.
    + exact SC.
  - (* the branch is pushed *)
    apply bind_ok in H. destruct H as ([] & wp & PR & H).
    apply print_ok in H. subst w1.
    unfold Commands.push_ref in PR. apply guarded_ok in PR. destruct PR as [_ PR].
    rewrite get_step in PR. cbv zeta in PR.
    destruct SET as (d' & L' & G' & C' & R'). rewrite R' in PR.
    assert (NEW : exists remote',
               wp = Commands.set_remote_heads remote' wc
               /\ Commands.remote_commit_id branch remote' = Some hc).
    { destruct (lookup_ref branch (remote_heads wc)) as [old|] eqn:LR.
      - destruct (fast_forward old hc); [|discriminate].
        unfold modify in PR. injection PR as <-. eexists. split; [reflexivity|].
        eapply remote_commit_id_set_ref. exact LR.
      - unfold modify in PR. injection PR as <-. eexists. split; [reflexivity|].
        apply remote_commit_id_app. }
    destruct NEW as (remote' & -> & RC).
    exists branch, hc. split; [exact GB0|]. split; [exact R'|]. split; [exact RC|].
    intros message'. apply push_when_settled with (branch := branch) (c := hc).
    + rewrite <- GBC. apply _get_branch_same_dirs; try reflexivity.
      intros q. now apply get_current_branch_dirs.
    + exists d'. now repeat split.
    + exact RC.
Qed.

End Remote.

Lemma push_then_push_is_up_to_date_witness :
  exists c,
    lookup_ref "a"
      (heads (snd (Commands.push (fun _ _ => true) None
                     (chdir "a" Scenarios.dirty_project)))) = Some c
    /\ Commands.remote_commit_id "a"
         (remote_heads (snd (Commands.push (fun _ _ => true) None
                               (chdir "a" Scenarios.dirty_project)))) = Some c.
Proof.
  destruct (push_then_push_is_up_to_date (fun _ _ => true)
              (chdir "a" Scenarios.dirty_project) None
              (snd (Commands.push (fun _ _ => true) None
                      (chdir "a" Scenarios.dirty_project))))
    as (branch & c & GB & L & R & _).
  - vm_compute. reflexivity.
  - assert (branch = "a") by (vm_compute in GB; congruence). subst branch.
    exists c. now split.
Defined.

End CommandFacts.

(** ** Facts about the listings *)
Module ListingFacts.
Import Text Pytext PytextFacts Subprocess Listing.

Lemma for_each_app {S : Type} (body : S -> string -> outcome S) l1 l2 :
  forall st,
    for_each body (l1 ++ l2) st = and_then (for_each body l1 st) (for_each body l2).
Proof.
  induction l1 as [|l l1 IH]; intros st; [reflexivity|].
  cbn [app for_each]. destruct (body st l) as [s|msg|exn]; cbn [and_then]; auto.
Qed.

Lemma one_line_app a b : one_line (a ++ b) = one_line a && one_line b.
Proof.
  induction a as [|c a IH]; [reflexivity|].
  cbn [append one_line]. now rewrite IH, andb_assoc.
Qed.

Lemma no_space_app a b : no_space (a ++ b) = no_space a && no_space b.
Proof.
  induction a as [|c a IH]; [reflexivity|].
  cbn [append no_space]. now rewrite IH, andb_assoc.
Qed.

Lemma is_word_no_space w : is_word w = true -> no_space w = true.
Proof. unfold is_word. now rewrite andb_true_iff. Qed.

Lemma is_word_one_line w : is_word w = true -> one_line w = true.
Proof. intros H. now apply no_space_one_line, is_word_no_space. Qed.

(** A keyword, a blank and a word. *)
Lemma split_keyword kw w :
  is_word kw = true -> is_word w = true ->
  split (kw ++ String " " w) = [kw; w].
Proof.
  intros K W. rewrite (split_word_then kw " " w K eq_refl). now rewrite (split_word w W).
Qed.

Lemma drop_app a b : drop (String.length a) (a ++ b) = b.
Proof. induction a as [|c a IH]; [now destruct b | exact IH]. Qed.

Lemma prefix_app a b : String.prefix a (a ++ b) = true.
Proof.
  induction a as [|c a IH]; [now destruct b|].
  cbn [append String.prefix]. destruct (ascii_dec c c); [exact IH | congruence].
Qed.

(** *** [list_worktrees] *)

(** One worktree as [git worktree list --porcelain] describes it; [l_ref]
    is the ref [HEAD] is on, none for a detached [HEAD]. *)
Record listed : Type := { l_path : string; l_head : string; l_ref : option string }.

Definition block (r : listed) : list string :=
  [("worktree " ++ l_path r)%string; ("HEAD " ++ l_head r)%string;
   match l_ref r with
   | Some ref => ("branch " ++ ref)%string
   | None => "detached"
   end].

(** The blocks, with an empty line between two of them. *)
Fixpoint porcelain (rs : list listed) : list string :=
  match rs with
  | [] => []
  | r :: rest =>
      block r ++ match rest with [] => [] | _ :: _ => EmptyString :: porcelain rest end
  end.

Definition well_formed (r : listed) : bool :=
  is_word (l_path r) && is_word (l_head r)
  && match l_ref r with Some ref => is_word ref | None => true end.

(** The dict a block gives rise to, if any. *)
Definition entry_of (r : listed) : list worktree_dict :=
  match l_ref r with
  | Some ref =>
      if startswith refs_heads ref
      then [{| wd_path := Some (l_path r); wd_head := Some (l_head r);
               wd_branch := drop (String.length refs_heads) ref |}]
      else []
  | None => []
  end.

Lemma worktree_line_path pp ph acc p :
  is_word p = true ->
  worktree_line (pp, ph, acc) ("worktree " ++ p) = Ok (Some p, ph, acc).
Proof.
  intros W. unfold worktree_line.
  change (startswith "worktree" ("worktree " ++ p)) with (String.prefix "worktree" ("worktree" ++ String " " p)).
  rewrite prefix_app.
  change ("worktree " ++ p)%string with ("worktree" ++ String " " p)%string.
  rewrite (split_keyword "worktree" p eq_refl W). reflexivity.
Qed.

Lemma worktree_line_head pp ph acc h :
  is_word h = true ->
  worktree_line (pp, ph, acc) ("HEAD " ++ h) = Ok (pp, Some h, acc).
Proof.
  intros W. unfold worktree_line.
  change (startswith "worktree" ("HEAD " ++ h)) with false. cbv iota. cbn [and_then].
  change (startswith "HEAD" ("HEAD " ++ h)) with (String.prefix "HEAD" ("HEAD" ++ String " " h)).
  rewrite prefix_app.
  change ("HEAD " ++ h)%string with ("HEAD" ++ String " " h)%string.
  rewrite (split_keyword "HEAD" h eq_refl W). reflexivity.
Qed.

Lemma worktree_line_branch pp ph acc ref :
  is_word ref = true ->
  worktree_line (pp, ph, acc) ("branch " ++ ref)
  = Ok (pp, ph,
        acc ++ if startswith refs_heads ref
               then [{| wd_path := pp; wd_head := ph;
                        wd_branch := drop (String.length refs_heads) ref |}]
               else []).
Proof.
  intros W. unfold worktree_line.
  change (startswith "worktree" ("branch " ++ ref)) with false.
  change (startswith "HEAD" ("branch " ++ ref)) with false. cbv iota. cbn [and_then].
  change (startswith "branch" ("branch " ++ ref)) with (String.prefix "branch" ("branch" ++ String " " ref)).
  rewrite prefix_app.
  change ("branch " ++ ref)%string with ("branch" ++ String " " ref)%string.
  rewrite (split_keyword "branch" ref eq_refl W). cbn [second and_then].
  destruct (startswith refs_heads ref); [reflexivity|]. now rewrite app_nil_r.
Qed.

Lemma worktree_block pp ph acc r :
  well_formed r = true ->
  for_each worktree_line (block r) (pp, ph, acc)
  = Ok (Some (l_path r), Some (l_head r), acc ++ entry_of r).
Proof.
  unfold well_formed. rewrite !andb_true_iff. intros [[P H] R].
  unfold block. cbn [for_each].
  rewrite (worktree_line_path _ _ _ _ P). cbn [and_then].
  rewrite (worktree_line_head _ _ _ _ H). cbn [and_then].
  unfold entry_of. destruct (l_ref r) as [ref|].
  - rewrite (worktree_line_branch _ _ _ _ R). reflexivity.
  - cbn. now rewrite app_nil_r.
Qed.

Lemma worktree_blocks rs :
  forallb well_formed rs = true ->
  forall pp ph acc,
    and_then (for_each worktree_line (porcelain rs) (pp, ph, acc))
             (fun state => Ok (snd state))
    = Ok (acc ++ flat_map entry_of rs).
Proof.
  induction rs as [|r rs IH]; intros WF pp ph acc.
  - cbn. now rewrite app_nil_r.
  - cbn [forallb] in WF. apply andb_true_iff in WF. destruct WF as [W WF].
    cbn [porcelain flat_map]. rewrite for_each_app, (worktree_block _ _ _ _ W).
    cbn [and_then]. destruct rs as [|r' rs'].
    + cbn. now rewrite app_nil_r.
    + cbn [for_each]. change (worktree_line (Some (l_path r), Some (l_head r), acc ++ entry_of r) EmptyString)
        with (Ok (Some (l_path r), Some (l_head r), acc ++ entry_of r)).
      cbn [and_then]. rewrite (IH WF). now rewrite app_assoc.
Qed.

Lemma block_one_line r :
  well_formed r = true -> forallb one_line (block r) = true.
Proof.
  unfold well_formed. rewrite !andb_true_iff. intros [[P H] R].
  unfold block. cbn [forallb]. rewrite !one_line_app.
  rewrite (is_word_one_line _ P), (is_word_one_line _ H).
  destruct (l_ref r) as [ref|].
  - rewrite one_line_app, (is_word_one_line _ R). reflexivity.
  - reflexivity.
Qed.

Lemma porcelain_one_line rs :
  forallb well_formed rs = true -> forallb one_line (porcelain rs) = true.
Proof.
  induction rs as [|r rs IH]; [reflexivity|]. cbn [forallb porcelain].
  rewrite andb_true_iff. intros [W WF]. rewrite forallb_app, (block_one_line _ W).
  destruct rs as [|r' rs']; [reflexivity|]. cbn [forallb andb one_line].
  now apply IH.
Qed.

Lemma last_after {A : Type} (l1 l2 : list A) d :
  l2 <> [] -> last (l1 ++ l2) d = last l2 d.
Proof.
  intros N. induction l1 as [|x l1 IH]; [reflexivity|].
  cbn [app]. destruct (l1 ++ l2) eqn:E.
  - apply app_eq_nil in E. now destruct E.
  - cbn [last]. cbn [last] in IH. exact IH.
Qed.

Lemma porcelain_last rs :
  rs <> [] -> is_empty (last (porcelain rs) EmptyString) = false.
Proof.
  induction rs as [|r rs IH]; [congruence|]. intros _.
  cbn [porcelain]. destruct rs as [|r' rs'].
  - rewrite app_nil_r. unfold block. cbn [last].
    now destruct (l_ref r).
  - rewrite last_after by discriminate.
    assert (N : porcelain (r' :: rs') <> []) by (cbn; discriminate).
    destruct (porcelain (r' :: rs')) as [|x xs] eqn:E; [congruence|].
    cbn [last]. cbn [last] in IH. apply IH. discriminate.
Qed.

(** X16: [list_worktrees] reads back what [git worktree list --porcelain]
    prints: for blocks of [worktree], [HEAD] and [branch] or [detached]
    lines whose paths, ids and refs are single words, it returns one dict
    for each worktree whose [HEAD] is on a ref under [refs/heads/], in
    order, with the prefix removed from the branch; a detached worktree and
    one on another kind of ref give none. *)
Theorem list_worktrees_reads_porcelain (rs : list listed) :
  forallb well_formed rs = true ->
  parse_worktrees (unlines (porcelain rs)) = Ok (flat_map entry_of rs).
Proof.
  intros WF. unfold parse_worktrees. destruct rs as [|r rs'] eqn:E.
  - reflexivity.
  - rewrite <- E in *. rewrite splitlines_unlines.
    + now rewrite (worktree_blocks rs WF).
    + now apply porcelain_one_line.
    + apply porcelain_last. now rewrite E.
Qed.

Lemma list_worktrees_reads_porcelain_witness :
  parse_worktrees
    (unlines (porcelain
       [{| l_path := "/p/.em/repo"; l_head := "1f"; l_ref := Some "refs/heads/__empty" |};
        {| l_path := "/p/a"; l_head := "2a"; l_ref := Some "refs/heads/a" |};
        {| l_path := "/p/d"; l_head := "3c"; l_ref := None |}]))
  = Ok [{| wd_path := Some "/p/.em/repo"; wd_head := Some "1f"; wd_branch := "__empty" |};
        {| wd_path := Some "/p/a"; wd_head := Some "2a"; wd_branch := "a" |}].
Proof.
  apply (list_worktrees_reads_porcelain
           [{| l_path := "/p/.em/repo"; l_head := "1f"; l_ref := Some "refs/heads/__empty" |};
            {| l_path := "/p/a"; l_head := "2a"; l_ref := Some "refs/heads/a" |};
            {| l_path := "/p/d"; l_head := "3c"; l_ref := None |}]).
  reflexivity.
Defined.

(** A path with a blank in it is cut at the blank ([line.split()[1]]), so
    in a project below such a directory no entry is at its convention
    path. *)
Example worktree_path_with_blank :
  parse_worktrees
    (unlines ["worktree /home/my user/p/a"; "HEAD 2a"; "branch refs/heads/a"])
  = Ok [{| wd_path := Some "/home/my"; wd_head := Some "2a"; wd_branch := "a" |}].
Proof. reflexivity. Qed.

(** *** [list_local_branches] and [list_control_branches] *)

(** What both loops read from a line: the name under [refs/heads/] of its
    second word, if it is one. *)
Definition ref_name (line : string) : outcome (option string) :=
  and_then (second (split (strip_space line))) (fun branch =>
    Ok (if startswith refs_heads branch
        then Some (drop (String.length refs_heads) branch)
        else None)).

Definition option_list {A : Type} (o : option A) : list A :=
  match o with Some a => [a] | None => [] end.

(** The names of the lines, in order; it fails as [tokens[1]] does. *)
Fixpoint ref_names (lines : list string) : outcome (list string) :=
  match lines with
  | [] => Ok []
  | line :: rest =>
      and_then (ref_name line) (fun o =>
      and_then (ref_names rest) (fun names => Ok (option_list o ++ names)))
  end.

Definition is_control (branch : string) : bool := startswith "__" branch.

Lemma ref_names_error lines exn :
  ref_names lines = Raise exn -> exn = "IndexError".
Proof.
  induction lines as [|line rest IH]; [discriminate|]. cbn [ref_names].
  unfold ref_name at 1.
  destruct (split (strip_space line)) as [|a [|b more]]; cbn [second and_then].
  - now intros [= <-].
  - now intros [= <-].
  - destruct (ref_names rest) as [names|msg|e]; cbn [and_then];
      [discriminate | discriminate | intros [= <-]; now apply IH].
Qed.

Lemma ref_names_no_die lines msg : ref_names lines <> Die msg.
Proof.
  induction lines as [|line rest IH]; [discriminate|]. cbn [ref_names].
  unfold ref_name at 1.
  destruct (split (strip_space line)) as [|a [|b more]]; cbn [second and_then];
    try discriminate.
  destruct (ref_names rest) as [names|m|e]; cbn [and_then]; try discriminate.
  intros [= <-]. now apply IH.
Qed.

Lemma local_branches_spec lines :
  forall acc,
    for_each local_branch_line lines acc
    = and_then (ref_names lines)
        (fun names => Ok (acc ++ filter (fun b => negb (is_control b)) names)).
Proof.
  induction lines as [|line rest IH]; intros acc.
  - cbn. now rewrite app_nil_r.
  - cbn [for_each ref_names]. unfold local_branch_line at 1, ref_name at 1.
    destruct (split (strip_space line)) as [|a [|b more]]; cbn [second and_then];
      try reflexivity.
    cbv zeta. unfold is_control.
    destruct (startswith refs_heads b); cbn [option_list].
    + destruct (startswith "__" (drop (String.length refs_heads) b)) eqn:C;
        cbn [negb and_then]; rewrite IH;
        destruct (ref_names rest) as [names|msg|e]; cbn [and_then app filter];
        try reflexivity.
      * now rewrite C.
      * rewrite C. cbn [negb]. now rewrite <- app_assoc.
    + cbn [and_then]. rewrite IH.
      destruct (ref_names rest) as [names|msg|e]; reflexivity.
Qed.

Lemma control_branches_spec lines :
  forall acc,
    for_each control_branch_line lines acc
    = and_then (ref_names lines)
        (fun names => Ok (acc ++ filter is_control names)).
Proof.
  induction lines as [|line rest IH]; intros acc.
  - cbn. now rewrite app_nil_r.
  - cbn [for_each ref_names]. unfold control_branch_line at 1, ref_name at 1.
    destruct (split (strip_space line)) as [|a [|b more]]; cbn [second and_then];
      try reflexivity.
    cbv zeta. unfold is_control.
    destruct (startswith refs_heads b); cbn [option_list].
    + destruct (startswith "__" (drop (String.length refs_heads) b)) eqn:C;
        cbn [negb and_then]; rewrite IH;
        destruct (ref_names rest) as [names|msg|e]; cbn [and_then app filter];
        try reflexivity.
      * rewrite C. now rewrite <- app_assoc.
      * now rewrite C.
    + cbn [and_then]. rewrite IH.
      destruct (ref_names rest) as [names|msg|e]; reflexivity.
Qed.

(** X17: on any output of [git show-ref --heads], [list_local_branches] and
    [list_control_branches] either both return or both raise [IndexError]
    (some line has fewer than two words). When they return, they split one
    list of names, those of the second words under [refs/heads/], between
    them: the control branches are the names that start with two
    underscores, the local branches are the others, each in the order of
    the output, and no name is in both lists. *)
Theorem local_and_control_branches_partition (output : string) :
  (exists names,
      let locals := filter (fun b => negb (is_control b)) names in
      let controls := filter is_control names in
      parse_local_branches output = Ok locals
      /\ parse_control_branches output = Ok controls
      /\ (forall b, In b names <-> In b locals \/ In b controls)
      /\ (forall b, ~ (In b locals /\ In b controls)))
  \/ (parse_local_branches output = Raise "IndexError"
      /\ parse_control_branches output = Raise "IndexError").
Proof.
  unfold parse_local_branches, parse_control_branches.
  rewrite local_branches_spec, control_branches_spec.
  destruct (ref_names (splitlines output)) as [names|msg|exn] eqn:E.
  - left. exists names. cbv zeta. cbn [and_then app].
    split; [reflexivity|]. split; [reflexivity|]. split.
    + intros b. rewrite !filter_In. split.
      * intros I. destruct (is_control b); [right | left]; now split.
      * intros [[I _]|[I _]]; exact I.
    + intros b [L C]. apply filter_In in L. apply filter_In in C.
      destruct L as [_ L]. destruct C as [_ C]. rewrite C in L. discriminate.
  - now apply ref_names_no_die in E.
  - right. apply ref_names_error in E. subst exn. now split.
Qed.

(** What [git show-ref --heads] prints for a ref: the id, a blank and the
    full name. *)
Definition show_ref_line (r : string * string) : string :=
  (fst r ++ String " " (refs_heads ++ snd r))%string.

Lemma ref_name_show_ref_line r :
  is_word (fst r) = true -> no_space (snd r) = true ->
  ref_name (show_ref_line r) = Ok (Some (snd r)).
Proof.
  intros O N. unfold ref_name, show_ref_line. rewrite split_strip_space.
  rewrite split_keyword; [|exact O|].
  - cbn [second and_then]. unfold startswith. rewrite prefix_app.
    now rewrite drop_app.
  - unfold is_word. now rewrite no_space_app, N.
Qed.

Lemma ref_names_show_ref refs :
  forallb (fun r => is_word (fst r) && no_space (snd r)) refs = true ->
  ref_names (map show_ref_line refs) = Ok (map snd refs).
Proof.
  induction refs as [|r refs IH]; [reflexivity|]. cbn [forallb map ref_names].
  rewrite !andb_true_iff. intros [[O N] WF].
  rewrite (ref_name_show_ref_line _ O N). cbn [and_then].
  now rewrite (IH WF).
Qed.

Lemma show_ref_line_one_line r :
  is_word (fst r) = true -> no_space (snd r) = true ->
  one_line (show_ref_line r) = true /\ is_empty (show_ref_line r) = false.
Proof.
  intros O N. unfold show_ref_line. split.
  - rewrite one_line_app, (is_word_one_line _ O). cbn [one_line].
    change (is_linebreak " ") with false. cbn [negb andb].
    rewrite one_line_app. now rewrite (no_space_one_line _ N).
  - destruct (fst r); [discriminate O | reflexivity].
Qed.

Lemma splitlines_show_ref refs :
  forallb (fun r => is_word (fst r) && no_space (snd r)) refs = true ->
  splitlines (unlines (map show_ref_line refs)) = map show_ref_line refs.
Proof.
  intros WF. destruct refs as [|r0 refs0] eqn:E; [reflexivity|]. rewrite <- E in *.
  apply splitlines_unlines.
  - rewrite forallb_forall in *. intros line I. apply in_map_iff in I.
    destruct I as (r & <- & I). specialize (WF r I).
    apply andb_true_iff in WF. destruct WF as [O N].
    now apply show_ref_line_one_line.
  - assert (I : In (last (map show_ref_line refs) EmptyString) (map show_ref_line refs)).
    { destruct (exists_last (l := map show_ref_line refs)) as (l' & a & EQ).
      - rewrite E. discriminate.
      - rewrite EQ, last_last. apply in_or_app. right. now left. }
    apply in_map_iff in I. destruct I as (r & <- & I).
    rewrite forallb_forall in WF. specialize (WF r I).
    apply andb_true_iff in WF. destruct WF as [O N].
    now apply show_ref_line_one_line.
Qed.

(** X18: the branch lists of the engine are what the adapter reads from git.
    When [git show-ref --heads] prints the refs of a state, one line [id
    refs/heads/name] for each, with ids that are single words and names
    without white space, [list_local_branches] returns the names that do
    not start with two underscores and [list_control_branches] those that
    do, in the order of the refs. *)
Theorem show_ref_listing_reads_back (show : Engine.oid -> string) (w : Engine.world) :
  (forall c, is_word (show c) = true) ->
  forallb no_space (Engine.all_heads w) = true ->
  let output :=
    unlines (map (fun r => show_ref_line (show (snd r), fst r)) (Engine.heads w)) in
  parse_local_branches output = Ok (Engine.list_local_branches w)
  /\ parse_control_branches output = Ok (Engine.list_control_branches w).
Proof.
  intros SH NS output.
  assert (WF : forallb (fun r => is_word (fst r) && no_space (snd r))
                 (map (fun r => (show (snd r), fst r)) (Engine.heads w)) = true).
  { rewrite forallb_forall in *. intros r I. apply in_map_iff in I.
    destruct I as (h & <- & I). cbn [fst snd]. rewrite SH. cbn [andb].
    apply NS. unfold Engine.all_heads. now apply in_map. }
  assert (OUT : splitlines output
                = map show_ref_line
                    (map (fun r => (show (snd r), fst r)) (Engine.heads w))).
  { unfold output. rewrite <- (splitlines_show_ref _ WF). now rewrite map_map. }
  assert (NAMES : ref_names (splitlines output) = Ok (Engine.all_heads w)).
  { rewrite OUT, (ref_names_show_ref _ WF). unfold Engine.all_heads.
    now rewrite map_map. }
  unfold parse_local_branches, parse_control_branches.
  rewrite local_branches_spec, control_branches_spec, NAMES. cbn [and_then app].
  split; reflexivity.
Qed.

Lemma show_ref_listing_reads_back_witness :
  parse_local_branches
    (unlines (map (fun r => show_ref_line ("1f", fst r))
                (Engine.heads Scenarios.clean_project)))
  = Ok ["a"].
Proof.
  apply (show_ref_listing_reads_back (fun _ => "1f") Scenarios.clean_project).
  - intros c. reflexivity.
  - reflexivity.
Defined.

(** *** [ls_remotes] *)

(** The line has exactly two words. *)
Definition two_words (line : string) : bool :=
  Nat.eqb (List.length (split line)) 2.

(** The dict a line of two words gives rise to, if any. *)
Definition remote_of (line : string) : list remote_ref :=
  match split line with
  | [oid; name] =>
      if startswith refs_heads name
      then [{| rr_oid := oid; rr_branch := drop (String.length refs_heads) name |}]
      else []
  | _ => []
  end.

Lemma remotes_spec lines :
  forall acc,
    for_each remote_line lines acc
    = if forallb two_words lines
      then Ok (acc ++ flat_map remote_of lines)
      else Raise "ValueError".
Proof.
  induction lines as [|line rest IH]; intros acc.
  - cbn. now rewrite app_nil_r.
  - cbn [for_each forallb flat_map]. unfold remote_line at 1, two_words at 1, remote_of at 1.
    destruct (split line) as [|a [|b [|c more]]]; cbn [unpack_pair and_then List.length Nat.eqb andb];
      try reflexivity.
    cbv zeta. destruct (startswith refs_heads b); cbn [and_then]; rewrite IH;
      destruct (forallb two_words rest); try reflexivity.
    now rewrite <- app_assoc.
Qed.

(** What [git ls-remote] prints for a ref: the id, a tab and the full name. *)
Definition ls_remote_line (r : string * string) : string :=
  (fst r ++ String (ascii_of_nat 9) (snd r))%string.

Lemma split_ls_remote_line r :
  is_word (fst r) = true -> is_word (snd r) = true ->
  split (ls_remote_line r) = [fst r; snd r].
Proof.
  intros O N. unfold ls_remote_line.
  rewrite (split_word_then _ (ascii_of_nat 9) _ O eq_refl). now rewrite (split_word _ N).
Qed.

Lemma ls_remote_line_one_line r :
  is_word (fst r) = true -> is_word (snd r) = true ->
  one_line (ls_remote_line r) = true /\ is_empty (ls_remote_line r) = false.
Proof.
  intros O N. unfold ls_remote_line. split.
  - rewrite one_line_app, (is_word_one_line _ O). cbn [one_line].
    change (is_linebreak (ascii_of_nat 9)) with false. cbn [negb andb].
    now apply is_word_one_line.
  - destruct (fst r); [discriminate O | reflexivity].
Qed.

Lemma splitlines_rendered {A : Type} (render : A -> string) (items : list A) :
  (forall x, In x items ->
             one_line (render x) = true /\ is_empty (render x) = false) ->
  splitlines (unlines (map render items)) = map render items.
Proof.
  intros WF. destruct items as [|x0 items0] eqn:E; [reflexivity|]. rewrite <- E in *.
  apply splitlines_unlines.
  - rewrite forallb_forall. intros line I. apply in_map_iff in I.
    destruct I as (x & <- & I). now apply WF.
  - assert (I : In (last (map render items) EmptyString) (map render items)).
    { destruct (exists_last (l := map render items)) as (l' & a & EQ).
      - rewrite E. discriminate.
      - rewrite EQ, last_last. apply in_or_app. right. now left. }
    apply in_map_iff in I. destruct I as (x & <- & I). now apply WF.
Qed.

(** X19: [ls_remotes] unpacks every line into exactly two words. It returns
    when every line of the output has two, with one dict, in order, for
    each line whose second word is under [refs/heads/]; as soon as one line
    has fewer or more it raises [ValueError]. On what [git ls-remote]
    prints, an id, a tab and the full name of the ref, it returns the ids
    and names of the branches and skips [HEAD] and the tags. *)
Theorem ls_remotes_unpacks_two_words :
  (forall output,
      parse_remotes output
      = if forallb two_words (splitlines output)
        then Ok (flat_map remote_of (splitlines output))
        else Raise "ValueError")
  /\ (forall refs : list (string * string),
         forallb (fun r => is_word (fst r) && is_word (snd r)) refs = true ->
         parse_remotes (unlines (map ls_remote_line refs))
         = Ok (flat_map
                 (fun r => if startswith refs_heads (snd r)
                           then [{| rr_oid := fst r;
                                    rr_branch := drop (String.length refs_heads) (snd r) |}]
                           else [])
                 refs)).
Proof.
  split.
  - intros output. unfold parse_remotes. now rewrite remotes_spec.
  - intros refs WF. unfold parse_remotes. rewrite remotes_spec.
    rewrite forallb_forall in WF.
    assert (W : forall r, In r refs -> is_word (fst r) = true /\ is_word (snd r) = true).
    { intros r I. apply andb_true_iff. now apply WF. }
    rewrite splitlines_rendered
      by (intros r I; destruct (W r I); now apply ls_remote_line_one_line).
    clear WF. induction refs as [|r refs IH]; [reflexivity|].
    destruct (W r (or_introl eq_refl)) as [O N].
    cbn [map forallb flat_map]. unfold two_words at 1, remote_of at 1.
    rewrite (split_ls_remote_line _ O N). cbn [List.length Nat.eqb andb].
    assert (W' : forall r, In r refs -> is_word (fst r) = true /\ is_word (snd r) = true)
      by (intros x I; apply W; now right).
    specialize (IH W').
    destruct (forallb two_words (map ls_remote_line refs)); [|discriminate].
    injection IH as IH. now rewrite IH.
Qed.

Lemma ls_remotes_unpacks_two_words_witness :
  parse_remotes
    (unlines (map ls_remote_line
                [("9c", "HEAD"); ("9c", "refs/heads/main"); ("4d", "refs/tags/v1")]))
  = Ok [{| rr_oid := "9c"; rr_branch := "main" |}].
Proof.
  destruct ls_remotes_unpacks_two_words as [_ H].
  apply (H [("9c", "HEAD"); ("9c", "refs/heads/main"); ("4d", "refs/tags/v1")]).
  reflexivity.
Defined.

(** *** [ShellRepository.status] *)

(** [n] blanks. *)
Fixpoint blanks (n : nat) : string :=
  match n with
  | 0 => EmptyString
  | S m => String " " (blanks m)
  end.

(** A path as git prints it after the status columns: it starts with a
    character that is not white space and stays on its line. *)
Definition is_path (p : string) : bool :=
  match p with
  | EmptyString => false
  | String c _ => negb (is_space c) && one_line p
  end.

(** One line of [git status --porcelain]: the status letters, set off by
    blanks on either side, and the path. *)
Record status_entry : Type := {
  s_indent : nat;
  s_letters : string;
  s_gap : nat;
  s_path : string
}.

Definition status_entry_line (e : status_entry) : string :=
  (blanks (s_indent e) ++ s_letters e ++ blanks (S (s_gap e)) ++ s_path e)%string.

Lemma skip_space_blanks n s : skip_space (blanks n ++ s) = skip_space s.
Proof. induction n as [|n IH]; [reflexivity | exact IH]. Qed.

Lemma skip_space_path p : is_path p = true -> skip_space p = p.
Proof.
  destruct p as [|c p]; [discriminate|]. unfold is_path.
  rewrite andb_true_iff, negb_true_iff. intros [C _]. cbn [skip_space]. now rewrite C.
Qed.

Lemma one_line_blanks n : one_line (blanks n) = true.
Proof. induction n as [|n IH]; [reflexivity | exact IH]. Qed.

Lemma split_once_status_entry e :
  is_word (s_letters e) = true -> is_path (s_path e) = true ->
  split_once (status_entry_line e) = [s_letters e; s_path e].
Proof.
  intros W P. unfold split_once, status_entry_line.
  rewrite skip_space_blanks.
  destruct (s_letters e) as [|c l] eqn:L; [discriminate|].
  pose proof W as W'. unfold is_word in W'. cbn [is_empty negb andb no_space] in W'.
  apply andb_true_iff in W'. destruct W' as [C NS]. apply negb_true_iff in C.
  cbn [append skip_space]. rewrite C.
  change (String c (l ++ blanks (S (s_gap e)) ++ s_path e))
    with (String c l ++ String " " (blanks (s_gap e) ++ s_path e))%string.
  rewrite first_word_then; [|now apply is_word_no_space | reflexivity].
  change (skip_space (String " " (blanks (s_gap e) ++ s_path e)))
    with (skip_space (blanks (s_gap e) ++ s_path e)).
  rewrite skip_space_blanks, (skip_space_path _ P).
  destruct (s_path e); [discriminate P | reflexivity].
Qed.

Lemma status_entry_one_line e :
  is_word (s_letters e) = true -> is_path (s_path e) = true ->
  one_line (status_entry_line e) = true /\ is_empty (status_entry_line e) = false.
Proof.
  intros W P. unfold status_entry_line. split.
  - rewrite !one_line_app, !one_line_blanks, (is_word_one_line _ W).
    destruct (s_path e) as [|c p]; [discriminate P|].
    unfold is_path in P. apply andb_true_iff in P. now destruct P as [_ ->].
  - destruct (s_letters e) as [|c l]; [discriminate W|].
    now destruct (blanks (s_indent e)).
Qed.

Lemma status_spec lines :
  forall acc,
    for_each status_line lines acc
    = if forallb (fun line => Nat.eqb (List.length (split_once line)) 2) lines
      then Ok (acc ++ flat_map
                        (fun line =>
                           match split_once line with
                           | [st; path] => [{| d_status := st; d_path := path |}]
                           | _ => []
                           end) lines)
      else Raise "ValueError".
Proof.
  induction lines as [|line rest IH]; intros acc.
  - cbn. now rewrite app_nil_r.
  - cbn [for_each forallb flat_map]. unfold status_line at 1.
    destruct (split_once line) as [|a [|b [|c more]]];
      cbn [unpack_pair and_then List.length Nat.eqb andb]; try reflexivity.
    rewrite IH. destruct (forallb _ rest); [|reflexivity].
    now rewrite <- app_assoc.
Qed.

(** X20: [ShellRepository.status] splits each line at its first run of
    blanks only: on the lines of [git status --porcelain] it returns one
    delta for each line, whose status is the letters without the blanks
    around them and whose path is the rest of the line, blanks inside it
    included. A line of a single word is a [ValueError]. *)
Theorem status_keeps_the_whole_path :
  (forall entries : list status_entry,
      forallb (fun e => is_word (s_letters e) && is_path (s_path e)) entries = true ->
      parse_status (unlines (map status_entry_line entries))
      = Ok (map (fun e => {| d_status := s_letters e; d_path := s_path e |}) entries))
  /\ (forall output,
         forallb (fun line => Nat.eqb (List.length (split_once line)) 2)
                 (splitlines output) = false ->
         parse_status output = Raise "ValueError").
Proof.
  split.
  - intros entries WF. unfold parse_status. rewrite status_spec.
    rewrite forallb_forall in WF.
    assert (W : forall e, In e entries ->
                          is_word (s_letters e) = true /\ is_path (s_path e) = true).
    { intros e I. apply andb_true_iff. now apply WF. }
    rewrite splitlines_rendered
      by (intros e I; destruct (W e I); now apply status_entry_one_line).
    clear WF. induction entries as [|e entries IH]; [reflexivity|].
    destruct (W e (or_introl eq_refl)) as [L P].
    cbn [map forallb flat_map]. rewrite (split_once_status_entry _ L P).
    cbn [List.length Nat.eqb andb].
    assert (W' : forall x, In x entries ->
                           is_word (s_letters x) = true /\ is_path (s_path x) = true)
      by (intros x I; apply W; now right).
    specialize (IH W').
    destruct (forallb _ (map status_entry_line entries)); [|discriminate].
    injection IH as IH. cbn [app]. now rewrite IH.
  - intros output H. unfold parse_status. now rewrite status_spec, H.
Qed.

Lemma status_keeps_the_whole_path_witness :
  parse_status
    (unlines (map status_entry_line
                [{| s_indent := 0; s_letters := "M"; s_gap := 1; s_path := "notes on x.txt" |};
                 {| s_indent := 0; s_letters := "??"; s_gap := 0; s_path := "run.py" |}]))
  = Ok [{| d_status := "M"; d_path := "notes on x.txt" |};
        {| d_status := "??"; d_path := "run.py" |}].
Proof.
  destruct status_keeps_the_whole_path as [H _].
  apply (H [{| s_indent := 0; s_letters := "M"; s_gap := 1; s_path := "notes on x.txt" |};
            {| s_indent := 0; s_letters := "??"; s_gap := 0; s_path := "run.py" |}]).
  reflexivity.
Defined.

(** *** [get_name] *)

(** No character of [s] is the path separator. *)
Fixpoint no_sep (s : string) : bool :=
  match s with
  | EmptyString => true
  | String c rest => negb (Ascii.eqb c Path.sep) && no_sep rest
  end.

Lemma rfind_zero_no_sep p : Path.rfind_sep_succ p = 0 <-> no_sep p = true.
Proof.
  induction p as [|c p IH]; cbn [Path.rfind_sep_succ no_sep]; [tauto|].
  destruct (Path.rfind_sep_succ p) as [|i].
  - destruct (Ascii.eqb c Path.sep); cbn [negb andb]; [split; discriminate|].
    split; [intros _; now apply IH | reflexivity].
  - split; [discriminate|]. rewrite andb_true_iff. intros [_ N].
    apply IH in N. discriminate.
Qed.

Lemma basename_no_sep p : no_sep (basename p) = true.
Proof.
  unfold basename. induction p as [|c p IH]; [reflexivity|].
  cbn [Path.rfind_sep_succ].
  destruct (Path.rfind_sep_succ p) as [|i] eqn:R.
  - pose proof (proj1 (rfind_zero_no_sep p) R) as N.
    destruct (Ascii.eqb c Path.sep) eqn:C; cbn [drop].
    + exact N.
    + cbn [no_sep]. now rewrite C, N.
  - exact IH.
Qed.

Lemma rfind_after_sep dir base :
  no_sep base = true ->
  Path.rfind_sep_succ (dir ++ String Path.sep base) = S (String.length dir).
Proof.
  intros N. induction dir as [|c dir IH].
  - cbn [append Path.rfind_sep_succ String.length].
    rewrite (proj2 (rfind_zero_no_sep base) N). now rewrite Ascii.eqb_refl.
  - cbn [append Path.rfind_sep_succ String.length]. now rewrite IH.
Qed.

Lemma basename_after_sep dir base :
  no_sep base = true -> basename (dir ++ String Path.sep base) = base.
Proof.
  intros N. unfold basename. rewrite (rfind_after_sep _ _ N).
  induction dir as [|c dir IH]; [reflexivity | exact IH].
Qed.

Lemma append_length_listing a b :
  String.length (a ++ b) = String.length a + String.length b.
Proof. induction a as [|c a IH]; cbn; [reflexivity | now rewrite IH]. Qed.

Lemma no_sep_append a b : no_sep (a ++ b) = no_sep a && no_sep b.
Proof.
  induction a as [|c a IH]; [reflexivity|].
  cbn [append no_sep]. now rewrite IH, andb_assoc.
Qed.

Lemma substring_whole_prefix a b : String.substring 0 (String.length a) (a ++ b) = a.
Proof.
  induction a as [|c a IH]; [now destruct b|].
  cbn [String.length append String.substring]. now rewrite IH.
Qed.

Lemma no_sep_substring n : forall s, no_sep s = true -> no_sep (String.substring 0 n s) = true.
Proof.
  induction n as [|n IH]; intros [|c s]; cbn [String.substring no_sep]; try reflexivity.
  rewrite !andb_true_iff. intros [C N]. split; [exact C | now apply IH].
Qed.

Lemma without_dot_git_suffix name : without_dot_git (name ++ ".git") = name.
Proof.
  unfold without_dot_git, endswith, drop_last.
  rewrite !append_length_listing. cbn [String.length].
  replace (String.length name + 4 - 4) with (String.length name) by lia.
  rewrite drop_app, substring_whole_prefix.
  replace (Nat.leb 4 (String.length name + 4)) with true
    by (symmetry; apply Nat.leb_le; lia).
  reflexivity.
Qed.

(** X21: [get_name] never returns a path: the name holds no [/]. For a
    remote url that ends in [/base], with no further [/] in [base], it
    returns [base], without its last four characters when these are
    [.git]; only one such suffix is removed. *)
Theorem get_name_is_the_last_component :
  (forall url, no_sep (without_dot_git (basename url)) = true)
  /\ (forall dir base,
         no_sep base = true ->
         without_dot_git (basename (dir ++ String Path.sep (base ++ ".git"))) = base
         /\ (endswith ".git" base = false ->
             without_dot_git (basename (dir ++ String Path.sep base)) = base)).
Proof.
  split.
  - intros url. unfold without_dot_git.
    destruct (endswith ".git" (basename url)).
    + unfold drop_last. apply no_sep_substring, basename_no_sep.
    + apply basename_no_sep.
  - intros dir base N. split.
    + rewrite basename_after_sep.
      * apply without_dot_git_suffix.
      * rewrite no_sep_append, N. reflexivity.
    + intros E. rewrite (basename_after_sep _ _ N). unfold without_dot_git.
      now rewrite E.
Qed.

Lemma get_name_is_the_last_component_witness :
  without_dot_git (basename ("https://host/u" ++ String Path.sep ("exp.git" ++ ".git")))
  = "exp.git".
Proof.
  destruct get_name_is_the_last_component as [_ H].
  apply (H "https://host/u" "exp.git"). reflexivity.
Defined.

End ListingFacts.
